(** * sharpctl: the frame-scoring and windowed-search engine

    A shallow embedding of [sharpctl::VideoAnalyzer] (open/duration metadata,
    the full-scan sampler, the windowed optimizer and the exporter) and of the
    selection persistence of [sharpctl::gui::App] ([saveConfig]/[loadConfig]).
    Around this core it embeds what drives it: the application's actions
    ([loadVideo], [startAnalysis], [exportFrames], the management of the
    selection, the performance history), the mouse handling and the time
    display of the panels, and the command line ([runCli], [main]).

    Numbers.  The C++ [double] and [float] quantities (times, scores, steps)
    are embedded as rationals [Q]; comparisons and [std::max]/[std::min]
    are exact, as in the source.  Rounding to the nearest [double] or
    [float] ([Cpp.binary64], [Cpp.binary32]) is applied where a value of
    the source is stated: the duration of [openVideo], the click threshold
    and the distances of the timeline panel, the CPU load of
    [updatePerfStats], and the windowed optimizer [findOptimalFrames64],
    whose additions, subtractions and seek positions are rounded.  The
    engine is also given on exact rationals ([analyzeFullVideo],
    [findOptimalFrames]), for what depends on the order and the scores of
    the positions and not on their last bit.  Infinities and NaN are not
    embedded.  Facts about times are stated with [==], [<=] and [<].  The
    two time loops are given once more on the machine's binary64 numbers
    ([Binary64]), to replay the examples.

    Collaborators.  OpenCV is outside the repository: decoding
    ([cv::VideoCapture]), the two scoring kernels, [cv::resize] and
    [cv::imwrite] are variables of the section [Analysis]; the module
    [Bench] instantiates them for the examples.  Progress and observer
    callbacks carry no state of the engine and are left out.

    Loops.  The [for (t = a; t <= b; t += step)] loops of the source do not
    terminate for [step <= 0], nor once a rounded addition no longer
    advances; they are embedded with a fuel argument and return [None] when
    the fuel runs out.

    Threads.  The parallel regions are embedded through what their units
    can observe of the shared state: the reads of the cancellation flag
    ([CancelEnv]) for the two analysis passes, whose units write disjoint
    slots, and a schedule of events ([Event]) for the exporter, whose units
    also share the [failed] flag. *)

From Stdlib Require Import QArith Qround Qabs Qpower ZArith List Bool Lia Lqa String Ascii.
From Stdlib Require Import DecimalString Floats Sorted OrderedTypeEx.
Import ListNotations.
Open Scope Q_scope.

(* ------------------------------------------------------------------ *)
(** * Numeric helpers: the C++ operators on [double] *)

Module Cpp.

(** [a > b] *)
Definition gt (a b : Q) : bool :=
  match a ?= b with Gt => true | _ => false end.

(** [a <= b] *)
Definition le (a b : Q) : bool := Qle_bool a b.

(** [a >= b] *)
Definition ge (a b : Q) : bool := Qle_bool b a.

(** [std::max(a, b)]: [(a < b) ? b : a] *)
Definition max (a b : Q) : Q := if gt b a then b else a.

(** [std::min(a, b)]: [(b < a) ? b : a] *)
Definition min (a b : Q) : Q := if gt a b then b else a.

(** [static_cast<int>(x)]: truncation toward zero.  Outside the range of
    [int] the conversion is undefined in C++; the embedding yields [INT_MIN]
    there, as the x86 conversion instruction does. *)
Definition to_int (x : Q) : Z :=
  let z := Z.quot (Qnum x) (Zpos (Qden x)) in
  if ((-2147483648 <=? z) && (z <=? 2147483647))%Z then z else (-2147483648)%Z.

(** ** Rounding

    The result of an arithmetic operation on [double] or [float] is the
    exact result rounded to the nearest representable number, ties to even
    (IEEE 754, the default rounding mode).  Infinities and NaN are outside
    the embedding: a result beyond the largest finite number is not
    modelled. *)

(** The integer nearest to [a], ties to even. *)
Definition nearest (a : Q) : Z :=
  let n := Qfloor a in
  match (a - inject_Z n ?= 1 # 2)%Q with
  | Gt => (n + 1)%Z
  | Eq => if Z.even n then n else (n + 1)%Z
  | Lt => n
  end.

(** The [e] with [2^e <= x < 2^(e+1)], for [x > 0]. *)
Definition binade (x : Q) : Z :=
  let e := (Z.log2 (Qnum x) - Z.log2 (Zpos (Qden x)))%Z in
  if Qle_bool (2 ^ e) x then e else (e - 1)%Z.

(** The exponent [x] is represented with: that of its binade, and [emin]
    for the subnormal numbers. *)
Definition exponent (emin : Z) (x : Q) : Z :=
  Z.max (binade (Qabs (Qred x))) emin.

(** [x] rounded to [prec] significant bits. *)
Definition rounded (prec emin : Z) (x : Q) : Q :=
  let quantum := 2 ^ (exponent emin x - prec + 1) in
  Qred (inject_Z (nearest (x / quantum)) * quantum).

(** The [double] nearest to [x] *)
Definition binary64 : Q -> Q := rounded 53 (-1022).

(** The [float] nearest to [x] *)
Definition binary32 : Q -> Q := rounded 24 (-126).

(** The largest finite [double], [(2^53 - 1) * 2^971]. *)
Definition DBL_MAX : Q := inject_Z ((2 ^ 53 - 1) * 2 ^ 971).

End Cpp.

Arguments Cpp.rounded : simpl never.
Arguments Cpp.binary64 : simpl never.
Arguments Cpp.binary32 : simpl never.
Arguments Cpp.DBL_MAX : simpl never.

(* ------------------------------------------------------------------ *)
(** * Data model ([frame_data.hpp]) *)

Inductive SharpnessAlgorithm : Type :=
| FFT
| Laplacian.

Record VideoInfo : Type := mkVideoInfo {
  path : string;
  duration : Q;
  fps : Q;
  frameCount : Z;
  width : Z;
  height : Z
}.

(** [VideoInfo{}] *)
Definition VideoInfo_default : VideoInfo :=
  mkVideoInfo EmptyString 0 0 0%Z 0%Z 0%Z.

(** [VideoInfo::isValid] *)
Definition isValid (vi : VideoInfo) : bool :=
  Cpp.gt (fps vi) 0 && (0 <? frameCount vi)%Z.

Record AnalysisParams : Type := mkParams {
  intervalSec : Q;
  searchWindowSec : Q;
  searchStepSec : Q;
  sampleStepSec : Q;
  algorithm : SharpnessAlgorithm
}.

(** [getConfigPath] *)
Definition getConfigPath (videoPath : string) : string :=
  (videoPath ++ ".sharpctl")%string.

(** The properties [cv::VideoCapture::get] reports for an opened file, each a
    [double]. *)
Record CapProps : Type := mkCapProps {
  CAP_PROP_FPS : Q;
  CAP_PROP_FRAME_COUNT : Q;
  CAP_PROP_FRAME_WIDTH : Q;
  CAP_PROP_FRAME_HEIGHT : Q
}.

(** The analyzer's own state: whether [cap_] is open, [videoInfo_], and the
    cooperative cancellation flag [cancelled_]. *)
Record VideoAnalyzer : Type := mkAnalyzer {
  cap_isOpened : bool;
  videoInfo_ : VideoInfo;
  cancelled_ : bool
}.

Definition cancel (va : VideoAnalyzer) : VideoAnalyzer :=
  mkAnalyzer (cap_isOpened va) (videoInfo_ va) true.

Definition resetCancel (va : VideoAnalyzer) : VideoAnalyzer :=
  mkAnalyzer (cap_isOpened va) (videoInfo_ va) false.

Definition isCancelled (va : VideoAnalyzer) : bool := cancelled_ va.

(** ** Frames, as the engine produces them *)

Record FrameData (Mat : Type) : Type := mkFrame {
  time : Q;
  sharpness : Q;
  selected : bool;
  thumbnail : option Mat  (* [None]: an empty [cv::Mat] *)
}.

Arguments mkFrame {Mat}.
Arguments time {Mat}.
Arguments sharpness {Mat}.
Arguments selected {Mat}.
Arguments thumbnail {Mat}.

(** [FrameData{}] *)
Definition FrameData_default {Mat : Type} : FrameData Mat := mkFrame 0 0 false None.

(** [bestVar], [bestTime], [bestFrame] ([None]: still empty). *)
Record Best (Mat : Type) : Type := mkBest {
  bestVar : Q;
  bestTime : Q;
  bestFrame : option Mat
}.

Arguments mkBest {Mat}.
Arguments bestVar {Mat}.
Arguments bestTime {Mat}.
Arguments bestFrame {Mat}.

(** ** The exporter's shared state *)

(** The parallel region of [exportFrames] is observed through its shared
    state: the cancellation flag, the [failed] flag, the units that passed
    the check at the top of the loop body and have not finished yet, and the
    files written so far. *)
Record ExportState (Mat : Type) : Type := mkExport {
  x_cancelled : bool;
  x_failed : bool;
  x_inflight : list nat;
  x_files : list (string * Mat)
}.

Arguments mkExport {Mat}.
Arguments x_cancelled {Mat}.
Arguments x_failed {Mat}.
Arguments x_inflight {Mat}.
Arguments x_files {Mat}.

(** What can happen during the region: unit [i] starts (it reads both flags),
    unit [i] decodes and writes its image, another thread calls
    [cancel()]. *)
Inductive Event : Type :=
| Start (i : nat)
| Write (i : nat)
| CancelRequest.

(** ** The persisted document and the application state *)

(** The stored document: [cv::FileStorage] nodes, a missing node being
    [None].  Numbers are taken to be written and read back exactly. *)
Record ConfigParams : Type := mkConfigParams {
  interval_sec : Q;
  search_window_sec : Q;
  search_step_sec : Q;
  sample_step_sec : Q;
  algorithm_tag : string
}.

Record ConfigDoc : Type := mkDoc {
  doc_version : option Z;
  doc_params : option ConfigParams;
  doc_samples : option (list (Q * Q));
  doc_selected_frames : option (list (Q * Q))
}.

(** The files next to the videos, by path. *)
Definition Disk : Type := string -> option ConfigDoc.

Definition store (d : Disk) (p : string) (doc : ConfigDoc) : Disk :=
  fun q => if String.eqb q p then Some doc else d q.

Record App (Mat : Type) : Type := mkApp {
  analyzer_ : VideoAnalyzer;
  app_videoInfo_ : VideoInfo;
  params_ : AnalysisParams;
  allSamples_ : list (FrameData Mat);
  selectedFrames_ : list (FrameData Mat);
  configDirty_ : bool;
  statusText_ : string
}.

Arguments mkApp {Mat}.
Arguments analyzer_ {Mat}.
Arguments app_videoInfo_ {Mat}.
Arguments params_ {Mat}.
Arguments allSamples_ {Mat}.
Arguments selectedFrames_ {Mat}.
Arguments configDirty_ {Mat}.
Arguments statusText_ {Mat}.

(* ------------------------------------------------------------------ *)
(** * Opening a video *)

Section Open.

(** [cv::VideoCapture::open]: [None] when the file cannot be opened. *)
Variable capOpen : string -> option CapProps.

(** [VideoAnalyzer::openVideo]: the returned flag and the analyzer after the
    call. *)
Definition openVideo (va : VideoAnalyzer) (p : string) : bool * VideoAnalyzer :=
  match capOpen p with
  | None => (false, mkAnalyzer false VideoInfo_default (cancelled_ va))
  | Some props =>
      let fps_ := CAP_PROP_FPS props in
      let frameCount_ := Cpp.to_int (CAP_PROP_FRAME_COUNT props) in
      let duration_ :=
        if Cpp.gt fps_ 0 && (0 <? frameCount_)%Z
        then Cpp.binary64 (inject_Z frameCount_ / fps_)
        else 0 in
      (true,
       mkAnalyzer true
         (mkVideoInfo p duration_ fps_ frameCount_
            (Cpp.to_int (CAP_PROP_FRAME_WIDTH props))
            (Cpp.to_int (CAP_PROP_FRAME_HEIGHT props)))
         (cancelled_ va))
  end.

(** [VideoAnalyzer::closeVideo] *)
Definition closeVideo (va : VideoAnalyzer) : VideoAnalyzer :=
  mkAnalyzer false VideoInfo_default (cancelled_ va).

End Open.

(* ------------------------------------------------------------------ *)
(** * Time grids *)

(** [for (double t = t0; t <= duration; t += step) times.push_back(t);] *)
Fixpoint gridTimes (fuel : nat) (t duration_ step : Q) : option (list Q) :=
  match fuel with
  | O => None
  | S fuel' =>
      if Cpp.le t duration_
      then option_map (cons t) (gridTimes fuel' (t + step) duration_ step)
      else Some []
  end.

(** [for (double t = t0; t <= duration; t += step) times.push_back(t);]
    with the addition rounded to [double]. *)
Fixpoint gridTimes64 (fuel : nat) (t duration_ step : Q) : option (list Q) :=
  match fuel with
  | O => None
  | S fuel' =>
      if Cpp.le t duration_
      then option_map (cons t)
             (gridTimes64 fuel' (Cpp.binary64 (t + step)) duration_ step)
      else Some []
  end.

(** Fuel that lets a loop from [lo] to [hi] by [step > 0] run to its end. *)
Definition loopFuel (lo hi step : Q) : nat :=
  S (S (Z.to_nat (Qfloor ((hi - lo) / step)))).

(** Iterations left in a loop at [t] bounded by [hi]. *)
Definition itersLeft (t hi step : Q) : nat :=
  Z.to_nat (Qfloor ((hi - t) / step) + 1).

(* ------------------------------------------------------------------ *)
(** * [std::snprintf] conversions used for the export file names *)

Module Printf.

Open Scope string_scope.

Definition digits (n : Z) : string := NilZero.string_of_uint (N.to_uint (Z.to_N n)).

Fixpoint zeros (k : nat) : string :=
  match k with
  | O => ""
  | S k' => String "0" (zeros k')
  end.

(** Left padding with ['0'] up to a minimal field width. *)
Definition pad0 (w : nat) (s : string) : string := zeros (w - String.length s) ++ s.

(** [%04zu] *)
Definition zu04 (n : nat) : string := pad0 4 (digits (Z.of_nat n)).

(** The integer nearest to [a >= 0], ties to even. *)
Definition roundHalfEven (a : Q) : Z :=
  let n := Qfloor a in
  match (a - inject_Z n ?= 1 # 2)%Q with
  | Gt => (n + 1)%Z
  | Eq => if Z.even n then n else (n + 1)%Z
  | Lt => n
  end.

(** [%.<prec>f] of the exact value [x]. *)
Definition f (prec : nat) (x : Q) : string :=
  let scale := (10 ^ Z.of_nat prec)%Z in
  let r := roundHalfEven (Qabs x * inject_Z scale) in
  (if Cpp.gt 0 x then "-" else "") ++
  digits (r / scale) ++
  match prec with
  | O => ""
  | _ => "." ++ pad0 prec (digits (r mod scale))
  end.

End Printf.

(* ------------------------------------------------------------------ *)
(** * Cooperative cancellation as seen by one run

    A run clears [cancelled_] when it starts; afterwards only [cancel()]
    calls from other threads can set it.  [requested env i j] tells whether
    such a call happened before the [j]-th read of the flag made by the unit
    of work with index [i] (read 0 is the check at the top of the unit), and
    [requestedAtEnd env] whether one happened before the reads that follow
    the parallel region.  Units only write their own result slot, so the
    slots of a run are determined by these reads, whatever the thread
    schedule. *)

Record CancelEnv : Type := mkEnv {
  requested : nat -> nat -> bool;
  requestedAtEnd : bool
}.

(** No [cancel()] call during the run. *)
Definition quiet : CancelEnv := mkEnv (fun _ _ => false) false.

(** The flag only goes up during a run. *)
Definition monotone (env : CancelEnv) : Prop :=
  (forall i j, requested env i j = true -> requested env i (S j) = true) /\
  (forall i j, requested env i j = true -> requestedAtEnd env = true).

(** [isCancelled()] as read by unit [i] at its [j]-th read. *)
Definition flagRead (va : VideoAnalyzer) (env : CancelEnv) (i j : nat) : bool :=
  isCancelled va || requested env i j.

(** The analyzer when the parallel region is over. *)
Definition atEnd (va : VideoAnalyzer) (env : CancelEnv) : VideoAnalyzer :=
  if requestedAtEnd env then cancel va else va.

(** [results[i] = unit(i, times[i])] for every index, as the
    [#pragma omp for] loop fills the pre-sized buffer. *)
Fixpoint forUnits {A B : Type} (unit : nat -> A -> option B) (i : nat) (l : list A)
  : option (list B) :=
  match l with
  | [] => Some []
  | a :: l' =>
      match unit i a, forUnits unit (S i) l' with
      | Some b, Some bs => Some (b :: bs)
      | _, _ => None
      end
  end.

(** The tolerance [1e-9] in the guard of the scan loop. *)
Definition eps : Q := 1 # 1000000000.

(** The literal [1e-9]: the [double] nearest to it. *)
Definition eps64 : Q := Cpp.binary64 (1 # 1000000000).

(** Every unit either sees the request when it starts or never sees it. *)
Definition atUnitBoundaries (env : CancelEnv) : Prop :=
  forall i, requested env i 0 = true \/ forall j, requested env i j = false.

(* ------------------------------------------------------------------ *)
(** * Performance history ([PerfStats], [App::updatePerfStats]) *)

(** [PerfStats::HISTORY_SIZE] *)
Definition HISTORY_SIZE : nat := 120.

Record PerfStats : Type := mkPerf {
  cpuHistory : list Q;
  gpuHistory : list Q;
  historyIndex : nat;
  currentCpu : Q;
  currentGpu : Q;
  prevIdleTime : Z;
  prevTotalTime : Z
}.

(** [PerfStats{}]: both arrays zero-initialised. *)
Definition PerfStats_default : PerfStats :=
  mkPerf (repeat 0 HISTORY_SIZE) (repeat 0 HISTORY_SIZE) 0 0 0 0 0.

(** The counters of the first line of [/proc/stat]. *)
Record CpuLine : Type := mkCpuLine {
  cpu_user : Z;
  cpu_nice : Z;
  cpu_system : Z;
  cpu_idle : Z;
  cpu_iowait : Z;
  cpu_irq : Z;
  cpu_softirq : Z;
  cpu_steal : Z
}.

(** [a[i] = v] on an array held as a list (no effect out of range, where
    the source's access is undefined). *)
Fixpoint assign (i : nat) (v : Q) (a : list Q) : list Q :=
  match a, i with
  | [], _ => []
  | _ :: rest, O => v :: rest
  | x :: rest, S i' => x :: assign i' v rest
  end.

(** [App::updatePerfStats]: [stat] is the line read from [/proc/stat] when
    the file opens, [card0] and [card1] the busy percentages read from the
    two sysfs files when they open.  The load is computed in [float]: the
    two conversions, the division, the subtraction and the product are each
    rounded to single precision. *)
Definition updatePerfStats (stat : option CpuLine) (card0 card1 : option Z)
  (ps : PerfStats) : PerfStats :=
  let '(cpu, prevIdle, prevTotal) :=
    match stat with
    | Some s =>
        let idleTime := (cpu_idle s + cpu_iowait s)%Z in
        let totalTime :=
          (cpu_user s + cpu_nice s + cpu_system s + cpu_idle s + cpu_iowait s +
           cpu_irq s + cpu_softirq s + cpu_steal s)%Z in
        let cpu :=
          if (0 <? prevTotalTime ps)%Z then
            let totalDelta := (totalTime - prevTotalTime ps)%Z in
            let idleDelta := (idleTime - prevIdleTime ps)%Z in
            if (0 <? totalDelta)%Z
            then Cpp.binary32
                   (100 * Cpp.binary32
                            (1 - Cpp.binary32 (Cpp.binary32 (inject_Z idleDelta) /
                                               Cpp.binary32 (inject_Z totalDelta))))
            else currentCpu ps
          else currentCpu ps in
        (cpu, idleTime, totalTime)
    | None => (currentCpu ps, prevIdleTime ps, prevTotalTime ps)
    end in
  let gpu :=
    match card0 with
    | Some p => Cpp.binary32 (inject_Z p)
    | None =>
        match card1 with
        | Some p => Cpp.binary32 (inject_Z p)
        | None => 0
        end
    end in
  mkPerf (assign (historyIndex ps) cpu (cpuHistory ps))
         (assign (historyIndex ps) gpu (gpuHistory ps))
         ((historyIndex ps + 1) mod HISTORY_SIZE)
         cpu gpu prevIdle prevTotal.

(** The copy loop of the control panel, "oldest to newest":
    [for (i = 0; i < n; i++) { plot[i] = history[idx]; idx = (idx + 1) % HISTORY_SIZE; }] *)
Fixpoint copyHistory (n idx : nat) (history : list Q) : list Q :=
  match n with
  | O => []
  | S n' => nth idx history 0 :: copyHistory n' ((idx + 1) mod HISTORY_SIZE) history
  end.

Definition cpuPlot (ps : PerfStats) : list Q :=
  copyHistory HISTORY_SIZE (historyIndex ps) (cpuHistory ps).

Definition gpuPlot (ps : PerfStats) : list Q :=
  copyHistory HISTORY_SIZE (historyIndex ps) (gpuHistory ps).

(* ------------------------------------------------------------------ *)
(** * Panel arithmetic *)

(** The time display of the preview panel: [mins], [secs], [msecs] of
    ["%d:%02d.%03d"]. *)
Definition timeDisplay (hoveredTime : Q) : Z * Z * Z :=
  let whole := Cpp.to_int hoveredTime in
  (Z.quot whole 60, Z.rem whole 60,
   Cpp.to_int ((hoveredTime - inject_Z whole) * 1000)).

(** The clamp of the hovered time in the timeline panel:
    [std::max(0.0, std::min(hoveredTime, videoInfo.duration))]. *)
Definition clampHover (hoveredTime duration_ : Q) : Q :=
  Cpp.max 0 (Cpp.min hoveredTime duration_).

(* ------------------------------------------------------------------ *)
(** * Command line ([main.cpp]) *)

(** [parseAlgorithm] *)
Definition parseAlgorithm (name : string) : SharpnessAlgorithm :=
  if String.eqb name "laplacian" then Laplacian else FFT.

(** The flags and the remaining arguments collected by [runCli]. *)
Record CliArgs : Type := mkCliArgs {
  cli_showPlot : bool;
  cli_algorithm : SharpnessAlgorithm;
  cli_args : list string
}.

(** The flag loop of [runCli] over [argv[0 .. argc-1]]. *)
Fixpoint parseArgs (argv : list string) (acc : CliArgs) : CliArgs :=
  match argv with
  | [] => acc
  | a :: rest =>
      parseArgs rest
        (if String.eqb a "--plot"
         then mkCliArgs true (cli_algorithm acc) (cli_args acc)
         else if String.prefix "--algorithm=" a
         then mkCliArgs (cli_showPlot acc)
                (parseAlgorithm (String.substring 12 (String.length a - 12) a))
                (cli_args acc)
         else if negb (String.eqb a "--cli")
         then mkCliArgs (cli_showPlot acc) (cli_algorithm acc) (cli_args acc ++ [a])
         else acc)
  end.

(** How [runCli] ends: a return code, or the uncaught exception of
    [std::stod] on an argument that is not a number. *)
Inductive Exit : Type :=
| ExitCode (code : Z)
| Terminated.

(** The mode chosen by [main] ([argv] includes the program name). *)
Definition cliMode (argv : list string) : bool :=
  existsb (fun a => String.eqb a "--cli") (tl argv) ||
  ((4 <=? List.length argv)%nat &&
   match nth_error argv 1 with
   | Some (String c _) => negb (Ascii.eqb c "-")
   | _ => true
   end).

(** What [main] hands the process to: the GUI session of [runGui], which is
    outside the embedding, or [runCli], with what it returns. *)
Inductive Launch (A : Type) : Type :=
| RunGui
| RunCli (result : A).

Arguments RunGui {A}.
Arguments RunCli {A} result.

(* ------------------------------------------------------------------ *)
(** * A test bench: concrete collaborators and inputs for the examples *)

Module Bench.

(** A decoded picture: its size and the score both kernels give it. *)
Record Pic : Type := mkPic {
  pic_rows : Z;
  pic_cols : Z;
  pic_score : Q
}.

Definition score (m : Pic) (_ : SharpnessAlgorithm) : Q := pic_score m.

Definition resize (m : Pic) (w h : Z) : Pic := mkPic h w (pic_score m).

Definition imwrite (_ _ : string) (_ : Pic) : bool := true.

(** An opened clip of the given duration at 25 frames per second. *)
Definition clip (D : Q) : VideoAnalyzer :=
  mkAnalyzer true
    (mkVideoInfo "clip.mp4" D 25 (Cpp.to_int (D * 25)) 1920 1080) false.

(** Every position decodes; the score is the position in seconds. *)
Definition ramp (_ : string) (msec : Q) : option Pic :=
  Some (mkPic 1080 1920 (msec / 1000)).

(** Frames can be read at 1.6 s, 2.0 s and 2.4 s only, with scores 12, 12
    and 9. *)
Definition sparse (_ : string) (msec : Q) : option Pic :=
  if Qeq_bool msec 1600 then Some (mkPic 1080 1920 12)
  else if Qeq_bool msec 2000 then Some (mkPic 1080 1920 12)
  else if Qeq_bool msec 2400 then Some (mkPic 1080 1920 9)
  else None.

Definition params (interval window step sample : Q) : AnalysisParams :=
  mkParams interval window step sample Laplacian.

(** The disk refuses the first export file and accepts every other one. *)
Definition imwrite_refusing_first (_ name : string) (_ : Pic) : bool :=
  negb (String.eqb name "frame_0000_t1.600_var12.00.jpg").

(** Two selected entries around one that is not selected. *)
Definition picks : list (FrameData Pic) :=
  [mkFrame (16 # 10) 12 true None; mkFrame 2 12 false None;
   mkFrame (24 # 10) 9 true None].

(** Two workers: both units start, then each writes. *)
Definition twoWorkers : list Event := [Start 0; Start 1; Write 0; Write 1].

(** An application showing the 10 s clip, with one entry switched off. *)
Definition app : App Pic :=
  mkApp (clip 10) (videoInfo_ (clip 10)) (params 3 (1 # 2) (1 # 50) (1 # 10))
    [] [mkFrame 1 5 false None; mkFrame 2 7 true None] true "".

Definition emptyDisk : Disk := fun _ => None.

(** A window half-width and a scan step, both binary fractions with 24
    significant bits, such that three steps overshoot the half-width by
    2^-33 s: [3 * 2^-10 + 2^-32] and [2^-10 + 2^-33]. *)
Definition tightWindow : Q := 12582913 # 4294967296.
Definition tightStep : Q := 8388609 # 8589934592.

(** The request arrives after the first scan step of every unit. *)
Definition afterFirstStep : CancelEnv := mkEnv (fun _ j => (2 <=? j)%nat) true.

(** The request arrives when units 0, 1 and 2 have passed their check. *)
Definition afterThreeUnits : CancelEnv := mkEnv (fun i _ => (3 <=? i)%nat) true.

(** Targets every 2 s, half-width 0.5 s, scan step 0.1 s. *)
Definition example : AnalysisParams := params 2 (1 # 2) (1 # 10) 2.

(** Every position decodes, always with score 7. *)
Definition flat (_ : string) (_ : Q) : option Pic := Some (mkPic 1080 1920 7).

(** Targets every second, with the tight half-width and step. *)
Definition tight : AnalysisParams := params 1 tightWindow tightStep 1.

(** The one file the bench can open: 250 frames at 25 frames per second. *)
Definition capOpen (p : string) : option CapProps :=
  if String.eqb p "clip.mp4" then Some (mkCapProps 25 250 1920 1080) else None.

(** A stream that opens but reports no frame count. *)
Definition liveOpen (_ : string) : option CapProps :=
  Some (mkCapProps 25 0 1920 1080).

(** [std::stod] on the numerals the examples use. *)
Definition stod (s : string) : option Q :=
  if String.eqb s "2" then Some 2
  else if String.eqb s "0.5" then Some (1 # 2)
  else if String.eqb s "0.25" then Some (1 # 4)
  else if String.eqb s "0" then Some 0
  else if String.eqb s "-1" then Some (-1)
  else None.

(** These numerals are binary fractions, which the conversion to [float]
    keeps. *)
Definition toFloat (x : Q) : Q := x.

Definition createDirectories (_ : string) : bool := true.

End Bench.

(* ------------------------------------------------------------------ *)
(** * The loops on binary64 numbers

    The same two loops on IEEE 754 binary64 values, to replay examples on
    the numbers the program computes with (no cancellation, no decoding:
    only the positions matter). *)

Module Binary64.

(** [for (double t = t0; t <= duration; t += step) times.push_back(t);] *)
Fixpoint gridTimes (fuel : nat) (t duration_ step : float) : option (list float) :=
  match fuel with
  | O => None
  | S fuel' =>
      if PrimFloat.leb t duration_
      then option_map (cons t) (gridTimes fuel' (PrimFloat.add t step) duration_ step)
      else Some []
  end.

(** The literal [1e-9]: the binary64 value nearest to it. *)
Definition eps : float := 0x1.12e0be826d695p-30%float.

(** The positions visited by
    [for (double ts = startT; ts <= endT + 1e-9; ts += step)]. *)
Fixpoint scanned (fuel : nat) (endT step ts : float) : option (list float) :=
  match fuel with
  | O => None
  | S fuel' =>
      if PrimFloat.leb ts (PrimFloat.add endT eps)
      then option_map (cons ts) (scanned fuel' endT step (PrimFloat.add ts step))
      else Some []
  end.

(** [std::max(a, b)] and [std::min(a, b)] *)
Definition max (a b : float) : float := if PrimFloat.ltb a b then b else a.
Definition min (a b : float) : float := if PrimFloat.ltb b a then b else a.

(** The rational a finite binary64 value stands for. *)
Definition exact (x : float) : option Q :=
  match Prim2SF x with
  | S754_zero _ => Some 0
  | S754_finite s m e =>
      Some ((if s then - inject_Z (Zpos m) else inject_Z (Zpos m)) * (2 ^ e))
  | _ => None
  end.

(** The tight half-width and step of the bench, as [float] values widened
    to [double]. *)
Definition tightWindow : float := 0x1.800002p-9%float.
Definition tightStep : float := 0x1.000002p-10%float.

End Binary64.

(* ------------------------------------------------------------------ *)
(** * The engine *)

Section Analysis.

(** A decoded, non-empty [cv::Mat]. *)
Variable Mat : Type.
Variable Mat_rows Mat_cols : Mat -> Z.

(** [VideoAnalyzer::calculateSharpness] *)
Variable calculateSharpness : Mat -> SharpnessAlgorithm -> Q.

(** A worker's [localCap.set(cv::CAP_PROP_POS_MSEC, msec)] followed by
    [localCap.read(frame)] on the video at the given path; [None] when the
    read returns false. *)
Variable capRead : string -> Q -> option Mat.

(** [cv::resize(src, dst, cv::Size(w, h))]; the result is taken to be a
    non-empty raster. *)
Variable resize : Mat -> Z -> Z -> Mat.

(** [localCap.set(cv::CAP_PROP_POS_MSEC, t * 1000.0); localCap.read(frame)]
    on a worker's own capture of the analyzer's video. *)
Definition seekRead (va : VideoAnalyzer) (t : Q) : option Mat :=
  capRead (path (videoInfo_ va)) (t * 1000).

(** ** Full-scan sampler *)

(** One iteration of the parallel loop of [analyzeFullVideo]. *)
Definition sampleUnit (va : VideoAnalyzer) (env : CancelEnv) (params : AnalysisParams)
  (i : nat) (t : Q) : FrameData Mat :=
  if flagRead va env i 0 then FrameData_default
  else
    match seekRead va t with
    | Some frame =>
        mkFrame t (calculateSharpness frame (algorithm params)) false None
    | None => mkFrame 0 (-1) false None
    end.

(** The buffer [results] of [analyzeFullVideo] once the parallel region is
    over. *)
Definition sampleSlots (fuel : nat) (va : VideoAnalyzer) (env : CancelEnv)
  (params : AnalysisParams) : option (list (FrameData Mat)) :=
  match gridTimes fuel 0 (duration (videoInfo_ va)) (sampleStepSec params) with
  | None => None
  | Some sampleTimes =>
      forUnits (fun i t => Some (sampleUnit va env params i t)) 0 sampleTimes
  end.

(** [VideoAnalyzer::analyzeFullVideo]: the returned flag, [outSamples] and
    the analyzer after the call. *)
Definition analyzeFullVideo (fuel : nat) (va : VideoAnalyzer) (env : CancelEnv)
  (params : AnalysisParams) (outSamples : list (FrameData Mat))
  : option (bool * list (FrameData Mat) * VideoAnalyzer) :=
  if negb (cap_isOpened va) then Some (false, outSamples, va)
  else
    let va := resetCancel va in
    if Cpp.le (duration (videoInfo_ va)) 0 then Some (false, [], va)
    else
      match sampleSlots fuel va env params with
      | None => None
      | Some results =>
          let out := filter (fun r => Cpp.ge (sharpness r) 0) results in
          let va := atEnd va env in
          Some (negb (isCancelled va), out, va)
      end.

(** ** Windowed optimizer *)

(** The body of the inner scan loop at position [ts]. *)
Definition retain (va : VideoAnalyzer) (params : AnalysisParams) (best : Best Mat) (ts : Q)
  : Best Mat :=
  match seekRead va ts with
  | Some frame =>
      let v := calculateSharpness frame (algorithm params) in
      if Cpp.gt v (bestVar best) then mkBest v ts (Some frame) else best
  | None => best
  end.

(** [for (double ts = startT; ts <= endT + 1e-9 && !isCancelled(); ts += step)]
    run by unit [i], whose next read of the flag is its [j]-th. *)
Fixpoint scanWindow (fuel : nat) (va : VideoAnalyzer) (env : CancelEnv)
  (params : AnalysisParams) (i j : nat) (endT step ts : Q) (best : Best Mat)
  : option (Best Mat) :=
  match fuel with
  | O => None
  | S fuel' =>
      if Cpp.le ts (endT + eps) && negb (flagRead va env i j)
      then scanWindow fuel' va env params i (S j) endT step (ts + step)
             (retain va params best ts)
      else Some best
  end.

(** What a unit stores in its slot after the scan. *)
Definition emit (best : Best Mat) : FrameData Mat :=
  match bestFrame best with
  | Some frame =>
      let thumbHeight := 120%Z in
      let thumbWidth := Z.quot (thumbHeight * Mat_cols frame) (Mat_rows frame) in
      mkFrame (bestTime best) (bestVar best) true
        (Some (resize frame thumbWidth thumbHeight))
  | None => FrameData_default
  end.

Definition startOf (params : AnalysisParams) (targetT : Q) : Q :=
  Cpp.max 0 (targetT - searchWindowSec params).

Definition endOf (va : VideoAnalyzer) (params : AnalysisParams) (targetT : Q) : Q :=
  Cpp.min (duration (videoInfo_ va)) (targetT + searchWindowSec params).

(** One iteration of the parallel loop of [findOptimalFrames]. *)
Definition searchUnit (fuel : nat) (va : VideoAnalyzer) (env : CancelEnv)
  (params : AnalysisParams) (i : nat) (targetT : Q) : option (FrameData Mat) :=
  if flagRead va env i 0 then Some FrameData_default
  else
    option_map emit
      (scanWindow fuel va env params i 1 (endOf va params targetT)
         (searchStepSec params) (startOf params targetT)
         (mkBest (-1) targetT None)).

(** The buffer [results] of [findOptimalFrames] once the parallel region is
    over. *)
Definition searchSlots (fuel : nat) (va : VideoAnalyzer) (env : CancelEnv)
  (params : AnalysisParams) : option (list (FrameData Mat)) :=
  match gridTimes fuel 0 (duration (videoInfo_ va)) (intervalSec params) with
  | None => None
  | Some targetTimes => forUnits (searchUnit fuel va env params) 0 targetTimes
  end.

Definition hasThumbnail (r : FrameData Mat) : bool :=
  match thumbnail r with Some _ => true | None => false end.

(** [VideoAnalyzer::findOptimalFrames]: the returned flag, [outSelected] and
    the analyzer after the call ([allSamples] is not read by the source). *)
Definition findOptimalFrames (fuel : nat) (va : VideoAnalyzer) (env : CancelEnv)
  (params : AnalysisParams) (allSamples outSelected : list (FrameData Mat))
  : option (bool * list (FrameData Mat) * VideoAnalyzer) :=
  if negb (cap_isOpened va) then Some (false, outSelected, va)
  else
    let va := resetCancel va in
    if Cpp.le (duration (videoInfo_ va)) 0 then Some (false, [], va)
    else
      match searchSlots fuel va env params with
      | None => None
      | Some results =>
          let out := filter hasThumbnail results in
          let va := atEnd va env in
          Some (negb (isCancelled va), out, va)
      end.

(** The positions the inner scan visits (same guard as [scanWindow]). *)
Fixpoint scanned (fuel : nat) (va : VideoAnalyzer) (env : CancelEnv)
  (i j : nat) (endT step ts : Q) : option (list Q) :=
  match fuel with
  | O => None
  | S fuel' =>
      if Cpp.le ts (endT + eps) && negb (flagRead va env i j)
      then option_map (cons ts) (scanned fuel' va env i (S j) endT step (ts + step))
      else Some []
  end.

(** [VideoAnalyzer::getFrameAt] on the analyzer's own capture. *)
Definition getFrameAt (va : VideoAnalyzer) (timeSec : Q) : option Mat :=
  if negb (cap_isOpened va) then None
  else capRead (path (videoInfo_ va)) (timeSec * 1000).

(** ** Exporter *)

(** The [toExport] vector: the selected entries, each with
    [toExport.size()] at the time it is appended. *)
Fixpoint collect (frames : list (FrameData Mat))
  (toExport : list (nat * FrameData Mat)) : list (nat * FrameData Mat) :=
  match frames with
  | [] => toExport
  | fd :: rest =>
      if selected fd
      then collect rest (toExport ++ [(List.length toExport, fd)])
      else collect rest toExport
  end.

(** ["frame_%04zu_t%.3f_var%.2f.jpg"] *)
Definition filename (index : nat) (fd : FrameData Mat) : string :=
  ("frame_" ++ Printf.zu04 index ++ "_t" ++ Printf.f 3 (time fd) ++
   "_var" ++ Printf.f 2 (sharpness fd) ++ ".jpg")%string.

(** [cv::imwrite] into the output directory: directory, file name, image. *)
Variable imwrite : string -> string -> Mat -> bool.

Definition remove_nat (i : nat) (l : list nat) : list nat :=
  filter (fun k => negb (Nat.eqb k i)) l.

Definition exportStep (va : VideoAnalyzer) (outputDir : string)
  (toExport : list (nat * FrameData Mat)) (st : ExportState Mat) (e : Event)
  : ExportState Mat :=
  match e with
  | CancelRequest => mkExport true (x_failed st) (x_inflight st) (x_files st)
  | Start i =>
      if (List.length toExport <=? i)%nat then st
      else if x_cancelled st || x_failed st then st
      else mkExport (x_cancelled st) (x_failed st) (i :: x_inflight st) (x_files st)
  | Write i =>
      if existsb (Nat.eqb i) (x_inflight st) then
        let rest := remove_nat i (x_inflight st) in
        match nth_error toExport i with
        | Some (index, fd) =>
            match seekRead va (time fd) with
            | Some frame =>
                if imwrite outputDir (filename index fd) frame
                then mkExport (x_cancelled st) (x_failed st) rest
                       (x_files st ++ [(filename index fd, frame)])
                else mkExport (x_cancelled st) true rest (x_files st)
            | None => mkExport (x_cancelled st) (x_failed st) rest (x_files st)
            end
        | None => mkExport (x_cancelled st) (x_failed st) rest (x_files st)
        end
      else st
  end.

Definition exportRun (va : VideoAnalyzer) (outputDir : string)
  (toExport : list (nat * FrameData Mat)) (st : ExportState Mat)
  (schedule : list Event) : ExportState Mat :=
  fold_left (exportStep va outputDir toExport) schedule st.

(** The shared state when the parallel region of [exportFrames] is over. *)
Definition exportRegion (va : VideoAnalyzer) (schedule : list Event)
  (frames : list (FrameData Mat)) (outputDir : string) : ExportState Mat :=
  exportRun va outputDir (collect frames [])
    (mkExport (isCancelled va) false [] []) schedule.

(** [VideoAnalyzer::exportFrames] under a schedule of the parallel region:
    the returned flag, the files written and the analyzer after the call. *)
Definition exportFrames (va : VideoAnalyzer) (schedule : list Event)
  (frames : list (FrameData Mat)) (outputDir : string)
  : bool * list (string * Mat) * VideoAnalyzer :=
  if negb (cap_isOpened va) then (false, [], va)
  else
    let va := resetCancel va in
    let st := exportRegion va schedule frames outputDir in
    let va := if x_cancelled st then cancel va else va in
    if x_failed st then (false, x_files st, va)
    else (negb (isCancelled va), x_files st, va).

(** What a unit leaves in the output directory when its write is accepted:
    nothing if its frame cannot be read. *)
Definition unitFiles (va : VideoAnalyzer) (entry : nat * FrameData Mat)
  : list (string * Mat) :=
  match seekRead va (time (snd entry)) with
  | Some frame => [(filename (fst entry) (snd entry), frame)]
  | None => []
  end.

(** The schedule of a single worker thread that is never cancelled. *)
Definition sequential (n : nat) : list Event :=
  flat_map (fun i => [Start i; Write i]) (seq 0 n).

(** ** Persistence of the selection ([App::saveConfig], [App::loadConfig]) *)

Definition pairOf (fd : FrameData Mat) : Q * Q := (time fd, sharpness fd).

Definition isEmptyString (s : string) : bool :=
  match s with EmptyString => true | _ => false end.

(** [App::saveConfig]; [writable p] tells whether the storage at [p] can be
    opened for writing. *)
Definition saveConfig (writable : string -> bool) (app : App Mat) (disk : Disk)
  : bool * App Mat * Disk :=
  if isEmptyString (path (app_videoInfo_ app)) then (false, app, disk)
  else
    let configPath := getConfigPath (path (app_videoInfo_ app)) in
    if negb (writable configPath) then (false, app, disk)
    else
      let p := params_ app in
      let doc :=
        mkDoc (Some 1%Z)
          (Some (mkConfigParams (intervalSec p) (searchWindowSec p)
                   (searchStepSec p) (sampleStepSec p)
                   (match algorithm p with FFT => "FFT" | Laplacian => "Laplacian" end)))
          (Some (map pairOf (allSamples_ app)))
          (Some (map pairOf (filter selected (selectedFrames_ app)))) in
      (true,
       mkApp (analyzer_ app) (app_videoInfo_ app) (params_ app) (allSamples_ app)
         (selectedFrames_ app) false
         ("Config saved: " ++ configPath)%string,
       store disk configPath doc).

(** One entry of [selected_frames] as [loadConfig] rebuilds it. *)
Definition loadFrame (va : VideoAnalyzer) (fn : Q * Q) : FrameData Mat :=
  mkFrame (fst fn) (snd fn) true
    (match getFrameAt va (fst fn) with
     | Some frame =>
         let thumbHeight := 120%Z in
         let thumbWidth := Z.quot (thumbHeight * Mat_cols frame) (Mat_rows frame) in
         Some (resize frame thumbWidth thumbHeight)
     | None => None
     end).

(** [App::loadConfig] *)
Definition loadConfig (app : App Mat) (disk : Disk) : bool * App Mat :=
  if isEmptyString (path (app_videoInfo_ app)) then (false, app)
  else
    match disk (getConfigPath (path (app_videoInfo_ app))) with
    | None => (false, app)
    | Some doc =>
        let version := match doc_version doc with Some v => v | None => 0%Z end in
        if (version <? 1)%Z then (false, app)
        else
          let params' :=
            match doc_params doc with
            | Some c =>
                mkParams (interval_sec c) (search_window_sec c) (search_step_sec c)
                  (sample_step_sec c)
                  (if String.eqb (algorithm_tag c) "FFT" then FFT else Laplacian)
            | None => params_ app
            end in
          let samples' :=
            match doc_samples doc with
            | Some l => map (fun sn => mkFrame (fst sn) (snd sn) false None) l
            | None => allSamples_ app
            end in
          let frames' :=
            match doc_selected_frames doc with
            | Some l => map (loadFrame (analyzer_ app)) l
            | None => []
            end in
          (true,
           mkApp (analyzer_ app) (app_videoInfo_ app) params' samples' frames' false
             (statusText_ app))
    end.

(** The positions scanned for target [targetT] by unit [i]. *)
Definition scannedFor (fuel : nat) (va : VideoAnalyzer) (env : CancelEnv)
  (params : AnalysisParams) (i : nat) (targetT : Q) : option (list Q) :=
  scanned fuel va env i 1 (endOf va params targetT) (searchStepSec params)
    (startOf params targetT).

(** Fuel for a whole run of [findOptimalFrames]. *)
Definition searchFuel (va : VideoAnalyzer) (params : AnalysisParams) : nat :=
  Nat.max (loopFuel 0 (duration (videoInfo_ va)) (intervalSec params))
          (loopFuel 0 (duration (videoInfo_ va) + eps) (searchStepSec params)).

(** ** The windowed optimizer with the rounding of [double]

    [findOptimalFrames] once more, with every operation of the source on
    [double] rounded to binary64: [t += interval], [targetT - window],
    [targetT + window], [endT + 1e-9], [ts += step] and the seek position
    [ts * 1000.0].  The parameters are [float] values, which their
    conversion to [double] keeps, and the comparisons are exact.  What is
    claimed of the values of the emitted times is stated on this
    embedding. *)

Definition seekRead64 (va : VideoAnalyzer) (t : Q) : option Mat :=
  capRead (path (videoInfo_ va)) (Cpp.binary64 (t * 1000)).

(** The body of the inner scan loop at position [ts]. *)
Definition retain64 (va : VideoAnalyzer) (params : AnalysisParams) (best : Best Mat)
  (ts : Q) : Best Mat :=
  match seekRead64 va ts with
  | Some frame =>
      let v := calculateSharpness frame (algorithm params) in
      if Cpp.gt v (bestVar best) then mkBest v ts (Some frame) else best
  | None => best
  end.

(** [for (double ts = startT; ts <= endT + 1e-9 && !isCancelled(); ts += step)] *)
Fixpoint scanWindow64 (fuel : nat) (va : VideoAnalyzer) (env : CancelEnv)
  (params : AnalysisParams) (i j : nat) (endT step ts : Q) (best : Best Mat)
  : option (Best Mat) :=
  match fuel with
  | O => None
  | S fuel' =>
      if Cpp.le ts (Cpp.binary64 (endT + eps64)) && negb (flagRead va env i j)
      then scanWindow64 fuel' va env params i (S j) endT step
             (Cpp.binary64 (ts + step)) (retain64 va params best ts)
      else Some best
  end.

(** [std::max(0.0, targetT - window)] *)
Definition startOf64 (params : AnalysisParams) (targetT : Q) : Q :=
  Cpp.max 0 (Cpp.binary64 (targetT - searchWindowSec params)).

(** [std::min(duration, targetT + window)] *)
Definition endOf64 (va : VideoAnalyzer) (params : AnalysisParams) (targetT : Q) : Q :=
  Cpp.min (duration (videoInfo_ va)) (Cpp.binary64 (targetT + searchWindowSec params)).

(** One iteration of the parallel loop of [findOptimalFrames]. *)
Definition searchUnit64 (fuel : nat) (va : VideoAnalyzer) (env : CancelEnv)
  (params : AnalysisParams) (i : nat) (targetT : Q) : option (FrameData Mat) :=
  if flagRead va env i 0 then Some FrameData_default
  else
    option_map emit
      (scanWindow64 fuel va env params i 1 (endOf64 va params targetT)
         (searchStepSec params) (startOf64 params targetT)
         (mkBest (-1) targetT None)).

(** The buffer [results] once the parallel region is over. *)
Definition searchSlots64 (fuel : nat) (va : VideoAnalyzer) (env : CancelEnv)
  (params : AnalysisParams) : option (list (FrameData Mat)) :=
  match gridTimes64 fuel 0 (duration (videoInfo_ va)) (intervalSec params) with
  | None => None
  | Some targetTimes => forUnits (searchUnit64 fuel va env params) 0 targetTimes
  end.

(** [VideoAnalyzer::findOptimalFrames]: the returned flag, [outSelected] and
    the analyzer after the call. *)
Definition findOptimalFrames64 (fuel : nat) (va : VideoAnalyzer) (env : CancelEnv)
  (params : AnalysisParams) (allSamples outSelected : list (FrameData Mat))
  : option (bool * list (FrameData Mat) * VideoAnalyzer) :=
  if negb (cap_isOpened va) then Some (false, outSelected, va)
  else
    let va := resetCancel va in
    if Cpp.le (duration (videoInfo_ va)) 0 then Some (false, [], va)
    else
      match searchSlots64 fuel va env params with
      | None => None
      | Some results =>
          let out := filter hasThumbnail results in
          let va := atEnd va env in
          Some (negb (isCancelled va), out, va)
      end.

(** Fuel for a whole run of [findOptimalFrames64]: a rounded addition
    advances by half the step at least. *)
Definition searchFuel64 (va : VideoAnalyzer) (params : AnalysisParams) : nat :=
  Nat.max (loopFuel 0 (duration (videoInfo_ va)) (intervalSec params * (1 # 2)))
          (loopFuel 0 (Cpp.binary64 (duration (videoInfo_ va) + eps64))
             (searchStepSec params * (1 # 2))).

(** ** Selection management ([App]) *)

(** [App::getSelectedCount] *)
Definition getSelectedCount (app : App Mat) : Z :=
  fold_left (fun count f => if selected f then (count + 1)%Z else count)
    (selectedFrames_ app) 0%Z.

(** [frames[n].selected = !frames[n].selected] *)
Fixpoint toggleAt (n : nat) (frames : list (FrameData Mat)) : list (FrameData Mat) :=
  match frames, n with
  | [], _ => []
  | fd :: rest, O =>
      mkFrame (time fd) (sharpness fd) (negb (selected fd)) (thumbnail fd) :: rest
  | fd :: rest, S n' => fd :: toggleAt n' rest
  end.

(** [App::toggleFrameSelection] *)
Definition toggleFrameSelection (index : Z) (app : App Mat) : App Mat :=
  if ((0 <=? index) && (index <? Z.of_nat (List.length (selectedFrames_ app))))%Z
  then mkApp (analyzer_ app) (app_videoInfo_ app) (params_ app) (allSamples_ app)
         (toggleAt (Z.to_nat index) (selectedFrames_ app)) true (statusText_ app)
  else app.

(** The order [a.time <= b.time] on entries. *)
Definition byTime (a b : FrameData Mat) : Prop := time a <= time b.

(** Strictly earlier. *)
Definition beforeTime (a b : FrameData Mat) : Prop := time a < time b.

(** The loop of [std::lower_bound] over [[first, first + len)] with the
    comparison [a.time < b.time]:
    [while (len > 0) { half = len >> 1; middle = first + half;
       if (middle->time < value.time) { first = middle + 1; len = len - half - 1; }
       else len = half; }] *)
Fixpoint lower_bound_loop (fuel : nat) (frames : list (FrameData Mat)) (t : Q)
  (first len : nat) : nat :=
  match fuel with
  | O => first
  | S fuel' =>
      match len with
      | O => first
      | _ =>
          let half := Nat.div2 len in
          let middle := (first + half)%nat in
          match nth_error frames middle with
          | Some m =>
              if Cpp.gt t (time m)
              then lower_bound_loop fuel' frames t (middle + 1) (len - half - 1)
              else lower_bound_loop fuel' frames t first half
          | None => first
          end
      end
  end.

Definition lower_bound (frames : list (FrameData Mat)) (t : Q) : nat :=
  lower_bound_loop (List.length frames) frames t 0 (List.length frames).

(** [App::addFrameAtTime] *)
Definition addFrameAtTime (t : Q) (app : App Mat) : App Mat :=
  if negb (cap_isOpened (analyzer_ app)) then app
  else
    match getFrameAt (analyzer_ app) t with
    | Some frame =>
        let thumbHeight := 120%Z in
        let thumbWidth := Z.quot (thumbHeight * Mat_cols frame) (Mat_rows frame) in
        let data :=
          mkFrame t (calculateSharpness frame (algorithm (params_ app))) true
            (Some (resize frame thumbWidth thumbHeight)) in
        let it := lower_bound (selectedFrames_ app) t in
        mkApp (analyzer_ app) (app_videoInfo_ app) (params_ app) (allSamples_ app)
          (firstn it (selectedFrames_ app) ++ data :: skipn it (selectedFrames_ app))
          true (statusText_ app)
    | None => app
    end.

(** ** Mouse handling of the timeline panel *)

(** The search for the marker to toggle:
    [for (i...) { dist = |frames[i].time - hoveredTime|;
       if (dist < closestDist) { closestDist = dist; closestIdx = i; } }]
    The difference is rounded to [double]; [std::abs] is exact. *)
Fixpoint closestLoop (frames : list (FrameData Mat)) (i : Z) (hoveredTime : Q)
  (closestIdx : Z) (closestDist : Q) : Z :=
  match frames with
  | [] => closestIdx
  | fd :: rest =>
      let dist := Qabs (Cpp.binary64 (time fd - hoveredTime)) in
      if Cpp.gt closestDist dist
      then closestLoop rest (i + 1) hoveredTime i dist
      else closestLoop rest (i + 1) hoveredTime closestIdx closestDist
  end.

(** A left click at the (clamped) hovered time.  The threshold
    [videoInfo.duration * 0.01] is the rounded product of the duration and
    the [double] nearest to 0.01. *)
Definition leftClick (hoveredTime : Q) (app : App Mat) : App Mat :=
  let clickThreshold :=
    Cpp.binary64 (duration (app_videoInfo_ app) * Cpp.binary64 (1 # 100)) in
  let closestIdx :=
    closestLoop (selectedFrames_ app) 0 hoveredTime (-1) clickThreshold in
  if (0 <=? closestIdx)%Z then toggleFrameSelection closestIdx app else app.

(** A right click when the mouse is at plot abscissa [mouseX]. *)
Definition rightClick (mouseX : Q) (app : App Mat) : App Mat :=
  addFrameAtTime (clampHover mouseX (duration (app_videoInfo_ app))) app.

(** ** Loading, analysing and exporting from the application

    The three actions are given for the state their guard reads:
    [analyzing] is [isAnalyzing()].  [loadVideo] is embedded for an idle
    application ([isAnalyzing()] false), where its cancel-and-join prologue
    is skipped. *)

(** [App::loadVideo]; [capOpen] is [cv::VideoCapture::open]. *)
Definition loadVideo (capOpen : string -> option CapProps) (p : string)
  (app : App Mat) (disk : Disk) : App Mat :=
  match openVideo capOpen (analyzer_ app) p with
  | (true, va) =>
      let app1 := mkApp va (videoInfo_ va) (params_ app) [] [] false (statusText_ app) in
      match loadConfig app1 disk with
      | (true, app2) =>
          mkApp (analyzer_ app2) (app_videoInfo_ app2) (params_ app2) (allSamples_ app2)
            (selectedFrames_ app2) (configDirty_ app2)
            ("Video loaded with config: " ++ path (videoInfo_ va))%string
      | (false, app2) =>
          mkApp (analyzer_ app2) (app_videoInfo_ app2) (params_ app2) (allSamples_ app2)
            (selectedFrames_ app2) (configDirty_ app2)
            ("Video loaded: " ++ path (videoInfo_ va))%string
      end
  | (false, va) =>
      mkApp va VideoInfo_default (params_ app) [] [] (configDirty_ app)
        "Failed to load video"
  end.

(** What the analysis thread can observe of [cancel()] calls: during each
    pass, at the two checks [success && !analyzer_.isCancelled()] that
    follow them, and at the read of the flag that chooses the status text,
    once the thread is done. *)
Record AnalysisEnv : Type := mkAnalysisEnv {
  pass1 : CancelEnv;
  afterPass1 : bool;
  pass2 : CancelEnv;
  afterPass2 : bool;
  atStatus : bool
}.

(** [App::startAnalysis], with the work of its thread. *)
Definition startAnalysis (fuel : nat) (analyzing : bool) (env : AnalysisEnv)
  (app : App Mat) : option (App Mat) :=
  if analyzing || negb (cap_isOpened (analyzer_ app)) then Some app
  else
    let va := resetCancel (analyzer_ app) in
    match analyzeFullVideo fuel va (pass1 env) (params_ app) [] with
    | None => None
    | Some (success, samples, va1) =>
        let va1 := if afterPass1 env then cancel va1 else va1 in
        if success && negb (isCancelled va1) then
          match findOptimalFrames fuel va1 (pass2 env) (params_ app) samples [] with
          | None => None
          | Some (success2, selected_, va2) =>
              let va2 := if afterPass2 env then cancel va2 else va2 in
              let stored := success2 && negb (isCancelled va2) in
              let va3 := if atStatus env then cancel va2 else va2 in
              Some (mkApp va3 (app_videoInfo_ app) (params_ app) samples
                      (if stored then selected_ else [])
                      (if stored then true else configDirty_ app)
                      (if isCancelled va3 then "Analysis cancelled"
                       else "Analysis complete"))
          end
        else
          let va3 := if atStatus env then cancel va1 else va1 in
          Some (mkApp va3 (app_videoInfo_ app) (params_ app) samples []
                  (configDirty_ app)
                  (if isCancelled va3 then "Analysis cancelled"
                   else "Analysis complete"))
    end.

(** [App::exportFrames], with the work of its thread: the application
    afterwards and the files written. *)
Definition App_exportFrames (analyzing : bool) (schedule : list Event)
  (outputDir : string) (app : App Mat) : App Mat * list (string * Mat) :=
  if analyzing || match selectedFrames_ app with [] => true | _ => false end
  then (app, [])
  else
    let '(_, files, va) :=
      exportFrames (resetCancel (analyzer_ app)) schedule (selectedFrames_ app)
        outputDir in
    (mkApp va (app_videoInfo_ app) (params_ app) (allSamples_ app)
       (selectedFrames_ app) (configDirty_ app)
       (if isCancelled va then "Export cancelled" else "Export complete"),
     files).

(** ** Command line ([runCli]) *)

(** The export loop of [runCli]. *)
Fixpoint cliExport (va : VideoAnalyzer) (outDir : string)
  (selectedFrames : list (FrameData Mat)) (outIndex : nat)
  (files : list (string * Mat)) : Exit * list (string * Mat) :=
  match selectedFrames with
  | [] => (ExitCode 0, files)
  | frameData :: rest =>
      match getFrameAt va (time frameData) with
      | Some frame =>
          if imwrite outDir (filename outIndex frameData) frame
          then cliExport va outDir rest (S outIndex)
                 (files ++ [(filename outIndex frameData, frame)])
          else (ExitCode 1, files)
      | None => cliExport va outDir rest outIndex files
      end
  end.

(** An optional numeric argument:
    [(args.size() >= n + 1) ? std::stod(args[n]) : dflt]; [stod] is
    [std::stod], [None] when it throws. *)
Definition optionalArg (stod : string -> option Q) (args : list string) (n : nat)
  (dflt : Q) : option Q :=
  match nth_error args n with
  | Some a => stod a
  | None => Some dflt
  end.

(** [runCli] without the optional plot window: how it ends and the files
    written; the outer [None] is the embedding's fuel running out.
    [toFloat] is the conversion of a [double] to the [float] fields of
    [AnalysisParams], [createDirectories dir] tells whether
    [fs::create_directories] returns (it throws otherwise).  The file names
    are printed with [%04d] of an [int], which agrees with [%04zu] on the
    indices a run can reach. *)
Definition runCli (capOpen : string -> option CapProps) (stod : string -> option Q)
  (toFloat : Q -> Q) (createDirectories : string -> bool)
  (fuel : nat) (argv : list string) : option (Exit * list (string * Mat)) :=
  let parsed := parseArgs argv (mkCliArgs false FFT []) in
  let args := cli_args parsed in
  if (List.length args <? 4)%nat then Some (ExitCode 1, [])
  else
    let videoPath := nth 1 args EmptyString in
    let outDir := nth 2 args EmptyString in
    match stod (nth 3 args EmptyString) with
    | None => Some (Terminated, [])
    | Some targetIntervalSec =>
        match optionalArg stod args 4 (1 # 2) with
        | None => Some (Terminated, [])
        | Some searchWindowSec_ =>
            match optionalArg stod args 5 (2 # 100) with
            | None => Some (Terminated, [])
            | Some searchStepSec_ =>
                if Cpp.le targetIntervalSec 0 then Some (ExitCode 1, [])
                else if Cpp.gt 0 searchWindowSec_ || Cpp.le searchStepSec_ 0
                then Some (ExitCode 1, [])
                else if negb (createDirectories outDir) then Some (Terminated, [])
                else
                  match openVideo capOpen (mkAnalyzer false VideoInfo_default false)
                          videoPath with
                  | (false, _) => Some (ExitCode 1, [])
                  | (true, analyzer) =>
                      let params :=
                        mkParams (toFloat targetIntervalSec) (toFloat searchWindowSec_)
                          (toFloat searchStepSec_) (toFloat (1 # 10))
                          (cli_algorithm parsed) in
                      match findOptimalFrames fuel analyzer quiet params [] [] with
                      | None => None
                      | Some (_, selectedFrames, analyzer') =>
                          Some (cliExport analyzer' outDir selectedFrames 0 [])
                      end
                  end
            end
        end
    end.

(** [main]: [guiEnabled] tells whether the program was built with
    [SHARPCTL_GUI_ENABLED].
    [#ifdef SHARPCTL_GUI_ENABLED  if (!cliMode) return runGui();  #endif
     return runCli(argc, argv);] *)
Definition main (guiEnabled : bool) (capOpen : string -> option CapProps)
  (stod : string -> option Q) (toFloat : Q -> Q) (createDirectories : string -> bool)
  (fuel : nat) (argv : list string) : Launch (option (Exit * list (string * Mat))) :=
  if guiEnabled && negb (cliMode argv) then RunGui
  else RunCli (runCli capOpen stod toFloat createDirectories fuel argv).

(* ------------------------------------------------------------------ *)
(** * Properties of the engine *)

(** ** Comparisons and floors *)

Lemma Cpp_gt_iff (a b : Q) : Cpp.gt a b = true <-> b < a.
Proof.
  unfold Cpp.gt. rewrite Qgt_alt. destruct (a ?= b); split; congruence.
Qed.

Lemma Cpp_gt_false_iff (a b : Q) : Cpp.gt a b = false <-> a <= b.
Proof.
  unfold Cpp.gt. rewrite Qle_alt. destruct (a ?= b); split; congruence.
Qed.

Lemma Cpp_le_iff (a b : Q) : Cpp.le a b = true <-> a <= b.
Proof. apply Qle_bool_iff. Qed.

Lemma Cpp_le_false_iff (a b : Q) : Cpp.le a b = false <-> b < a.
Proof.
  unfold Cpp.le. split; intro H.
  - apply Qnot_le_lt. intro Hle. apply Qle_bool_iff in Hle. congruence.
  - destruct (Qle_bool a b) eqn:E; [|reflexivity].
    apply Qle_bool_iff in E. exfalso. apply (Qlt_not_le _ _ H E).
Qed.

Lemma Cpp_ge_iff (a b : Q) : Cpp.ge a b = true <-> b <= a.
Proof. apply Qle_bool_iff. Qed.

Lemma Cpp_max_lower (a b : Q) : a <= Cpp.max a b.
Proof.
  unfold Cpp.max. destruct (Cpp.gt b a) eqn:E.
  - apply Cpp_gt_iff in E. apply Qlt_le_weak, E.
  - apply Qle_refl.
Qed.

Lemma Cpp_min_le_l (a b : Q) : Cpp.min a b <= a.
Proof.
  unfold Cpp.min. destruct (Cpp.gt a b) eqn:E.
  - apply Cpp_gt_iff in E. apply Qlt_le_weak, E.
  - apply Qle_refl.
Qed.

(** ** The grid loop terminates for a positive step *)

Lemma Qfloor_unique (x : Q) (n : Z) :
  inject_Z n <= x -> x < inject_Z (n + 1) -> Qfloor x = n.
Proof.
  intros Hlo Hhi.
  pose proof (Qfloor_le x) as Hfl.
  pose proof (Qlt_floor x) as Hfu.
  assert (H1 : (Qfloor x < n + 1)%Z).
  { rewrite Zlt_Qlt. eapply Qle_lt_trans; eauto. }
  assert (H2 : (n < Qfloor x + 1)%Z).
  { rewrite Zlt_Qlt. eapply Qle_lt_trans; eauto. }
  lia.
Qed.

Lemma Qfloor_pred (x : Q) : Qfloor (x - 1) = (Qfloor x - 1)%Z.
Proof.
  pose proof (Qfloor_le x) as Hfl.
  pose proof (Qlt_floor x) as Hfu.
  rewrite inject_Z_plus in Hfu. change (inject_Z 1) with 1 in Hfu.
  apply Qfloor_unique.
  - unfold Z.sub. rewrite inject_Z_plus, inject_Z_opp.
    change (inject_Z 1) with 1. lra.
  - replace (Qfloor x - 1 + 1)%Z with (Qfloor x) by lia. lra.
Qed.

Lemma Qfloor_nonneg (x : Q) : 0 <= x -> (0 <= Qfloor x)%Z.
Proof.
  intro H. change 0%Z with (Qfloor 0). apply Qfloor_resp_le, H.
Qed.

Lemma Qfloor_neg (x : Q) : x < 0 -> (Qfloor x < 0)%Z.
Proof.
  intro H. rewrite Zlt_Qlt. eapply Qle_lt_trans; [apply Qfloor_le | exact H].
Qed.

Lemma itersLeft_done (t hi step : Q) :
  0 < step -> hi < t -> itersLeft t hi step = O.
Proof.
  intros Hs Ht. unfold itersLeft.
  assert (H : (hi - t) / step < 0).
  { apply Qlt_shift_div_r; [exact Hs | lra]. }
  apply Qfloor_neg in H. lia.
Qed.

Lemma itersLeft_step (t hi step : Q) :
  0 < step -> t <= hi -> itersLeft t hi step = S (itersLeft (t + step) hi step).
Proof.
  intros Hs Ht. unfold itersLeft.
  assert (E : (hi - (t + step)) / step == (hi - t) / step - 1).
  { field. intro H0. rewrite H0 in Hs. apply (Qlt_irrefl _ Hs). }
  rewrite E, Qfloor_pred.
  assert (H : 0 <= (hi - t) / step).
  { apply Qle_shift_div_l; [exact Hs | lra]. }
  apply Qfloor_nonneg in H. lia.
Qed.

Lemma loopFuel_enough (lo hi step : Q) :
  (itersLeft lo hi step < loopFuel lo hi step)%nat.
Proof.
  unfold itersLeft, loopFuel. lia.
Qed.

Lemma gridTimes_total (fuel : nat) : forall t D step,
  0 < step -> (itersLeft t D step < fuel)%nat ->
  exists l, gridTimes fuel t D step = Some l /\ List.length l = itersLeft t D step.
Proof.
  induction fuel as [|fuel IH]; intros t D step Hs Hf; [lia|].
  cbn [gridTimes]. destruct (Cpp.le t D) eqn:E.
  - apply Cpp_le_iff in E.
    rewrite (itersLeft_step t D step Hs E) in Hf |- *.
    destruct (IH (t + step) D step Hs) as [l [Hl Hlen]]; [lia|].
    rewrite Hl. exists (t :: l). cbn. split; [reflexivity | now rewrite Hlen].
  - apply Cpp_le_false_iff in E.
    exists []. split; [reflexivity|]. cbn. symmetry. now apply itersLeft_done.
Qed.

Lemma gridTimes_nth (fuel : nat) : forall t D step l k x,
  gridTimes fuel t D step = Some l -> nth_error l k = Some x ->
  x == t + inject_Z (Z.of_nat k) * step /\ x <= D.
Proof.
  induction fuel as [|fuel IH]; intros t D step l k x Hg Hn; [discriminate|].
  cbn [gridTimes] in Hg. destruct (Cpp.le t D) eqn:E.
  - destruct (gridTimes fuel (t + step) D step) as [l'|] eqn:El; [|discriminate].
    cbn in Hg. injection Hg as <-.
    destruct k as [|k]; cbn in Hn.
    + injection Hn as <-. apply Cpp_le_iff in E. split; [|exact E].
      cbn. change (inject_Z 0) with 0. lra.
    + destruct (IH _ _ _ _ _ _ El Hn) as [Hx Hd]. split; [|exact Hd].
      rewrite Hx, Nat2Z.inj_succ. unfold Z.succ. rewrite inject_Z_plus.
      change (inject_Z 1) with 1. lra.
  - injection Hg as <-. destruct k; discriminate.
Qed.

Lemma gridTimes_fuel_mono (fuel : nat) : forall fuel' t D step l,
  gridTimes fuel t D step = Some l -> (fuel <= fuel')%nat ->
  gridTimes fuel' t D step = Some l.
Proof.
  induction fuel as [|fuel IH]; intros fuel' t D step l Hg Hle; [discriminate|].
  destruct fuel' as [|fuel']; [lia|].
  cbn [gridTimes] in *. destruct (Cpp.le t D); [|exact Hg].
  destruct (gridTimes fuel (t + step) D step) as [l'|] eqn:El; [|discriminate].
  rewrite (IH fuel' _ _ _ _ El); [exact Hg | lia].
Qed.

(** A loop whose step is not positive never ends once entered. *)
Lemma gridTimes_diverges (fuel : nat) : forall t D step,
  step <= 0 -> t <= D -> gridTimes fuel t D step = None.
Proof.
  induction fuel as [|fuel IH]; intros t D step Hs Ht; [reflexivity|].
  cbn [gridTimes]. apply Cpp_le_iff in Ht as E. rewrite E.
  rewrite IH; [reflexivity | exact Hs | lra].
Qed.

(** ** The indexed result buffer *)

Lemma forUnits_nth {A B : Type} (unit : nat -> A -> option B) (l : list A) :
  forall i bs k a,
  forUnits unit i l = Some bs -> nth_error l k = Some a ->
  exists b, nth_error bs k = Some b /\ unit (i + k)%nat a = Some b.
Proof.
  induction l as [|x l IH]; intros i bs k a Hf Hn.
  - destruct k; discriminate.
  - cbn [forUnits] in Hf.
    destruct (unit i x) as [b|] eqn:Eb; [|discriminate].
    destruct (forUnits unit (S i) l) as [bs'|] eqn:Ebs; [|discriminate].
    injection Hf as <-. destruct k as [|k]; cbn in Hn |- *.
    + injection Hn as <-. exists b. now rewrite Nat.add_0_r.
    + destruct (IH _ _ _ _ Ebs Hn) as [b' [H1 H2]].
      exists b'. split; [exact H1|]. now rewrite Nat.add_succ_r.
Qed.

Lemma forUnits_length {A B : Type} (unit : nat -> A -> option B) (l : list A) :
  forall i bs, forUnits unit i l = Some bs -> List.length bs = List.length l.
Proof.
  induction l as [|x l IH]; intros i bs Hf; cbn [forUnits] in Hf.
  - now injection Hf as <-.
  - destruct (unit i x); [|discriminate].
    destruct (forUnits unit (S i) l) eqn:E; [|discriminate].
    injection Hf as <-. cbn. f_equal. eauto.
Qed.

Lemma forUnits_total {A B : Type} (unit : nat -> A -> option B) (l : list A) :
  forall i,
  (forall k a, nth_error l k = Some a -> exists b, unit (i + k)%nat a = Some b) ->
  exists bs, forUnits unit i l = Some bs.
Proof.
  induction l as [|x l IH]; intros i H; cbn [forUnits].
  - now exists [].
  - destruct (H O x eq_refl) as [b Hb]. rewrite Nat.add_0_r in Hb. rewrite Hb.
    destruct (IH (S i)) as [bs Hbs].
    + intros k a Hk. destruct (H (S k) a Hk) as [b' Hb'].
      exists b'. now rewrite Nat.add_succ_r in Hb'.
    + rewrite Hbs. now exists (b :: bs).
Qed.

(** ** The inner scan *)

Lemma scan_fold (fuel : nat) (va : VideoAnalyzer) (env : CancelEnv)
  (params : AnalysisParams) (i : nat) (endT step : Q) :
  forall j ts best,
  scanWindow fuel va env params i j endT step ts best =
  option_map (fun ps => fold_left (retain va params) ps best)
    (scanned fuel va env i j endT step ts).
Proof.
  induction fuel as [|fuel IH]; intros j ts best; [reflexivity|].
  cbn [scanWindow scanned].
  destruct (Cpp.le ts (endT + eps) && negb (flagRead va env i j)); [|reflexivity].
  rewrite IH. now destruct (scanned fuel va env i (S j) endT step (ts + step)).
Qed.

Lemma scanned_total (fuel : nat) (va : VideoAnalyzer) (env : CancelEnv)
  (i : nat) (endT step : Q) :
  forall j ts,
  0 < step -> (itersLeft ts (endT + eps) step < fuel)%nat ->
  exists ps, scanned fuel va env i j endT step ts = Some ps.
Proof.
  induction fuel as [|fuel IH]; intros j ts Hs Hf; [lia|].
  cbn [scanned].
  destruct (Cpp.le ts (endT + eps)) eqn:E; cbn [andb]; [|now exists []].
  destruct (flagRead va env i j); cbn [negb]; [now exists []|].
  apply Cpp_le_iff in E. rewrite (itersLeft_step _ _ _ Hs E) in Hf.
  destruct (IH (S j) (ts + step) Hs) as [ps Hps]; [lia|].
  rewrite Hps. now exists (ts :: ps).
Qed.

Lemma scanned_bounds (fuel : nat) (va : VideoAnalyzer) (env : CancelEnv)
  (i : nat) (endT step : Q) :
  forall j ts ps p,
  0 <= step -> scanned fuel va env i j endT step ts = Some ps -> In p ps ->
  ts <= p /\ p <= endT + eps.
Proof.
  induction fuel as [|fuel IH]; intros j ts ps p Hs Hsc Hin; [discriminate|].
  cbn [scanned] in Hsc.
  destruct (Cpp.le ts (endT + eps)) eqn:E; cbn [andb] in Hsc.
  2:{ injection Hsc as <-. destruct Hin. }
  destruct (flagRead va env i j); cbn [negb] in Hsc.
  { injection Hsc as <-. destruct Hin. }
  destruct (scanned fuel va env i (S j) endT step (ts + step)) as [ps'|] eqn:E';
    [|discriminate].
  injection Hsc as <-. apply Cpp_le_iff in E. destruct Hin as [<- | Hin].
  - split; [apply Qle_refl | exact E].
  - destruct (IH _ _ _ _ Hs E' Hin) as [H1 H2]. split; [lra | exact H2].
Qed.

Lemma scanned_increasing (fuel : nat) (va : VideoAnalyzer) (env : CancelEnv)
  (i : nat) (endT step : Q) :
  forall j ts pre t post p,
  0 < step -> scanned fuel va env i j endT step ts = Some (pre ++ t :: post) ->
  In p post -> t < p.
Proof.
  induction fuel as [|fuel IH]; intros j ts pre t post p Hs Hsc Hin; [discriminate|].
  cbn [scanned] in Hsc.
  destruct (Cpp.le ts (endT + eps) && negb (flagRead va env i j)).
  2:{ destruct pre; discriminate. }
  destruct (scanned fuel va env i (S j) endT step (ts + step)) as [ps'|] eqn:E';
    [|discriminate].
  cbn in Hsc. destruct pre as [|x pre]; cbn in Hsc.
  - injection Hsc as -> <-.
    assert (Hs' : 0 <= step) by lra.
    destruct (scanned_bounds _ _ _ _ _ _ _ _ _ _ Hs' E' Hin) as [H1 _]. lra.
  - injection Hsc as -> ->. eapply IH; eauto.
Qed.

Lemma retain_cases (va : VideoAnalyzer) (params : AnalysisParams) (best : Best Mat) (p : Q) :
  (retain va params best p = best /\
   forall frame, seekRead va p = Some frame ->
     calculateSharpness frame (algorithm params) <= bestVar best) \/
  (exists frame,
     seekRead va p = Some frame /\
     bestVar best < calculateSharpness frame (algorithm params) /\
     retain va params best p =
       mkBest (calculateSharpness frame (algorithm params)) p (Some frame)).
Proof.
  unfold retain. destruct (seekRead va p) as [f0|].
  - destruct (Cpp.gt (calculateSharpness f0 (algorithm params)) (bestVar best)) eqn:Eg.
    + apply Cpp_gt_iff in Eg. right. exists f0. auto.
    + apply Cpp_gt_false_iff in Eg. left. split; [reflexivity|].
      intros frame [= <-]. exact Eg.
  - left. split; [reflexivity | discriminate].
Qed.

(** The scan retains the first position whose score is strictly above
    everything seen before it and not below anything seen after it. *)
Lemma retain_fold (va : VideoAnalyzer) (params : AnalysisParams) :
  forall ps best,
  (fold_left (retain va params) ps best = best /\
   forall p frame, In p ps -> seekRead va p = Some frame ->
     calculateSharpness frame (algorithm params) <= bestVar best) \/
  (exists pre t post frame,
     ps = pre ++ t :: post /\ seekRead va t = Some frame /\
     fold_left (retain va params) ps best =
       mkBest (calculateSharpness frame (algorithm params)) t (Some frame) /\
     bestVar best < calculateSharpness frame (algorithm params) /\
     (forall p frame', In p pre -> seekRead va p = Some frame' ->
        calculateSharpness frame' (algorithm params) <
        calculateSharpness frame (algorithm params)) /\
     (forall p frame', In p post -> seekRead va p = Some frame' ->
        calculateSharpness frame' (algorithm params) <=
        calculateSharpness frame (algorithm params))).
Proof.
  intros ps. induction ps as [|p ps IH]; intros best.
  - left. split; [reflexivity | intros ? ? []].
  - cbn [fold_left].
    destruct (retain_cases va params best p) as [[Eb Hp] | (f0 & Hr0 & Hlt0 & Eb)];
      rewrite Eb;
      [ destruct (IH best)
          as [[Hr Hall] | (pre & t & post & f & Hps & Hrd & Hr & Hlt & Hpre & Hpost)]
      | destruct (IH (mkBest (calculateSharpness f0 (algorithm params)) p (Some f0)))
          as [[Hr Hall] | (pre & t & post & f & Hps & Hrd & Hr & Hlt & Hpre & Hpost)];
        cbn [bestVar] in * ].
    + left. split; [exact Hr|].
      intros q f' [<- | Hq] Hq'; eauto.
    + right. exists (p :: pre), t, post, f. subst ps.
      split; [reflexivity|]. split; [exact Hrd|]. split; [exact Hr|].
      split; [exact Hlt|]. split; [|exact Hpost].
      intros q f' [<- | Hq] Hq'; [|eauto].
      specialize (Hp _ Hq'). lra.
    + right. exists [], p, ps, f0.
      split; [reflexivity|]. split; [exact Hr0|]. split; [exact Hr|].
      split; [exact Hlt0|]. split; [intros ? ? [] | exact Hall].
    + right. exists (p :: pre), t, post, f. subst ps.
      split; [reflexivity|]. split; [exact Hrd|]. split; [exact Hr|].
      split; [lra|]. split; [|exact Hpost].
      intros q f' [<- | Hq] Hq'; [|eauto].
      rewrite Hr0 in Hq'. injection Hq' as <-. exact Hlt.
Qed.

(** ** One target of the windowed optimizer *)

Lemma itersLeft_mono (lo lo' hi hi' step : Q) :
  0 < step -> lo <= lo' -> hi' <= hi ->
  (itersLeft lo' hi' step <= itersLeft lo hi step)%nat.
Proof.
  intros Hs Hlo Hhi. unfold itersLeft.
  assert (H : (hi' - lo') / step <= (hi - lo) / step).
  { apply Qle_shift_div_l; [exact Hs|].
    assert (E : (hi' - lo') / step * step == hi' - lo').
    { field. intro H0. rewrite H0 in Hs. apply (Qlt_irrefl _ Hs). }
    rewrite E. lra. }
  apply Qfloor_resp_le in H. lia.
Qed.

Lemma window_fuel (va : VideoAnalyzer) (params : AnalysisParams) (targetT : Q) (fuel : nat) :
  0 < searchStepSec params -> (searchFuel va params <= fuel)%nat ->
  (itersLeft (startOf params targetT) (endOf va params targetT + eps)
     (searchStepSec params) < fuel)%nat.
Proof.
  intros Hs Hf. unfold searchFuel in Hf.
  pose proof (loopFuel_enough 0 (duration (videoInfo_ va) + eps) (searchStepSec params)).
  assert (Hm : (itersLeft (startOf params targetT) (endOf va params targetT + eps)
                  (searchStepSec params)
                <= itersLeft 0 (duration (videoInfo_ va) + eps) (searchStepSec params))%nat).
  { apply itersLeft_mono; [exact Hs | apply Cpp_max_lower |].
    pose proof (Cpp_min_le_l (duration (videoInfo_ va)) (targetT + searchWindowSec params)).
    unfold endOf. lra. }
  lia.
Qed.

Lemma searchUnit_total (fuel : nat) (va : VideoAnalyzer) (env : CancelEnv)
  (params : AnalysisParams) (i : nat) (targetT : Q) :
  0 < searchStepSec params -> (searchFuel va params <= fuel)%nat ->
  exists r, searchUnit fuel va env params i targetT = Some r.
Proof.
  intros Hs Hf. unfold searchUnit.
  destruct (flagRead va env i 0); [eauto|].
  rewrite scan_fold.
  destruct (scanned_total fuel va env i (endOf va params targetT) (searchStepSec params)
              1%nat (startOf params targetT) Hs (window_fuel _ _ _ _ Hs Hf)) as [ps Hps].
  rewrite Hps. cbn. eauto.
Qed.

Lemma hasThumbnail_emit (best : Best Mat) :
  hasThumbnail (emit best) = true -> exists frame, bestFrame best = Some frame.
Proof.
  unfold emit. destruct (bestFrame best) as [f|]; [eauto | discriminate].
Qed.

(** An emitted entry is the first maximum of the scores of the positions its
    unit scanned. *)
Lemma searchUnit_argmax (fuel : nat) (va : VideoAnalyzer) (env : CancelEnv)
  (params : AnalysisParams) (i : nat) (targetT : Q) (r : FrameData Mat) :
  0 < searchStepSec params ->
  searchUnit fuel va env params i targetT = Some r ->
  hasThumbnail r = true ->
  exists ps frame,
    scannedFor fuel va env params i targetT = Some ps /\
    In (time r) ps /\
    seekRead va (time r) = Some frame /\
    sharpness r = calculateSharpness frame (algorithm params) /\
    selected r = true /\
    forall p frame', In p ps -> seekRead va p = Some frame' ->
      calculateSharpness frame' (algorithm params) <= sharpness r /\
      (calculateSharpness frame' (algorithm params) == sharpness r -> time r <= p).
Proof.
  intros Hs Hu Ht. unfold searchUnit in Hu.
  destruct (flagRead va env i 0); [injection Hu as <-; discriminate|].
  rewrite scan_fold in Hu. fold (scannedFor fuel va env params i targetT) in Hu.
  destruct (scannedFor fuel va env params i targetT) as [ps|] eqn:Eps; [|discriminate].
  cbn in Hu. injection Hu as <-.
  destruct (retain_fold va params ps (mkBest (-1) targetT None))
    as [[Hr _] | (pre & t & post & f & Hps & Hrd & Hr & _ & Hpre & Hpost)].
  - rewrite Hr in Ht. discriminate.
  - rewrite Hr. unfold emit. cbn.
    exists ps, f. split; [reflexivity|].
    split; [subst ps; apply in_or_app; right; left; reflexivity|].
    split; [exact Hrd|]. split; [reflexivity|]. split; [reflexivity|].
    intros p f' Hin Hp. rewrite Hps in Hin.
    apply in_app_or in Hin. destruct Hin as [Hin | [<- | Hin]].
    + specialize (Hpre _ _ Hin Hp). split; [lra|]. intro E. lra.
    + rewrite Hrd in Hp. injection Hp as <-. split; [apply Qle_refl|].
      intros _. apply Qle_refl.
    + split; [eauto|]. intros _. apply Qlt_le_weak.
      unfold scannedFor in Eps. rewrite Hps in Eps.
      eapply scanned_increasing; eauto.
Qed.

(** With non-negative scores a target is dropped only when none of the
    scanned positions could be read. *)
Lemma searchUnit_dropped (fuel : nat) (va : VideoAnalyzer) (env : CancelEnv)
  (params : AnalysisParams) (i : nat) (targetT : Q) (r : FrameData Mat) (ps : list Q) :
  (forall frame, 0 <= calculateSharpness frame (algorithm params)) ->
  flagRead va env i 0 = false ->
  searchUnit fuel va env params i targetT = Some r ->
  scannedFor fuel va env params i targetT = Some ps ->
  hasThumbnail r = false ->
  forall p, In p ps -> seekRead va p = None.
Proof.
  intros Hnn Hfl Hu Hps Ht p Hin. unfold searchUnit in Hu. rewrite Hfl in Hu.
  rewrite scan_fold in Hu. fold (scannedFor fuel va env params i targetT) in Hu.
  rewrite Hps in Hu. cbn in Hu. injection Hu as <-.
  destruct (retain_fold va params ps (mkBest (-1) targetT None))
    as [[Hr Hall] | (pre & t & post & f & _ & _ & Hr & _)].
  - destruct (seekRead va p) as [f|] eqn:E; [|reflexivity].
    specialize (Hall _ _ Hin E). cbn in Hall. specialize (Hnn f). lra.
  - rewrite Hr in Ht. discriminate.
Qed.

(** An emitted time lies between the clamped window start and the clamped
    window end plus the loop's tolerance. *)
Lemma searchUnit_window (fuel : nat) (va : VideoAnalyzer) (env : CancelEnv)
  (params : AnalysisParams) (i : nat) (targetT : Q) (r : FrameData Mat) :
  0 < searchStepSec params ->
  searchUnit fuel va env params i targetT = Some r ->
  hasThumbnail r = true ->
  startOf params targetT <= time r /\ time r <= endOf va params targetT + eps.
Proof.
  intros Hs Hu Ht.
  destruct (searchUnit_argmax _ _ _ _ _ _ _ Hs Hu Ht) as (ps & f & Hps & Hin & _).
  unfold scannedFor in Hps.
  eapply scanned_bounds; eauto. lra.
Qed.

(** ** Cancellation inside a window *)

Lemma scanned_cut (fuel : nat) (va : VideoAnalyzer) (env : CancelEnv)
  (i : nat) (endT step : Q) :
  isCancelled va = false ->
  forall j ts k ps,
  (forall m, (m < k)%nat -> requested env i (j + m) = false) ->
  requested env i (j + k) = true ->
  scanned fuel va quiet i j endT step ts = Some ps ->
  scanned fuel va env i j endT step ts = Some (firstn k ps).
Proof.
  intros Hva. induction fuel as [|fuel IH]; intros j ts k ps Hlow Hk Hq; [discriminate|].
  cbn [scanned] in *. unfold flagRead in *. rewrite Hva in *. cbn [orb quiet requested] in *.
  destruct (Cpp.le ts (endT + eps)); cbn [andb negb] in *.
  2:{ injection Hq as <-. now rewrite firstn_nil. }
  destruct (scanned fuel va quiet i (S j) endT step (ts + step)) as [ps'|] eqn:E;
    [|discriminate].
  cbn in Hq. injection Hq as <-.
  destruct k as [|k].
  - rewrite Nat.add_0_r in Hk. rewrite Hk. reflexivity.
  - pose proof (Hlow O ltac:(lia)) as H0. rewrite Nat.add_0_r in H0. rewrite H0.
    cbn [negb]. rewrite (IH (S j) (ts + step) k ps').
    + reflexivity.
    + intros m Hm. specialize (Hlow (S m) ltac:(lia)).
      now rewrite Nat.add_succ_r in Hlow.
    + now rewrite Nat.add_succ_r in Hk.
    + exact E.
Qed.

Lemma scanned_uncut (fuel : nat) (va : VideoAnalyzer) (env : CancelEnv)
  (i : nat) (endT step : Q) :
  isCancelled va = false ->
  forall j ts,
  (forall m, requested env i (j + m) = false) ->
  scanned fuel va env i j endT step ts = scanned fuel va quiet i j endT step ts.
Proof.
  intros Hva. induction fuel as [|fuel IH]; intros j ts Hlow; [reflexivity|].
  cbn [scanned]. unfold flagRead. rewrite Hva. cbn [orb quiet requested].
  pose proof (Hlow O) as H0. rewrite Nat.add_0_r in H0. rewrite H0.
  destruct (Cpp.le ts (endT + eps) && negb false); [|reflexivity].
  rewrite IH; [reflexivity|].
  intros m. specialize (Hlow (S m)). now rewrite Nat.add_succ_r in Hlow.
Qed.

(** A unit that observes a request at its [k+1]-st inner read has scanned
    exactly the first [k] positions of its window and stores their best. *)
Lemma searchUnit_cut (fuel : nat) (va : VideoAnalyzer) (env : CancelEnv)
  (params : AnalysisParams) (i : nat) (targetT : Q) (k : nat) (ps : list Q) :
  isCancelled va = false ->
  requested env i 0 = false ->
  (forall m, (m < k)%nat -> requested env i (1 + m) = false) ->
  requested env i (1 + k) = true ->
  scannedFor fuel va quiet params i targetT = Some ps ->
  searchUnit fuel va env params i targetT =
  Some (emit (fold_left (retain va params) (firstn k ps) (mkBest (-1) targetT None))).
Proof.
  intros Hva H0 Hlow Hk Hq. unfold searchUnit, flagRead. rewrite Hva, H0. cbn [orb].
  rewrite scan_fold.
  unfold scannedFor in Hq.
  rewrite (scanned_cut fuel va env i _ _ Hva 1%nat _ k ps Hlow Hk Hq).
  reflexivity.
Qed.

(** A unit that observes no request behaves as in an undisturbed run. *)
Lemma searchUnit_uncut (fuel : nat) (va : VideoAnalyzer) (env : CancelEnv)
  (params : AnalysisParams) (i : nat) (targetT : Q) :
  isCancelled va = false ->
  (forall j, requested env i j = false) ->
  searchUnit fuel va env params i targetT = searchUnit fuel va quiet params i targetT.
Proof.
  intros Hva Hreq. unfold searchUnit, flagRead. rewrite Hva, Hreq. cbn [orb quiet requested].
  rewrite !scan_fold.
  rewrite (scanned_uncut fuel va env i _ _ Hva); [reflexivity|].
  intros m. apply Hreq.
Qed.

(** ** Whole runs *)

Lemma forUnits_nth_inv {A B : Type} (unit : nat -> A -> option B) (l : list A) :
  forall i bs k b,
  forUnits unit i l = Some bs -> nth_error bs k = Some b ->
  exists a, nth_error l k = Some a /\ unit (i + k)%nat a = Some b.
Proof.
  intros i bs k b Hf Hn.
  assert (Hk : (k < List.length l)%nat).
  { rewrite <- (forUnits_length _ _ _ _ Hf). apply nth_error_Some. congruence. }
  destruct (nth_error l k) as [a|] eqn:Ea.
  - destruct (forUnits_nth _ _ _ _ _ _ Hf Ea) as [b' [H1 H2]].
    exists a. split; [reflexivity|]. congruence.
  - apply nth_error_None in Ea. lia.
Qed.

Lemma searchSlots_total (fuel : nat) (va : VideoAnalyzer) (env : CancelEnv)
  (params : AnalysisParams) :
  0 < intervalSec params -> 0 < searchStepSec params ->
  (searchFuel va params <= fuel)%nat ->
  exists targetTimes results,
    gridTimes fuel 0 (duration (videoInfo_ va)) (intervalSec params) = Some targetTimes /\
    searchSlots fuel va env params = Some results /\
    List.length results = List.length targetTimes.
Proof.
  intros Hi Hs Hf. unfold searchSlots.
  destruct (gridTimes_total fuel 0 (duration (videoInfo_ va)) (intervalSec params) Hi)
    as [ts [Hts _]].
  { pose proof (loopFuel_enough 0 (duration (videoInfo_ va)) (intervalSec params)).
    unfold searchFuel in Hf. lia. }
  rewrite Hts.
  destruct (forUnits_total (searchUnit fuel va env params) ts 0) as [rs Hrs].
  { intros k a _. apply searchUnit_total; assumption. }
  exists ts, rs. split; [reflexivity|]. split; [exact Hrs|].
  eapply forUnits_length; eauto.
Qed.

Lemma searchSlots_nth (fuel : nat) (va : VideoAnalyzer) (env : CancelEnv)
  (params : AnalysisParams) (results : list (FrameData Mat)) (k : nat) (r : FrameData Mat) :
  searchSlots fuel va env params = Some results ->
  nth_error results k = Some r ->
  exists targetTimes targetT,
    gridTimes fuel 0 (duration (videoInfo_ va)) (intervalSec params) = Some targetTimes /\
    nth_error targetTimes k = Some targetT /\
    searchUnit fuel va env params k targetT = Some r.
Proof.
  unfold searchSlots. intros Hs Hn.
  destruct (gridTimes fuel 0 (duration (videoInfo_ va)) (intervalSec params))
    as [ts|] eqn:Ets; [|discriminate].
  destruct (forUnits_nth_inv _ _ _ _ _ _ Hs Hn) as [a [Ha Hu]].
  exists ts, a. auto.
Qed.

Lemma sampleSlots_total (fuel : nat) (va : VideoAnalyzer) (env : CancelEnv)
  (params : AnalysisParams) :
  0 < sampleStepSec params ->
  (loopFuel 0 (duration (videoInfo_ va)) (sampleStepSec params) <= fuel)%nat ->
  exists sampleTimes results,
    gridTimes fuel 0 (duration (videoInfo_ va)) (sampleStepSec params) = Some sampleTimes /\
    sampleSlots fuel va env params = Some results /\
    List.length results = List.length sampleTimes /\
    List.length sampleTimes =
      itersLeft 0 (duration (videoInfo_ va)) (sampleStepSec params).
Proof.
  intros Hs Hf. unfold sampleSlots.
  destruct (gridTimes_total fuel 0 (duration (videoInfo_ va)) (sampleStepSec params) Hs)
    as [ts [Hts Hlen]].
  { pose proof (loopFuel_enough 0 (duration (videoInfo_ va)) (sampleStepSec params)). lia. }
  rewrite Hts.
  destruct (forUnits_total (fun i t => Some (sampleUnit va env params i t)) ts 0)
    as [rs Hrs].
  { intros k a _. eauto. }
  exists ts, rs. split; [reflexivity|]. split; [exact Hrs|].
  split; [eapply forUnits_length; eauto | exact Hlen].
Qed.

Lemma sampleSlots_nth (fuel : nat) (va : VideoAnalyzer) (env : CancelEnv)
  (params : AnalysisParams) (results : list (FrameData Mat)) (k : nat) (r : FrameData Mat) :
  sampleSlots fuel va env params = Some results ->
  nth_error results k = Some r ->
  exists sampleTimes t,
    gridTimes fuel 0 (duration (videoInfo_ va)) (sampleStepSec params) = Some sampleTimes /\
    nth_error sampleTimes k = Some t /\
    r = sampleUnit va env params k t.
Proof.
  unfold sampleSlots. intros Hs Hn.
  destruct (gridTimes fuel 0 (duration (videoInfo_ va)) (sampleStepSec params))
    as [ts|] eqn:Ets; [|discriminate].
  destruct (forUnits_nth_inv _ _ _ _ _ _ Hs Hn) as [a [Ha Hu]].
  exists ts, a. split; [reflexivity|]. split; [exact Ha|]. cbn in Hu. congruence.
Qed.

(** The number of grid points of a loop from 0. *)
Lemma itersLeft_from_zero (D step : Q) :
  0 < D -> 0 < step ->
  itersLeft 0 D step = (Z.to_nat (Qfloor (D / step)) + 1)%nat.
Proof.
  intros HD Hs. unfold itersLeft.
  assert (E : (D - 0) / step == D / step).
  { field. intro H0. rewrite H0 in Hs. apply (Qlt_irrefl _ Hs). }
  rewrite E.
  assert (H : 0 <= D / step).
  { apply Qle_shift_div_l; [exact Hs | lra]. }
  apply Qfloor_nonneg in H. lia.
Qed.

(** A run on an opened analyzer does not depend on the flag it starts
    with: [resetCancel] clears it. *)
Lemma analyzeFullVideo_clears (fuel : nat) (va : VideoAnalyzer) (env : CancelEnv)
  (params : AnalysisParams) (outSamples : list (FrameData Mat)) :
  cap_isOpened va = true ->
  analyzeFullVideo fuel (cancel va) env params outSamples =
  analyzeFullVideo fuel va env params outSamples.
Proof.
  intros Ho. unfold analyzeFullVideo. cbn [cancel cap_isOpened]. rewrite Ho. reflexivity.
Qed.

Lemma findOptimalFrames_clears (fuel : nat) (va : VideoAnalyzer) (env : CancelEnv)
  (params : AnalysisParams) (allSamples outSelected : list (FrameData Mat)) :
  cap_isOpened va = true ->
  findOptimalFrames fuel (cancel va) env params allSamples outSelected =
  findOptimalFrames fuel va env params allSamples outSelected.
Proof.
  intros Ho. unfold findOptimalFrames. cbn [cancel cap_isOpened]. rewrite Ho. reflexivity.
Qed.

Lemma searchSlots_boundary (fuel : nat) (va : VideoAnalyzer) (env : CancelEnv)
  (params : AnalysisParams) (results full : list (FrameData Mat)) :
  isCancelled va = false -> atUnitBoundaries env ->
  searchSlots fuel va env params = Some results ->
  searchSlots fuel va quiet params = Some full ->
  forall r, In r results -> hasThumbnail r = true -> In r full.
Proof.
  intros Hva Hb Hr Hq r Hin Ht.
  apply In_nth_error in Hin. destruct Hin as [k Hk].
  destruct (searchSlots_nth _ _ _ _ _ _ _ Hr Hk) as (ts & t & Hts & Hnt & Hu).
  destruct (Hb k) as [Hreq | Hreq].
  - unfold searchUnit, flagRead in Hu. rewrite Hreq, orb_true_r in Hu.
    injection Hu as <-. discriminate.
  - rewrite (searchUnit_uncut _ _ _ _ _ _ Hva Hreq) in Hu.
    unfold searchSlots in Hq. rewrite Hts in Hq.
    destruct (forUnits_nth _ _ _ _ _ _ Hq Hnt) as [b [Hb1 Hb2]].
    cbn in Hb2. rewrite Hu in Hb2. injection Hb2 as <-.
    eapply nth_error_In; eauto.
Qed.

Lemma sampleSlots_unseen (fuel : nat) (va : VideoAnalyzer) (env : CancelEnv)
  (params : AnalysisParams) (results full : list (FrameData Mat)) (k : nat) :
  isCancelled va = false ->
  sampleSlots fuel va env params = Some results ->
  sampleSlots fuel va quiet params = Some full ->
  requested env k 0 = false ->
  nth_error results k = nth_error full k.
Proof.
  intros Hva Hr Hq Hreq.
  destruct (nth_error results k) as [r|] eqn:Ek.
  - destruct (sampleSlots_nth _ _ _ _ _ _ _ Hr Ek) as (ts & t & Hts & Hnt & ->).
    unfold sampleSlots in Hq. rewrite Hts in Hq.
    destruct (forUnits_nth _ _ _ _ _ _ Hq Hnt) as [b [Hb1 Hb2]].
    rewrite Hb1. cbn in Hb2. rewrite <- Hb2.
    unfold sampleUnit, flagRead. rewrite Hva, Hreq. reflexivity.
  - apply nth_error_None in Ek. symmetry. apply nth_error_None.
    unfold sampleSlots in Hr, Hq.
    destruct (gridTimes fuel 0 (duration (videoInfo_ va)) (sampleStepSec params));
      [|discriminate].
    apply forUnits_length in Hr, Hq. lia.
Qed.

(** ** Exporter: numbering *)

Lemma collect_spec (frames : list (FrameData Mat)) : forall acc,
  collect frames acc =
  acc ++ combine (seq (List.length acc) (List.length (filter selected frames)))
           (filter selected frames).
Proof.
  induction frames as [|fd frames IH]; intros acc; cbn [collect filter].
  - cbn. now rewrite app_nil_r.
  - destruct (selected fd).
    + rewrite IH, length_app, <- app_assoc. cbn [List.length seq combine app].
      now rewrite Nat.add_1_r.
    + apply IH.
Qed.

Lemma combine_seq_nth {A : Type} (l : list A) : forall b k index x,
  nth_error (combine (seq b (List.length l)) l) k = Some (index, x) ->
  index = (b + k)%nat /\ nth_error l k = Some x.
Proof.
  induction l as [|y l IH]; intros b k index x H; cbn in H.
  - destruct k; discriminate.
  - destruct k as [|k]; cbn in H.
    + injection H as <- <-. split; [lia | reflexivity].
    + destruct (IH _ _ _ _ H) as [H1 H2]. split; [lia | exact H2].
Qed.

Lemma collect_nth (frames : list (FrameData Mat)) (i index : nat) (fd : FrameData Mat) :
  nth_error (collect frames []) i = Some (index, fd) ->
  index = i /\ nth_error (filter selected frames) i = Some fd.
Proof.
  rewrite collect_spec. cbn [app List.length]. intros H.
  apply combine_seq_nth in H. exact H.
Qed.

(** ** Exporter: the parallel region *)

Section Region.

Variable va : VideoAnalyzer.
Variable outputDir : string.
Variable toExport : list (nat * FrameData Mat).

Local Abbreviation step := (exportStep va outputDir toExport).
Local Abbreviation run := (exportRun va outputDir toExport).

Lemma exportRun_app (st : ExportState Mat) (s1 s2 : list Event) :
  run st (s1 ++ s2) = run (run st s1) s2.
Proof. apply fold_left_app. Qed.

Lemma exportStep_failed (st : ExportState Mat) (e : Event) :
  x_failed st = true -> x_failed (step st e) = true.
Proof.
  intros H. destruct e as [i | i |]; cbn [exportStep].
  - destruct (List.length toExport <=? i)%nat; [exact H|].
    rewrite H, orb_true_r. exact H.
  - destruct (existsb (Nat.eqb i) (x_inflight st)); [|exact H].
    destruct (nth_error toExport i) as [[index fd]|]; [|exact H].
    destruct (seekRead va (time fd)); [|exact H].
    now destruct (imwrite outputDir (filename index fd) m).
  - exact H.
Qed.

Lemma exportRun_failed (schedule : list Event) : forall st,
  x_failed st = true -> x_failed (run st schedule) = true.
Proof.
  induction schedule as [|e schedule IH]; intros st H; [exact H|].
  change (x_failed (run (step st e) schedule) = true).
  apply IH, exportStep_failed, H.
Qed.

Lemma exportStep_files (st : ExportState Mat) (e : Event) (file : string * Mat) :
  In file (x_files st) -> In file (x_files (step st e)).
Proof.
  intros H. destruct e as [i | i |]; cbn [exportStep].
  - destruct (List.length toExport <=? i)%nat; [exact H|].
    now destruct (x_cancelled st || x_failed st).
  - destruct (existsb (Nat.eqb i) (x_inflight st)); [|exact H].
    destruct (nth_error toExport i) as [[index fd]|]; [|exact H].
    destruct (seekRead va (time fd)); [|exact H].
    destruct (imwrite outputDir (filename index fd) m); [|exact H].
    cbn. apply in_or_app. now left.
  - exact H.
Qed.

Lemma exportRun_files (schedule : list Event) (file : string * Mat) : forall st,
  In file (x_files st) -> In file (x_files (run st schedule)).
Proof.
  induction schedule as [|e schedule IH]; intros st H; [exact H|].
  change (In file (x_files (run (step st e) schedule))).
  apply IH, exportStep_files, H.
Qed.

Lemma remove_nat_In (i j : nat) (l : list nat) :
  In j (remove_nat i l) <-> In j l /\ j <> i.
Proof.
  unfold remove_nat. rewrite filter_In, negb_true_iff, Nat.eqb_neq. tauto.
Qed.

Lemma exportStep_inflight (st : ExportState Mat) (e : Event) (j : nat) :
  e <> Write j -> In j (x_inflight st) -> In j (x_inflight (step st e)).
Proof.
  intros He H. destruct e as [i | i |]; cbn [exportStep].
  - destruct (List.length toExport <=? i)%nat; [exact H|].
    destruct (x_cancelled st || x_failed st); [exact H | now right].
  - assert (Hij : j <> i) by congruence.
    assert (Hr : In j (remove_nat i (x_inflight st))) by (apply remove_nat_In; auto).
    destruct (existsb (Nat.eqb i) (x_inflight st)); [|exact H].
    destruct (nth_error toExport i) as [[index fd]|]; [|exact Hr].
    destruct (seekRead va (time fd)); [|exact Hr].
    now destruct (imwrite outputDir (filename index fd) m).
  - exact H.
Qed.

Lemma exportRun_inflight (schedule : list Event) (j : nat) : forall st,
  ~ In (Write j) schedule -> In j (x_inflight st) ->
  In j (x_inflight (run st schedule)).
Proof.
  induction schedule as [|e schedule IH]; intros st Hn H; [exact H|].
  change (In j (x_inflight (run (step st e) schedule))).
  apply IH.
  - intro Hin. apply Hn. now right.
  - apply exportStep_inflight; [|exact H]. intros ->. apply Hn. now left.
Qed.

Lemma inflight_existsb (i : nat) (l : list nat) :
  In i l -> existsb (Nat.eqb i) l = true.
Proof.
  intros H. apply existsb_exists. exists i. split; [exact H | apply Nat.eqb_refl].
Qed.

(** A failing write raises [failed] for good. *)
Lemma write_fails (st : ExportState Mat) (i index : nat) (fd : FrameData Mat) (frame : Mat)
  (post : list Event) :
  In i (x_inflight st) ->
  nth_error toExport i = Some (index, fd) ->
  seekRead va (time fd) = Some frame ->
  imwrite outputDir (filename index fd) frame = false ->
  x_failed (run st (Write i :: post)) = true.
Proof.
  intros Hin Hn Hr Hw.
  change (x_failed (run (step st (Write i)) post) = true).
  apply exportRun_failed. cbn [exportStep].
  rewrite (inflight_existsb _ _ Hin), Hn, Hr, Hw. reflexivity.
Qed.

(** A unit in flight writes its file when its turn comes, whatever the
    flags have become in the meantime. *)
Lemma write_lands (st : ExportState Mat) (j index : nat) (fd : FrameData Mat) (frame : Mat)
  (before after : list Event) :
  In j (x_inflight st) ->
  ~ In (Write j) before ->
  nth_error toExport j = Some (index, fd) ->
  seekRead va (time fd) = Some frame ->
  imwrite outputDir (filename index fd) frame = true ->
  In (filename index fd, frame) (x_files (run st (before ++ Write j :: after))).
Proof.
  intros Hin Hb Hn Hr Hw. rewrite exportRun_app.
  pose proof (exportRun_inflight before j st Hb Hin) as Hin'.
  change (In (filename index fd, frame)
            (x_files (run (step (run st before) (Write j)) after))).
  apply exportRun_files. cbn [exportStep].
  rewrite (inflight_existsb _ _ Hin'), Hn, Hr, Hw. cbn.
  apply in_or_app. right. now left.
Qed.

(** Every file of the region is the image of an entry of [toExport], under
    the name made from that entry. *)
Lemma exportRun_names (schedule : list Event) (name : string) (frame : Mat) : forall st,
  In (name, frame) (x_files (run st schedule)) ->
  In (name, frame) (x_files st) \/
  exists i index fd,
    nth_error toExport i = Some (index, fd) /\
    seekRead va (time fd) = Some frame /\
    name = filename index fd.
Proof.
  induction schedule as [|e schedule IH]; intros st H; [now left|].
  change (In (name, frame) (x_files (run (step st e) schedule))) in H.
  destruct (IH _ H) as [H1 | H1]; [|now right].
  destruct e as [i | i |]; cbn [exportStep] in H1.
  - destruct (List.length toExport <=? i)%nat; [now left|].
    destruct (x_cancelled st || x_failed st); now left.
  - destruct (existsb (Nat.eqb i) (x_inflight st)); [|now left].
    destruct (nth_error toExport i) as [[index fd]|] eqn:En; [|now left].
    destruct (seekRead va (time fd)) as [m|] eqn:Er; [|now left].
    destruct (imwrite outputDir (filename index fd) m); [|now left].
    cbn in H1. apply in_app_or in H1. destruct H1 as [H1 | [H1 | []]]; [now left|].
    injection H1 as <- <-. right. exists i, index, fd. auto.
  - now left.
Qed.

End Region.

(** ** What a run returns *)

Lemma findOptimalFrames_total (fuel : nat) (va : VideoAnalyzer) (env : CancelEnv)
  (params : AnalysisParams) (allSamples outSelected : list (FrameData Mat)) :
  0 < intervalSec params -> 0 < searchStepSec params ->
  (searchFuel va params <= fuel)%nat ->
  exists ok out va',
    findOptimalFrames fuel va env params allSamples outSelected = Some (ok, out, va').
Proof.
  intros Hi Hs Hf. unfold findOptimalFrames.
  destruct (negb (cap_isOpened va)); [eauto|].
  destruct (Cpp.le (duration (videoInfo_ (resetCancel va))) 0); [eauto|].
  destruct (searchSlots_total fuel (resetCancel va) env params Hi Hs Hf)
    as (ts & rs & _ & Hrs & _).
  rewrite Hrs. eauto.
Qed.

(** Every entry of [outSelected] was stored by the unit of some target. *)
Lemma findOptimalFrames_out (fuel : nat) (va : VideoAnalyzer) (env : CancelEnv)
  (params : AnalysisParams) (allSamples outSelected : list (FrameData Mat))
  (ok : bool) (out : list (FrameData Mat)) (va' : VideoAnalyzer) (r : FrameData Mat) :
  cap_isOpened va = true ->
  findOptimalFrames fuel va env params allSamples outSelected = Some (ok, out, va') ->
  In r out ->
  hasThumbnail r = true /\
  exists targetTimes k targetT,
    gridTimes fuel 0 (duration (videoInfo_ va)) (intervalSec params) = Some targetTimes /\
    nth_error targetTimes k = Some targetT /\
    searchUnit fuel (resetCancel va) env params k targetT = Some r.
Proof.
  intros Ho Hrun Hin. unfold findOptimalFrames in Hrun. rewrite Ho in Hrun.
  cbn [negb] in Hrun.
  destruct (Cpp.le (duration (videoInfo_ (resetCancel va))) 0).
  { injection Hrun as _ <- _. destruct Hin. }
  destruct (searchSlots fuel (resetCancel va) env params) as [rs|] eqn:Ers; [|discriminate].
  injection Hrun as _ <- _. apply filter_In in Hin. destruct Hin as [Hin Ht].
  split; [exact Ht|].
  apply In_nth_error in Hin. destruct Hin as [k Hk].
  destruct (searchSlots_nth _ _ _ _ _ _ _ Ers Hk) as (ts & t & Hts & Hnt & Hu).
  exists ts, k, t. auto.
Qed.

Lemma analyzeFullVideo_total (fuel : nat) (va : VideoAnalyzer) (env : CancelEnv)
  (params : AnalysisParams) (outSamples : list (FrameData Mat)) :
  0 < sampleStepSec params ->
  (loopFuel 0 (duration (videoInfo_ va)) (sampleStepSec params) <= fuel)%nat ->
  exists ok out va',
    analyzeFullVideo fuel va env params outSamples = Some (ok, out, va').
Proof.
  intros Hs Hf. unfold analyzeFullVideo.
  destruct (negb (cap_isOpened va)); [eauto|].
  destruct (Cpp.le (duration (videoInfo_ (resetCancel va))) 0); [eauto|].
  destruct (sampleSlots_total fuel (resetCancel va) env params Hs Hf)
    as (ts & rs & _ & Hrs & _).
  rewrite Hrs. eauto.
Qed.

Lemma analyzeFullVideo_nonneg (fuel : nat) (va : VideoAnalyzer) (env : CancelEnv)
  (params : AnalysisParams) (outSamples : list (FrameData Mat))
  (ok : bool) (out : list (FrameData Mat)) (va' : VideoAnalyzer) :
  Forall (fun r => 0 <= sharpness r) outSamples ->
  analyzeFullVideo fuel va env params outSamples = Some (ok, out, va') ->
  Forall (fun r => 0 <= sharpness r) out.
Proof.
  intros H0 Hrun. unfold analyzeFullVideo in Hrun.
  destruct (negb (cap_isOpened va)).
  { injection Hrun as _ <- _. exact H0. }
  destruct (Cpp.le (duration (videoInfo_ (resetCancel va))) 0).
  { injection Hrun as _ <- _. constructor. }
  destruct (sampleSlots fuel (resetCancel va) env params) as [rs|]; [|discriminate].
  injection Hrun as _ <- _. apply Forall_forall. intros r Hin.
  apply filter_In in Hin. destruct Hin as [_ Hge]. apply Cpp_ge_iff in Hge. exact Hge.
Qed.

Lemma analyzeFullVideo_nonneg_open (fuel : nat) (va : VideoAnalyzer) (env : CancelEnv)
  (params : AnalysisParams) (outSamples : list (FrameData Mat))
  (ok : bool) (out : list (FrameData Mat)) (va' : VideoAnalyzer) :
  cap_isOpened va = true ->
  analyzeFullVideo fuel va env params outSamples = Some (ok, out, va') ->
  Forall (fun r => 0 <= sharpness r) out.
Proof.
  intros Ho Hrun. unfold analyzeFullVideo in Hrun. rewrite Ho in Hrun.
  cbn [negb] in Hrun.
  destruct (Cpp.le (duration (videoInfo_ (resetCancel va))) 0).
  { injection Hrun as _ <- _. constructor. }
  destruct (sampleSlots fuel (resetCancel va) env params) as [rs|]; [|discriminate].
  injection Hrun as _ <- _. apply Forall_forall. intros r Hin.
  apply filter_In in Hin. destruct Hin as [_ Hge]. apply Cpp_ge_iff in Hge. exact Hge.
Qed.

(** The outcome of a run is [!isCancelled()] as read after the region. *)
Lemma analyzeFullVideo_outcome (fuel : nat) (va : VideoAnalyzer) (env : CancelEnv)
  (params : AnalysisParams) (outSamples : list (FrameData Mat))
  (ok : bool) (out : list (FrameData Mat)) (va' : VideoAnalyzer) :
  cap_isOpened va = true -> 0 < duration (videoInfo_ va) ->
  analyzeFullVideo fuel va env params outSamples = Some (ok, out, va') ->
  ok = negb (requestedAtEnd env) /\ isCancelled va' = requestedAtEnd env.
Proof.
  intros Ho HD Hrun. unfold analyzeFullVideo in Hrun. rewrite Ho in Hrun.
  cbn [negb] in Hrun. apply Cpp_le_false_iff in HD.
  change (duration (videoInfo_ (resetCancel va))) with (duration (videoInfo_ va)) in Hrun.
  rewrite HD in Hrun.
  destruct (sampleSlots fuel (resetCancel va) env params); [|discriminate].
  injection Hrun as <- _ <-. unfold atEnd. now destruct (requestedAtEnd env).
Qed.

Lemma findOptimalFrames_outcome (fuel : nat) (va : VideoAnalyzer) (env : CancelEnv)
  (params : AnalysisParams) (allSamples outSelected : list (FrameData Mat))
  (ok : bool) (out : list (FrameData Mat)) (va' : VideoAnalyzer) :
  cap_isOpened va = true -> 0 < duration (videoInfo_ va) ->
  findOptimalFrames fuel va env params allSamples outSelected = Some (ok, out, va') ->
  ok = negb (requestedAtEnd env) /\ isCancelled va' = requestedAtEnd env.
Proof.
  intros Ho HD Hrun. unfold findOptimalFrames in Hrun. rewrite Ho in Hrun.
  cbn [negb] in Hrun. apply Cpp_le_false_iff in HD.
  change (duration (videoInfo_ (resetCancel va))) with (duration (videoInfo_ va)) in Hrun.
  rewrite HD in Hrun.
  destruct (searchSlots fuel (resetCancel va) env params); [|discriminate].
  injection Hrun as <- _ <-. unfold atEnd. now destruct (requestedAtEnd env).
Qed.

Lemma findOptimalFrames_boundary (fuel : nat) (va : VideoAnalyzer) (env : CancelEnv)
  (params : AnalysisParams) (allSamples outSelected : list (FrameData Mat))
  (ok ok' : bool) (out full : list (FrameData Mat)) (va' va'' : VideoAnalyzer) :
  cap_isOpened va = true -> atUnitBoundaries env ->
  findOptimalFrames fuel va env params allSamples outSelected = Some (ok, out, va') ->
  findOptimalFrames fuel va quiet params allSamples outSelected = Some (ok', full, va'') ->
  incl out full.
Proof.
  intros Ho Hb Hrun Hfull. unfold findOptimalFrames in Hrun, Hfull.
  rewrite Ho in Hrun, Hfull. cbn [negb] in Hrun, Hfull.
  destruct (Cpp.le (duration (videoInfo_ (resetCancel va))) 0).
  { injection Hrun as _ <- _. intros r []. }
  destruct (searchSlots fuel (resetCancel va) env params) as [rs|] eqn:Ers; [|discriminate].
  destruct (searchSlots fuel (resetCancel va) quiet params) as [fs|] eqn:Efs; [|discriminate].
  injection Hrun as _ <- _. injection Hfull as _ <- _.
  intros r Hin. apply filter_In in Hin. destruct Hin as [Hin Ht].
  apply filter_In. split; [|exact Ht].
  exact (searchSlots_boundary fuel (resetCancel va) env params rs fs
           eq_refl Hb Ers Efs r Hin Ht).
Qed.

Lemma findOptimalFrames_all_skipped (fuel : nat) (va : VideoAnalyzer) (env : CancelEnv)
  (params : AnalysisParams) (allSamples outSelected : list (FrameData Mat))
  (ok : bool) (out : list (FrameData Mat)) (va' : VideoAnalyzer) :
  cap_isOpened va = true -> (forall i, requested env i 0 = true) ->
  findOptimalFrames fuel va env params allSamples outSelected = Some (ok, out, va') ->
  out = [].
Proof.
  intros Ho Hall Hrun.
  destruct out as [|r out]; [reflexivity|]. exfalso.
  destruct (findOptimalFrames_out _ _ _ _ _ _ _ _ _ r Ho Hrun (or_introl eq_refl))
    as [Ht (ts & k & t & _ & _ & Hu)].
  unfold searchUnit, flagRead in Hu. rewrite Hall, orb_true_r in Hu.
  injection Hu as <-. discriminate.
Qed.

(** A skipped unit leaves [FrameData{}] in its slot, and that entry, whose
    sharpness is 0, passes the [sharpness >= 0] filter: it is part of the
    output of a cancelled [analyzeFullVideo]. *)
Lemma analyzeFullVideo_skipped_slot (fuel : nat) (va : VideoAnalyzer) (env : CancelEnv)
  (params : AnalysisParams) (outSamples : list (FrameData Mat))
  (ok : bool) (out : list (FrameData Mat)) (va' : VideoAnalyzer)
  (sampleTimes : list Q) (k : nat) (t : Q) :
  cap_isOpened va = true -> 0 < duration (videoInfo_ va) ->
  analyzeFullVideo fuel va env params outSamples = Some (ok, out, va') ->
  gridTimes fuel 0 (duration (videoInfo_ va)) (sampleStepSec params) = Some sampleTimes ->
  nth_error sampleTimes k = Some t ->
  requested env k 0 = true ->
  In FrameData_default out.
Proof.
  intros Ho HD Hrun Hts Hk Hreq. unfold analyzeFullVideo in Hrun. rewrite Ho in Hrun.
  cbn [negb] in Hrun. apply Cpp_le_false_iff in HD.
  change (duration (videoInfo_ (resetCancel va))) with (duration (videoInfo_ va)) in Hrun.
  rewrite HD in Hrun.
  destruct (sampleSlots fuel (resetCancel va) env params) as [rs|] eqn:Ers; [|discriminate].
  injection Hrun as _ <- _. apply filter_In. split; [|reflexivity].
  unfold sampleSlots in Ers.
  change (duration (videoInfo_ (resetCancel va))) with (duration (videoInfo_ va)) in Ers.
  rewrite Hts in Ers.
  destruct (forUnits_nth _ _ _ _ _ _ Ers Hk) as [b [Hb1 Hb2]].
  cbn in Hb2. unfold sampleUnit, flagRead in Hb2. rewrite Hreq, orb_true_r in Hb2.
  injection Hb2 as <-. eapply nth_error_In; eauto.
Qed.

(** ** Persistence *)

Lemma pairOf_loadFrame (va : VideoAnalyzer) (fn : Q * Q) :
  pairOf (loadFrame va fn) = fn.
Proof. now destruct fn. Qed.

Lemma map_pairOf_loadFrame (va : VideoAnalyzer) (l : list (Q * Q)) :
  map pairOf (map (loadFrame va) l) = l.
Proof.
  induction l as [|fn l IH]; cbn; [reflexivity|].
  now rewrite pairOf_loadFrame, IH.
Qed.

Lemma store_same (d : Disk) (p : string) (doc : ConfigDoc) :
  store d p doc p = Some doc.
Proof. unfold store. now rewrite String.eqb_refl. Qed.

(** What [saveConfig] leaves on disk is read back by [loadConfig] of an
    application showing the same video. *)
Lemma save_then_load (writable : string -> bool) (app app1 app' : App Mat) (disk disk1 : Disk) :
  saveConfig writable app disk = (true, app1, disk1) ->
  path (app_videoInfo_ app') = path (app_videoInfo_ app) ->
  exists app2,
    loadConfig app' disk1 = (true, app2) /\
    selectedFrames_ app2 =
      map (loadFrame (analyzer_ app'))
        (map pairOf (filter selected (selectedFrames_ app))) /\
    allSamples_ app2 =
      map (fun sn => mkFrame (fst sn) (snd sn) false None)
        (map pairOf (allSamples_ app)).
Proof.
  unfold saveConfig, loadConfig. intros Hs Hp. rewrite Hp.
  destruct (isEmptyString (path (app_videoInfo_ app))); [discriminate|].
  destruct (writable (getConfigPath (path (app_videoInfo_ app)))); [|discriminate].
  cbn [negb] in Hs. injection Hs as <- <-. rewrite store_same.
  cbn. eexists. split; [reflexivity|]. split; reflexivity.
Qed.

(** ** Selection management *)

Lemma count_fold (frames : list (FrameData Mat)) : forall count,
  fold_left (fun count f => if selected f then (count + 1)%Z else count) frames count
  = (count + Z.of_nat (List.length (filter selected frames)))%Z.
Proof.
  induction frames as [|fd frames IH]; intros count; cbn [fold_left filter].
  - cbn. lia.
  - rewrite IH. destruct (selected fd); cbn [List.length]; lia.
Qed.

Lemma getSelectedCount_filter (app : App Mat) :
  getSelectedCount app = Z.of_nat (List.length (filter selected (selectedFrames_ app))).
Proof. unfold getSelectedCount. now rewrite count_fold. Qed.

Lemma toggleAt_length (frames : list (FrameData Mat)) : forall n,
  List.length (toggleAt n frames) = List.length frames.
Proof.
  induction frames as [|fd frames IH]; intros [|n]; cbn; auto.
Qed.

Lemma toggleAt_twice (frames : list (FrameData Mat)) : forall n,
  toggleAt n (toggleAt n frames) = frames.
Proof.
  induction frames as [|fd frames IH]; intros [|n]; cbn; auto.
  - destruct fd as [t s b th]. cbn. now rewrite negb_involutive.
  - now rewrite IH.
Qed.

Lemma toggleAt_pairs (frames : list (FrameData Mat)) : forall n,
  map pairOf (toggleAt n frames) = map pairOf frames /\
  map thumbnail (toggleAt n frames) = map thumbnail frames.
Proof.
  induction frames as [|fd frames IH]; intros [|n]; cbn; auto.
  destruct (IH n) as [H1 H2]. now rewrite H1, H2.
Qed.

Lemma toggleAt_nth (frames : list (FrameData Mat)) : forall n k,
  nth_error (toggleAt n frames) k =
  if Nat.eqb k n
  then option_map
         (fun fd => mkFrame (time fd) (sharpness fd) (negb (selected fd)) (thumbnail fd))
         (nth_error frames k)
  else nth_error frames k.
Proof.
  induction frames as [|fd frames IH]; intros [|n] [|k];
    cbn [toggleAt nth_error Nat.eqb option_map]; auto.
  now destruct (Nat.eqb k n).
Qed.

Lemma toggleAt_count (frames : list (FrameData Mat)) : forall n fd,
  nth_error frames n = Some fd ->
  Z.of_nat (List.length (filter selected (toggleAt n frames))) =
  (Z.of_nat (List.length (filter selected frames)) +
   (if selected fd then -1 else 1))%Z.
Proof.
  induction frames as [|x frames IH]; intros [|n] fd Hn; cbn in Hn; try discriminate.
  - injection Hn as <-. cbn [toggleAt filter selected].
    destruct (selected x); cbn [negb List.length]; lia.
  - cbn [toggleAt filter]. specialize (IH n fd Hn).
    destruct (selected x); cbn [List.length]; lia.
Qed.

(** ** Binary search and sorted insertion *)

Lemma sorted_nth (frames : list (FrameData Mat)) :
  StronglySorted byTime frames ->
  forall i j a b, (i <= j)%nat ->
  nth_error frames i = Some a -> nth_error frames j = Some b -> time a <= time b.
Proof.
  induction 1 as [|x l Hs IH Hall]; intros i j a b Hij Hi Hj.
  - destruct i; discriminate.
  - destruct i as [|i]; destruct j as [|j]; cbn in Hi, Hj; try lia.
    + injection Hi as <-. injection Hj as <-. apply Qle_refl.
    + injection Hi as <-. apply nth_error_In in Hj.
      rewrite Forall_forall in Hall. exact (Hall _ Hj).
    + apply (IH i j a b); [lia | exact Hi | exact Hj].
Qed.

Lemma div2_lt (n : nat) : (0 < n)%nat -> (Nat.div2 n < n)%nat.
Proof. intros H. apply Nat.lt_div2, H. Qed.

(** The invariant of the search: everything before [first] is below [t],
    everything from [first + len] on is not. *)
Lemma lower_bound_loop_spec (frames : list (FrameData Mat)) (t : Q) :
  StronglySorted byTime frames ->
  forall fuel first len,
  (len <= fuel)%nat -> (first + len <= List.length frames)%nat ->
  (forall i a, (i < first)%nat -> nth_error frames i = Some a -> time a < t) ->
  (forall i a, (first + len <= i)%nat -> nth_error frames i = Some a -> t <= time a) ->
  let k := lower_bound_loop fuel frames t first len in
  (k <= List.length frames)%nat /\
  (forall i a, (i < k)%nat -> nth_error frames i = Some a -> time a < t) /\
  (forall i a, (k <= i)%nat -> nth_error frames i = Some a -> t <= time a).
Proof.
  intros Hs. induction fuel as [|fuel IH]; intros first len Hf Hlen Hlo Hhi; cbn zeta.
  - assert (len = O) by lia. subst len. cbn [lower_bound_loop].
    split; [lia|]. split; [exact Hlo|]. intros i a Hi. apply Hhi. lia.
  - cbn [lower_bound_loop]. destruct len as [|len'].
    { split; [lia|]. split; [exact Hlo|]. intros i a Hi. apply Hhi. lia. }
    remember (S len') as len eqn:El.
    assert (Hh : (Nat.div2 len < len)%nat) by (apply div2_lt; lia).
    remember (Nat.div2 len) as half eqn:Eh. clear Eh.
    destruct (nth_error frames (first + half)) as [m|] eqn:Em.
    2:{ apply nth_error_None in Em. lia. }
    destruct (Cpp.gt t (time m)) eqn:Eg.
    + apply Cpp_gt_iff in Eg. apply IH; try lia.
      * intros i a Hi Ha.
        assert (Hle : time a <= time m).
        { apply (sorted_nth frames Hs i (first + half) a m); [lia | exact Ha | exact Em]. }
        lra.
      * intros i a Hi Ha. apply (Hhi i a); [lia | exact Ha].
    + apply Cpp_gt_false_iff in Eg. apply IH; try lia.
      * exact Hlo.
      * intros i a Hi Ha.
        assert (Hle : time m <= time a).
        { apply (sorted_nth frames Hs (first + half) i m a); [lia | exact Em | exact Ha]. }
        lra.
Qed.

Lemma lower_bound_spec (frames : list (FrameData Mat)) (t : Q) :
  StronglySorted byTime frames ->
  (lower_bound frames t <= List.length frames)%nat /\
  (forall a, In a (firstn (lower_bound frames t) frames) -> time a < t) /\
  (forall a, In a (skipn (lower_bound frames t) frames) -> t <= time a).
Proof.
  intros Hs. unfold lower_bound.
  destruct (lower_bound_loop_spec frames t Hs (List.length frames) 0 (List.length frames))
    as (Hk & Hlo & Hhi); try lia.
  - intros i a Hi Ha. apply nth_error_None in Hi. congruence.
  - cbn zeta in *.
    set (k := lower_bound_loop (List.length frames) frames t 0 (List.length frames)) in *.
    split; [exact Hk|]. split.
    + intros a Hin. apply In_nth_error in Hin. destruct Hin as [i Hi].
      assert (Hik : (i < k)%nat).
      { assert (Hlt : (i < List.length (firstn k frames))%nat)
          by (apply nth_error_Some; congruence).
        rewrite length_firstn in Hlt. lia. }
      rewrite nth_error_firstn in Hi.
      destruct (Nat.ltb_spec i k); [|lia]. eauto.
    + intros a Hin. apply In_nth_error in Hin. destruct Hin as [i Hi].
      rewrite nth_error_skipn in Hi. apply (Hhi (k + i)%nat a); [lia | exact Hi].
Qed.

Lemma sorted_insert (l1 l2 : list (FrameData Mat)) (x : FrameData Mat) :
  StronglySorted byTime (l1 ++ l2) ->
  (forall a, In a l1 -> time a <= time x) ->
  (forall b, In b l2 -> time x <= time b) ->
  StronglySorted byTime (l1 ++ x :: l2).
Proof.
  induction l1 as [|a l1 IH]; cbn; intros Hs H1 H2.
  - constructor; [exact Hs|]. apply Forall_forall. exact H2.
  - apply StronglySorted_inv in Hs. destruct Hs as [Hs Hall].
    constructor.
    + apply IH; auto.
    + rewrite Forall_forall in *. intros b Hb.
      apply in_app_or in Hb. destruct Hb as [Hb | [<- | Hb]].
      * apply Hall. apply in_or_app. now left.
      * apply H1. now left.
      * apply Hall. apply in_or_app. now right.
Qed.

(** ** Order of the emitted entries *)

Lemma filter_sorted (keep : FrameData Mat -> bool) (results : list (FrameData Mat)) :
  (forall i j a b, (i < j)%nat ->
     nth_error results i = Some a -> nth_error results j = Some b ->
     keep a = true -> keep b = true -> time a < time b) ->
  StronglySorted beforeTime (filter keep results).
Proof.
  induction results as [|a rs IH]; intros H; cbn [filter].
  - constructor.
  - assert (Hrs : StronglySorted beforeTime (filter keep rs)).
    { apply IH. intros i j x y Hij Hi Hj. apply (H (S i) (S j) x y); [lia | exact Hi | exact Hj]. }
    destruct (keep a) eqn:Ea; [|exact Hrs].
    constructor; [exact Hrs|].
    apply Forall_forall. intros b Hb. apply filter_In in Hb. destruct Hb as [Hb Hk].
    apply In_nth_error in Hb. destruct Hb as [j Hj].
    apply (H 0%nat (S j) a b); [lia | reflexivity | exact Hj | exact Ea | exact Hk].
Qed.

Lemma filter_length_le {A : Type} (keep : A -> bool) (l : list A) :
  (List.length (filter keep l) <= List.length l)%nat.
Proof.
  induction l as [|a l IH]; cbn; [lia|]. destruct (keep a); cbn; lia.
Qed.

Lemma grid_position_lt (i j : nat) (step : Q) :
  0 < step -> (i < j)%nat ->
  inject_Z (Z.of_nat i) * step < inject_Z (Z.of_nat j) * step.
Proof.
  intros Hs Hij. apply Qmult_lt_compat_r; [exact Hs|].
  rewrite <- Zlt_Qlt. lia.
Qed.

Lemma grid_position_step (i j : nat) (step : Q) :
  0 < step -> (i < j)%nat ->
  inject_Z (Z.of_nat i) * step + step <= inject_Z (Z.of_nat j) * step.
Proof.
  intros Hs Hij.
  assert (H : inject_Z (Z.of_nat i) + 1 <= inject_Z (Z.of_nat j)).
  { change 1 with (inject_Z 1). rewrite <- inject_Z_plus, <- Zle_Qle. lia. }
  apply (Qmult_le_compat_r _ _ step) in H; [|apply Qlt_le_weak, Hs].
  lra.
Qed.

Lemma gridTimes_length (fuel : nat) (D step : Q) (l : list Q) :
  0 < step -> gridTimes fuel 0 D step = Some l ->
  List.length l = itersLeft 0 D step.
Proof.
  intros Hs Hl.
  destruct (gridTimes_total (S (itersLeft 0 D step) + fuel) 0 D step Hs) as (l' & Hl' & Hn);
    [lia|].
  apply (gridTimes_fuel_mono fuel (S (itersLeft 0 D step) + fuel)) in Hl; [|lia].
  congruence.
Qed.

(** ** What a quiet full scan emits *)

Lemma sampleUnit_kept (va : VideoAnalyzer) (env : CancelEnv) (params : AnalysisParams)
  (i : nat) (t : Q) :
  flagRead va env i 0 = false ->
  Cpp.ge (sharpness (sampleUnit va env params i t)) 0 = true ->
  exists frame,
    seekRead va t = Some frame /\
    sampleUnit va env params i t =
      mkFrame t (calculateSharpness frame (algorithm params)) false None.
Proof.
  unfold sampleUnit. intros -> Hk.
  destruct (seekRead va t) as [frame|].
  - exists frame. split; reflexivity.
  - cbn in Hk. discriminate.
Qed.

Lemma analyzeFullVideo_quiet (fuel : nat) (va : VideoAnalyzer) (params : AnalysisParams)
  (outSamples : list (FrameData Mat)) (ok : bool) (out : list (FrameData Mat))
  (va' : VideoAnalyzer) :
  cap_isOpened va = true -> 0 < duration (videoInfo_ va) -> 0 < sampleStepSec params ->
  analyzeFullVideo fuel va quiet params outSamples = Some (ok, out, va') ->
  ok = true /\ isCancelled va' = false /\
  StronglySorted beforeTime out /\
  forall r, In r out ->
    selected r = false /\ thumbnail r = None /\ 0 <= sharpness r /\
    time r <= duration (videoInfo_ va) /\
    exists (k : nat) (frame : Mat),
      time r == inject_Z (Z.of_nat k) * sampleStepSec params /\
      seekRead va (time r) = Some frame /\
      sharpness r = calculateSharpness frame (algorithm params).
Proof.
  intros Hopen HD Hstep Hrun.
  destruct (analyzeFullVideo_outcome fuel va quiet params outSamples ok out va'
              Hopen HD Hrun) as [Hok Hc].
  split; [exact Hok|]. split; [exact Hc|].
  unfold analyzeFullVideo in Hrun. rewrite Hopen in Hrun. cbn [negb] in Hrun.
  cbn zeta in Hrun.
  destruct (Cpp.le (duration (videoInfo_ (resetCancel va))) 0) eqn:Ed.
  { apply Cpp_le_iff in Ed. cbn in Ed. lra. }
  destruct (sampleSlots fuel (resetCancel va) quiet params) as [results|] eqn:Es;
    [|discriminate].
  injection Hrun as _ <- _.
  assert (Hunit : forall k r, nth_error results k = Some r ->
            Cpp.ge (sharpness r) 0 = true ->
            exists t frame,
              t == inject_Z (Z.of_nat k) * sampleStepSec params /\
              t <= duration (videoInfo_ va) /\
              seekRead va t = Some frame /\
              r = mkFrame t (calculateSharpness frame (algorithm params)) false None).
  { intros k r Hk Hkeep.
    destruct (sampleSlots_nth fuel (resetCancel va) quiet params results k r Es Hk)
      as (sampleTimes & t & Hg & Ht & Hr).
    destruct (gridTimes_nth _ _ _ _ _ _ _ Hg Ht) as [Heq Hle].
    subst r. apply sampleUnit_kept in Hkeep; [|reflexivity].
    destruct Hkeep as (frame & Hread & Hr).
    exists t, frame. split; [lra|]. split; [exact Hle|]. split; [exact Hread | exact Hr]. }
  split.
  - apply filter_sorted. intros i j a b Hij Hi Hj Ha Hb.
    destruct (Hunit i a Hi Ha) as (ta & fa & Hta & _ & _ & ->).
    destruct (Hunit j b Hj Hb) as (tb & fb & Htb & _ & _ & ->).
    cbn [time]. pose proof (grid_position_lt i j _ Hstep Hij). lra.
  - intros r Hr. apply filter_In in Hr. destruct Hr as [Hin Hkeep].
    apply In_nth_error in Hin. destruct Hin as [k Hk].
    destruct (Hunit k r Hk Hkeep) as (t & frame & Ht & Hle & Hread & ->).
    cbn [selected thumbnail sharpness time].
    split; [reflexivity|]. split; [reflexivity|].
    split; [apply Cpp_ge_iff in Hkeep; exact Hkeep|].
    split; [exact Hle|]. exists k, frame. split; [exact Ht|]. split; [exact Hread | reflexivity].
Qed.

(** ** What the optimizer emits *)

Lemma emit_selected (best : Best Mat) :
  hasThumbnail (emit best) = true -> selected (emit best) = true.
Proof.
  unfold emit. destruct (bestFrame best); [reflexivity | discriminate].
Qed.

Lemma searchUnit_selected (fuel : nat) (va : VideoAnalyzer) (env : CancelEnv)
  (params : AnalysisParams) (i : nat) (targetT : Q) (r : FrameData Mat) :
  searchUnit fuel va env params i targetT = Some r ->
  hasThumbnail r = true -> selected r = true.
Proof.
  unfold searchUnit. destruct (flagRead va env i 0).
  - intros [= <-]. discriminate.
  - destruct (scanWindow _ _ _ _ _ _ _ _ _ _) as [best|]; cbn; [|discriminate].
    intros [= <-]. apply emit_selected.
Qed.

Lemma findOptimalFrames_slots (fuel : nat) (va : VideoAnalyzer) (env : CancelEnv)
  (params : AnalysisParams) (allSamples outSelected : list (FrameData Mat))
  (ok : bool) (out : list (FrameData Mat)) (va' : VideoAnalyzer) :
  cap_isOpened va = true -> 0 < duration (videoInfo_ va) ->
  findOptimalFrames fuel va env params allSamples outSelected = Some (ok, out, va') ->
  exists results,
    searchSlots fuel (resetCancel va) env params = Some results /\
    out = filter hasThumbnail results.
Proof.
  intros Hopen HD Hrun.
  unfold findOptimalFrames in Hrun. rewrite Hopen in Hrun. cbn [negb] in Hrun.
  cbn zeta in Hrun.
  destruct (Cpp.le (duration (videoInfo_ (resetCancel va))) 0) eqn:Ed.
  { apply Cpp_le_iff in Ed. cbn in Ed. lra. }
  destruct (searchSlots fuel (resetCancel va) env params) as [results|] eqn:Es;
    [|discriminate].
  injection Hrun as _ <- _. exists results. split; reflexivity.
Qed.

Lemma findOptimalFrames_shape (fuel : nat) (va : VideoAnalyzer) (env : CancelEnv)
  (params : AnalysisParams) (allSamples outSelected : list (FrameData Mat))
  (ok : bool) (out : list (FrameData Mat)) (va' : VideoAnalyzer) :
  cap_isOpened va = true -> 0 < duration (videoInfo_ va) -> 0 < intervalSec params ->
  findOptimalFrames fuel va env params allSamples outSelected = Some (ok, out, va') ->
  (List.length out <=
   Z.to_nat (Qfloor (duration (videoInfo_ va) / intervalSec params)) + 1)%nat /\
  Forall (fun r => selected r = true /\ hasThumbnail r = true) out.
Proof.
  intros Hopen HD Hint Hrun.
  destruct (findOptimalFrames_slots _ _ _ _ _ _ _ _ _ Hopen HD Hrun) as (results & Es & ->).
  split.
  - pose proof (filter_length_le hasThumbnail results) as Hle.
    unfold searchSlots in Es.
    destruct (gridTimes fuel 0 (duration (videoInfo_ (resetCancel va))) (intervalSec params))
      as [targetTimes|] eqn:Eg; [|discriminate].
    apply forUnits_length in Es.
    apply gridTimes_length in Eg; [|exact Hint].
    cbn in Eg. rewrite itersLeft_from_zero in Eg by assumption. lia.
  - apply Forall_forall. intros r Hr. apply filter_In in Hr. destruct Hr as [Hin Hth].
    split; [|exact Hth].
    apply In_nth_error in Hin. destruct Hin as [k Hk].
    destruct (searchSlots_nth _ _ _ _ _ _ _ Es Hk) as (tt & targetT & _ & _ & Hu).
    exact (searchUnit_selected _ _ _ _ _ _ _ Hu Hth).
Qed.

Lemma findOptimalFrames_sorted (fuel : nat) (va : VideoAnalyzer) (env : CancelEnv)
  (params : AnalysisParams) (allSamples outSelected : list (FrameData Mat))
  (ok : bool) (out : list (FrameData Mat)) (va' : VideoAnalyzer) :
  cap_isOpened va = true -> 0 < searchStepSec params -> 0 <= searchWindowSec params ->
  2 * searchWindowSec params + eps < intervalSec params ->
  findOptimalFrames fuel va env params allSamples outSelected = Some (ok, out, va') ->
  StronglySorted beforeTime out.
Proof.
  intros Hopen Hstep Hw Hgap Hrun.
  destruct (Qlt_le_dec 0 (duration (videoInfo_ va))) as [HD | HD].
  2:{ unfold findOptimalFrames in Hrun. rewrite Hopen in Hrun. cbn [negb] in Hrun.
      cbn zeta in Hrun.
      assert (Ed : Cpp.le (duration (videoInfo_ (resetCancel va))) 0 = true)
        by (apply Cpp_le_iff; exact HD).
      rewrite Ed in Hrun. injection Hrun as _ <- _. constructor. }
  destruct (findOptimalFrames_slots _ _ _ _ _ _ _ _ _ Hopen HD Hrun) as (results & Es & ->).
  assert (Hint : 0 < intervalSec params) by (unfold eps in Hgap; lra).
  apply filter_sorted. intros i j a b Hij Hi Hj Ha Hb.
  destruct (searchSlots_nth _ _ _ _ _ _ _ Es Hi) as (tt & Ti & Hg & Hti & Hui).
  destruct (searchSlots_nth _ _ _ _ _ _ _ Es Hj) as (tt' & Tj & Hg' & Htj & Huj).
  rewrite Hg in Hg'. injection Hg' as <-.
  destruct (gridTimes_nth _ _ _ _ _ _ _ Hg Hti) as [Hei _].
  destruct (gridTimes_nth _ _ _ _ _ _ _ Hg Htj) as [Hej _].
  destruct (searchUnit_window _ _ _ _ _ _ _ Hstep Hui Ha) as [_ Hai].
  destruct (searchUnit_window _ _ _ _ _ _ _ Hstep Huj Hb) as [Hbj _].
  pose proof (Cpp_min_le_l (duration (videoInfo_ (resetCancel va)))
                (Ti + searchWindowSec params)) as Hmin.
  assert (Hend : endOf (resetCancel va) params Ti <= Ti + searchWindowSec params).
  { unfold endOf, Cpp.min.
    destruct (Cpp.gt (duration (videoInfo_ (resetCancel va))) (Ti + searchWindowSec params))
      eqn:E.
    - apply Qle_refl.
    - apply Cpp_gt_false_iff in E. exact E. }
  assert (Hstart : Tj - searchWindowSec params <= startOf params Tj).
  { unfold startOf, Cpp.max.
    destruct (Cpp.gt (Tj - searchWindowSec params) 0) eqn:E.
    - apply Qle_refl.
    - apply Cpp_gt_false_iff in E. exact E. }
  pose proof (grid_position_step i j _ Hint Hij) as Hpos.
  unfold beforeTime. lra.
Qed.

Lemma scanned_single (fuel : nat) (va : VideoAnalyzer) (env : CancelEnv)
  (i j : nat) (endT step ts : Q) (ps : list Q) (p : Q) :
  0 <= step -> endT + eps < ts + step ->
  scanned fuel va env i j endT step ts = Some ps -> In p ps -> p = ts.
Proof.
  intros Hs Hover Hps Hin. destruct fuel as [|fuel]; [discriminate|].
  cbn [scanned] in Hps.
  destruct (Cpp.le ts (endT + eps) && negb (flagRead va env i j)).
  - destruct (scanned fuel va env i (S j) endT step (ts + step)) as [ps'|] eqn:E;
      [|discriminate].
    cbn in Hps. injection Hps as <-. destruct Hin as [<- | Hin]; [reflexivity|].
    destruct (scanned_bounds _ _ _ _ _ _ _ _ _ _ Hs E Hin) as [H1 H2]. lra.
  - injection Hps as <-. destruct Hin.
Qed.

Lemma findOptimalFrames_zero_window (fuel : nat) (va : VideoAnalyzer) (env : CancelEnv)
  (params : AnalysisParams) (allSamples outSelected : list (FrameData Mat))
  (ok : bool) (out : list (FrameData Mat)) (va' : VideoAnalyzer) :
  cap_isOpened va = true -> searchWindowSec params == 0 -> eps < searchStepSec params ->
  0 < intervalSec params ->
  findOptimalFrames fuel va env params allSamples outSelected = Some (ok, out, va') ->
  forall r, In r out ->
    exists (k : nat) (frame : Mat),
      time r == inject_Z (Z.of_nat k) * intervalSec params /\
      seekRead va (time r) = Some frame /\
      sharpness r = calculateSharpness frame (algorithm params).
Proof.
  intros Hopen Hw Hstep Hint Hrun r Hr.
  assert (Hs0 : 0 < searchStepSec params) by (unfold eps in Hstep; lra).
  destruct (findOptimalFrames_out _ _ _ _ _ _ _ _ _ _ Hopen Hrun Hr)
    as (Hth & tt & k & T & Hg & Hk & Hu).
  destruct (gridTimes_nth _ _ _ _ _ _ _ Hg Hk) as [HT HTD].
  destruct (searchUnit_argmax _ _ _ _ _ _ _ Hs0 Hu Hth)
    as (ps & frame & Hps & Hin & Hread & Hsh & _).
  unfold scannedFor in Hps.
  assert (HT0 : 0 <= T).
  { assert (0 <= inject_Z (Z.of_nat k)) by (rewrite <- (Zle_Qle 0); lia).
    assert (0 <= inject_Z (Z.of_nat k) * intervalSec params)
      by (apply Qmult_le_0_compat; [assumption | apply Qlt_le_weak; assumption]).
    lra. }
  assert (Hstart : startOf params T == T).
  { unfold startOf, Cpp.max.
    destruct (Cpp.gt (T - searchWindowSec params) 0) eqn:E.
    - lra.
    - apply Cpp_gt_false_iff in E. lra. }
  assert (Hend : endOf (resetCancel va) params T <= T).
  { unfold endOf, Cpp.min.
    destruct (Cpp.gt (duration (videoInfo_ (resetCancel va))) (T + searchWindowSec params))
      eqn:E.
    - lra.
    - apply Cpp_gt_false_iff in E. lra. }
  assert (Ht : time r = startOf params T).
  { apply (scanned_single fuel (resetCancel va) env k 1
             (endOf (resetCancel va) params T) (searchStepSec params)
             (startOf params T) ps (time r) (Qlt_le_weak _ _ Hs0));
      [lra | exact Hps | exact Hin]. }
  exists k, frame. split; [rewrite Ht; lra|]. split; [exact Hread | exact Hsh].
Qed.

(** ** Steps that never advance *)

Lemma analyzeFullVideo_diverges (fuel : nat) (va : VideoAnalyzer) (env : CancelEnv)
  (params : AnalysisParams) (outSamples : list (FrameData Mat)) :
  cap_isOpened va = true -> 0 < duration (videoInfo_ va) -> sampleStepSec params <= 0 ->
  analyzeFullVideo fuel va env params outSamples = None.
Proof.
  intros Hopen HD Hstep. unfold analyzeFullVideo. rewrite Hopen. cbn [negb]. cbn zeta.
  destruct (Cpp.le (duration (videoInfo_ (resetCancel va))) 0) eqn:Ed.
  { apply Cpp_le_iff in Ed. cbn in Ed. lra. }
  unfold sampleSlots. rewrite gridTimes_diverges; [reflexivity | exact Hstep |].
  cbn. apply Qlt_le_weak, HD.
Qed.

Lemma findOptimalFrames_diverges (fuel : nat) (va : VideoAnalyzer) (env : CancelEnv)
  (params : AnalysisParams) (allSamples outSelected : list (FrameData Mat)) :
  cap_isOpened va = true -> 0 < duration (videoInfo_ va) -> intervalSec params <= 0 ->
  findOptimalFrames fuel va env params allSamples outSelected = None.
Proof.
  intros Hopen HD Hstep. unfold findOptimalFrames. rewrite Hopen. cbn [negb]. cbn zeta.
  destruct (Cpp.le (duration (videoInfo_ (resetCancel va))) 0) eqn:Ed.
  { apply Cpp_le_iff in Ed. cbn in Ed. lra. }
  unfold searchSlots. rewrite gridTimes_diverges; [reflexivity | exact Hstep |].
  cbn. apply Qlt_le_weak, HD.
Qed.

(** ** The exporter under a single worker, and cancelled before it starts *)

Lemma firstn_snoc {A : Type} (l : list A) : forall k x,
  nth_error l k = Some x -> firstn (S k) l = firstn k l ++ [x].
Proof.
  induction l as [|a l IH]; intros [|k] x H; cbn in H; try discriminate.
  - injection H as <-. destruct l; reflexivity.
  - cbn [firstn app]. f_equal. exact (IH k x H).
Qed.

Lemma sequential_S (k : nat) : sequential (S k) = sequential k ++ [Start k; Write k].
Proof.
  unfold sequential. rewrite seq_S, flat_map_app. cbn. reflexivity.
Qed.

Lemma exportRun_sequential (va : VideoAnalyzer) (outputDir : string)
  (toExport : list (nat * FrameData Mat)) :
  (forall i index fd frame,
     nth_error toExport i = Some (index, fd) -> seekRead va (time fd) = Some frame ->
     imwrite outputDir (filename index fd) frame = true) ->
  forall k, (k <= List.length toExport)%nat ->
  exportRun va outputDir toExport (mkExport false false [] []) (sequential k) =
  mkExport false false [] (flat_map (unitFiles va) (firstn k toExport)).
Proof.
  intros Hw. induction k as [|k IH]; intros Hk.
  - reflexivity.
  - rewrite sequential_S. unfold exportRun in *. rewrite fold_left_app, IH by lia.
    destruct (nth_error toExport k) as [[index fd]|] eqn:En.
    2:{ apply nth_error_None in En. lia. }
    rewrite (firstn_snoc _ _ _ En), flat_map_app. cbn [flat_map].
    rewrite app_nil_r.
    cbn [fold_left exportStep x_cancelled x_failed x_inflight x_files orb].
    assert (Hlt : (List.length toExport <=? k)%nat = false) by (apply Nat.leb_gt; lia).
    rewrite Hlt. cbn [x_cancelled x_failed x_inflight x_files existsb].
    rewrite Nat.eqb_refl. cbn [orb]. rewrite En.
    unfold remove_nat. cbn [filter]. rewrite Nat.eqb_refl. cbn [negb].
    unfold unitFiles. cbn [fst snd].
    destruct (seekRead va (time fd)) as [frame|] eqn:Er.
    + rewrite (Hw k index fd frame En Er). reflexivity.
    + now rewrite app_nil_r.
Qed.

Lemma exportFrames_sequential (va : VideoAnalyzer) (frames : list (FrameData Mat))
  (outputDir : string) :
  cap_isOpened va = true ->
  (forall i index fd frame,
     nth_error (collect frames []) i = Some (index, fd) ->
     seekRead va (time fd) = Some frame ->
     imwrite outputDir (filename index fd) frame = true) ->
  exportFrames va (sequential (List.length (collect frames []))) frames outputDir =
  (true, flat_map (unitFiles va) (collect frames []), resetCancel va).
Proof.
  intros Hopen Hw. unfold exportFrames. rewrite Hopen. cbn [negb]. cbn zeta.
  unfold exportRegion. cbn [isCancelled resetCancel cancelled_].
  rewrite (exportRun_sequential (resetCancel va) outputDir (collect frames []) Hw)
    by apply Nat.le_refl.
  rewrite firstn_all. reflexivity.
Qed.

Lemma exportRun_stopped (va : VideoAnalyzer) (outputDir : string)
  (toExport : list (nat * FrameData Mat)) (schedule : list Event) :
  forall st, x_cancelled st = true -> x_inflight st = [] ->
  exportRun va outputDir toExport st schedule = st.
Proof.
  unfold exportRun. induction schedule as [|e schedule IH]; intros st Hc Hi.
  - reflexivity.
  - cbn [fold_left].
    assert (Hs : exportStep va outputDir toExport st e = st).
    { destruct e as [i | i |]; cbn [exportStep].
      - rewrite Hc. cbn [orb]. now destruct (List.length toExport <=? i)%nat.
      - rewrite Hi. reflexivity.
      - destruct st as [c f infl fl]. cbn in *. now subst. }
    rewrite Hs. apply IH; assumption.
Qed.

Lemma exportFrames_cancel_first (va : VideoAnalyzer) (schedule : list Event)
  (frames : list (FrameData Mat)) (outputDir : string) :
  cap_isOpened va = true ->
  exportFrames va (CancelRequest :: schedule) frames outputDir =
  (false, [], cancel (resetCancel va)).
Proof.
  intros Hopen. unfold exportFrames. rewrite Hopen. cbn [negb]. cbn zeta.
  unfold exportRegion, exportRun. cbn [fold_left exportStep x_failed x_inflight x_files].
  change (fold_left ?f ?l ?s) with (exportRun (resetCancel va) outputDir (collect frames []) s l).
  rewrite exportRun_stopped by reflexivity. reflexivity.
Qed.

Lemma exportStep_flag (va : VideoAnalyzer) (outputDir : string)
  (toExport : list (nat * FrameData Mat)) (st : ExportState Mat) (e : Event) :
  e <> CancelRequest ->
  x_cancelled (exportStep va outputDir toExport st e) = x_cancelled st.
Proof.
  intros He. destruct e as [i | i |]; cbn [exportStep]; [| |congruence].
  - destruct (List.length toExport <=? i)%nat; [reflexivity|].
    now destruct (x_cancelled st || x_failed st).
  - destruct (existsb (Nat.eqb i) (x_inflight st)); [|reflexivity].
    destruct (nth_error toExport i) as [[index fd]|]; [|reflexivity].
    destruct (seekRead va (time fd)) as [frame|]; [|reflexivity].
    now destruct (imwrite outputDir (filename index fd) frame).
Qed.

Lemma exportRun_flag (va : VideoAnalyzer) (outputDir : string)
  (toExport : list (nat * FrameData Mat)) (schedule : list Event) :
  forall st, ~ In CancelRequest schedule ->
  x_cancelled (exportRun va outputDir toExport st schedule) = x_cancelled st.
Proof.
  unfold exportRun. induction schedule as [|e schedule IH]; intros st Hn.
  - reflexivity.
  - cbn [fold_left]. rewrite IH.
    + apply exportStep_flag. intros ->. apply Hn. now left.
    + intros Hin. apply Hn. now right.
Qed.

(** ** The marker nearest to a click *)

Lemma toggleAt_times (frames : list (FrameData Mat)) : forall n,
  map time (toggleAt n frames) = map time frames.
Proof.
  induction frames as [|fd frames IH]; intros [|n]; cbn; auto.
  now rewrite IH.
Qed.

Lemma closestLoop_times (l1 : list (FrameData Mat)) : forall l2 i h idx d,
  map time l1 = map time l2 ->
  closestLoop l1 i h idx d = closestLoop l2 i h idx d.
Proof.
  induction l1 as [|a l1 IH]; intros [|b l2] i h idx d H; cbn in H; try discriminate.
  - reflexivity.
  - injection H as Ht Hrest. cbn [closestLoop]. rewrite Ht.
    destruct (Cpp.gt d (Qabs (Cpp.binary64 (time b - h)))); apply IH; exact Hrest.
Qed.

Lemma closestLoop_spec (frames : list (FrameData Mat)) (h : Q) : forall i idx d,
  (closestLoop frames i h idx d = idx /\
   forall fd, In fd frames -> d <= Qabs (Cpp.binary64 (time fd - h))) \/
  (exists k fd,
     closestLoop frames i h idx d = (i + Z.of_nat k)%Z /\
     nth_error frames k = Some fd /\
     Qabs (Cpp.binary64 (time fd - h)) < d /\
     (forall fd', In fd' frames -> Qabs (Cpp.binary64 (time fd - h)) <= Qabs (Cpp.binary64 (time fd' - h))) /\
     (forall j fd', (j < k)%nat -> nth_error frames j = Some fd' ->
        Qabs (Cpp.binary64 (time fd - h)) < Qabs (Cpp.binary64 (time fd' - h)))).
Proof.
  induction frames as [|a frames IH]; intros i idx d.
  - left. split; [reflexivity | intros fd []].
  - cbn [closestLoop]. destruct (Cpp.gt d (Qabs (Cpp.binary64 (time a - h)))) eqn:E.
    + apply Cpp_gt_iff in E. right.
      destruct (IH (i + 1)%Z i (Qabs (Cpp.binary64 (time a - h))))
        as [[Hr Hall] | (k & fd & Hr & Hn & Hlt & Hmin & Hfirst)].
      * exists 0%nat, a. rewrite Hr. split; [lia|]. split; [reflexivity|].
        split; [exact E|]. split.
        -- intros fd' [<- | Hin]; [apply Qle_refl | apply Hall, Hin].
        -- intros j fd' Hj. lia.
      * exists (S k), fd. rewrite Hr. split; [lia|]. split; [exact Hn|].
        split; [lra|]. split.
        -- intros fd' [<- | Hin]; [lra | apply Hmin, Hin].
        -- intros [|j] fd' Hj Hnj; cbn in Hnj.
           ++ injection Hnj as <-. exact Hlt.
           ++ apply (Hfirst j fd'); [lia | exact Hnj].
    + apply Cpp_gt_false_iff in E.
      destruct (IH (i + 1)%Z idx d)
        as [[Hr Hall] | (k & fd & Hr & Hn & Hlt & Hmin & Hfirst)].
      * left. split; [exact Hr|]. intros fd [<- | Hin]; [exact E | apply Hall, Hin].
      * right. exists (S k), fd. rewrite Hr. split; [lia|]. split; [exact Hn|].
        split; [exact Hlt|]. split.
        -- intros fd' [<- | Hin]; [lra | apply Hmin, Hin].
        -- intros [|j] fd' Hj Hnj; cbn in Hnj.
           ++ injection Hnj as <-. lra.
           ++ apply (Hfirst j fd'); [lia | exact Hnj].
Qed.

(** ** The command line's export loop *)

Lemma cliExport_spec (va : VideoAnalyzer) (outDir : string) :
  forall (selectedFrames : list (FrameData Mat)) (outIndex : nat)
         (files : list (string * Mat)) (exit : Exit) (files' : list (string * Mat)),
  cliExport va outDir selectedFrames outIndex files = (exit, files') ->
  exists new,
    files' = files ++ new /\
    (forall k name frame, nth_error new k = Some (name, frame) ->
       exists fd, In fd selectedFrames /\ name = filename (outIndex + k) fd /\
                  getFrameAt va (time fd) = Some frame) /\
    ((exit = ExitCode 0 /\
      forall fd frame, In fd selectedFrames -> getFrameAt va (time fd) = Some frame ->
        exists k, nth_error new k = Some (filename (outIndex + k) fd, frame)) \/
     (exit = ExitCode 1 /\
      exists fd frame, In fd selectedFrames /\ getFrameAt va (time fd) = Some frame /\
        imwrite outDir (filename (outIndex + List.length new) fd) frame = false)).
Proof.
  induction selectedFrames as [|fd rest IH]; intros outIndex files exit files' H;
    cbn [cliExport] in H.
  - injection H as <- <-. exists []. split; [now rewrite app_nil_r|]. split.
    + intros [|k] name frame Hk; discriminate.
    + left. split; [reflexivity|]. intros fd frame [].
  - destruct (getFrameAt va (time fd)) as [frame|] eqn:Er.
    + destruct (imwrite outDir (filename outIndex fd) frame) eqn:Ew.
      * destruct (IH _ _ _ _ H) as (new & -> & Hnames & Hexit).
        exists ((filename outIndex fd, frame) :: new).
        split; [now rewrite <- app_assoc|]. split.
        -- intros [|k] name fr Hk; cbn in Hk.
           ++ injection Hk as <- <-. exists fd. rewrite Nat.add_0_r.
              split; [now left|]. split; [reflexivity | exact Er].
           ++ destruct (Hnames k name fr Hk) as (fd' & Hin & Hn & Hr).
              exists fd'. split; [now right|]. split; [|exact Hr].
              rewrite Hn. replace (S outIndex + k)%nat with (outIndex + S k)%nat by lia.
              reflexivity.
        -- destruct Hexit as [[-> Hall] | [-> (fd' & fr & Hin & Hr & Hw)]].
           ++ left. split; [reflexivity|]. intros fd' fr [<- | Hin] Hr.
              ** exists 0%nat. rewrite Nat.add_0_r. cbn. congruence.
              ** destruct (Hall fd' fr Hin Hr) as [k Hk]. exists (S k). cbn [nth_error].
                 replace (outIndex + S k)%nat with (S outIndex + k)%nat by lia.
                 exact Hk.
           ++ right. split; [reflexivity|]. exists fd', fr.
              split; [now right|]. split; [exact Hr|].
              cbn [List.length].
              replace (outIndex + S (List.length new))%nat
                with (S outIndex + List.length new)%nat by lia.
              exact Hw.
      * injection H as <- <-. exists []. split; [now rewrite app_nil_r|]. split.
        -- intros [|k] name fr Hk; discriminate.
        -- right. split; [reflexivity|]. exists fd, frame.
           split; [now left|]. split; [exact Er|]. cbn. now rewrite Nat.add_0_r.
    + destruct (IH _ _ _ _ H) as (new & -> & Hnames & Hexit).
      exists new. split; [reflexivity|]. split.
      * intros k name fr Hk. destruct (Hnames k name fr Hk) as (fd' & Hin & Hn & Hr).
        exists fd'. split; [now right|]. split; assumption.
      * destruct Hexit as [[-> Hall] | [-> (fd' & fr & Hin & Hr & Hw)]].
        -- left. split; [reflexivity|]. intros fd' fr [<- | Hin] Hr; [congruence|].
           exact (Hall fd' fr Hin Hr).
        -- right. split; [reflexivity|]. exists fd', fr. split; [now right|].
           split; assumption.
Qed.

(** ** Persistence *)

Lemma params_tag_roundtrip (p : AnalysisParams) :
  mkParams (intervalSec p) (searchWindowSec p) (searchStepSec p) (sampleStepSec p)
    (if String.eqb
          (match algorithm p with FFT => "FFT" | Laplacian => "Laplacian" end) "FFT"
     then FFT else Laplacian) = p.
Proof. destruct p as [a b c d []]; reflexivity. Qed.

Lemma save_then_load_full (writable : string -> bool) (app app1 app' : App Mat)
  (disk disk1 : Disk) :
  saveConfig writable app disk = (true, app1, disk1) ->
  path (app_videoInfo_ app') = path (app_videoInfo_ app) ->
  loadConfig app' disk1 =
  (true,
   mkApp (analyzer_ app') (app_videoInfo_ app') (params_ app)
     (map (fun sn => mkFrame (fst sn) (snd sn) false None) (map pairOf (allSamples_ app)))
     (map (loadFrame (analyzer_ app'))
        (map pairOf (filter selected (selectedFrames_ app))))
     false (statusText_ app')).
Proof.
  intros Hsave Hpath. unfold saveConfig in Hsave.
  destruct (isEmptyString (path (app_videoInfo_ app))) eqn:Ee; [discriminate|].
  destruct (writable (getConfigPath (path (app_videoInfo_ app)))); [|discriminate].
  cbn [negb] in Hsave. injection Hsave as _ <-.
  unfold loadConfig. rewrite Hpath, Ee, store_same.
  cbn [doc_version doc_params doc_samples doc_selected_frames Z.ltb Z.compare
       interval_sec search_window_sec search_step_sec sample_step_sec algorithm_tag].
  now rewrite params_tag_roundtrip.
Qed.

Lemma loadFrame_count (va : VideoAnalyzer) (l : list (Q * Q)) :
  List.length (filter selected (map (loadFrame va) l)) = List.length l.
Proof.
  induction l as [|x l IH]; cbn; [reflexivity | now rewrite IH].
Qed.

(** ** A request nobody made *)

Lemma forUnits_ext {A B : Type} (f g : nat -> A -> option B) (l : list A) :
  forall i, (forall k a, f k a = g k a) -> forUnits f i l = forUnits g i l.
Proof.
  induction l as [|a l IH]; intros i H; cbn; [reflexivity|].
  now rewrite H, (IH (S i) H).
Qed.

Lemma findOptimalFrames_unobserved (fuel : nat) (va : VideoAnalyzer) (env : CancelEnv)
  (params : AnalysisParams) (allSamples outSelected : list (FrameData Mat)) :
  (forall i j, requested env i j = false) -> requestedAtEnd env = false ->
  findOptimalFrames fuel va env params allSamples outSelected =
  findOptimalFrames fuel va quiet params allSamples outSelected.
Proof.
  intros Hreq Hend. unfold findOptimalFrames.
  destruct (negb (cap_isOpened va)); [reflexivity|]. cbn zeta.
  destruct (Cpp.le (duration (videoInfo_ (resetCancel va))) 0); [reflexivity|].
  assert (Hs : searchSlots fuel (resetCancel va) env params =
               searchSlots fuel (resetCancel va) quiet params).
  { unfold searchSlots.
    destruct (gridTimes fuel 0 (duration (videoInfo_ (resetCancel va))) (intervalSec params));
      [|reflexivity].
    apply forUnits_ext. intros k a. apply searchUnit_uncut; [reflexivity|].
    intros j. apply Hreq. }
  rewrite Hs. unfold atEnd. rewrite Hend. reflexivity.
Qed.

(** ** The analyzer across the two passes *)

Lemma analyzeFullVideo_analyzer (fuel : nat) (va : VideoAnalyzer) (env : CancelEnv)
  (params : AnalysisParams) (outSamples : list (FrameData Mat))
  (ok : bool) (out : list (FrameData Mat)) (va' : VideoAnalyzer) :
  analyzeFullVideo fuel va env params outSamples = Some (ok, out, va') ->
  cap_isOpened va' = cap_isOpened va /\ videoInfo_ va' = videoInfo_ va /\
  (ok = true -> 0 < duration (videoInfo_ va)).
Proof.
  unfold analyzeFullVideo. destruct (negb (cap_isOpened va)).
  { intros [= <- <- <-]. repeat split. discriminate. }
  cbn zeta. destruct (Cpp.le (duration (videoInfo_ (resetCancel va))) 0) eqn:Ed.
  { intros [= <- <- <-]. repeat split. discriminate. }
  apply Cpp_le_false_iff in Ed. cbn in Ed.
  destruct (sampleSlots fuel (resetCancel va) env params); [|discriminate].
  intros [= <- <- <-]. unfold atEnd.
  destruct (requestedAtEnd env); repeat split; intros _; exact Ed.
Qed.

Lemma findOptimalFrames_same_video (fuel : nat) (va1 va2 : VideoAnalyzer) (env : CancelEnv)
  (params : AnalysisParams) (allSamples outSelected : list (FrameData Mat)) :
  cap_isOpened va1 = true -> cap_isOpened va2 = true -> videoInfo_ va1 = videoInfo_ va2 ->
  findOptimalFrames fuel va1 env params allSamples outSelected =
  findOptimalFrames fuel va2 env params allSamples outSelected.
Proof.
  intros H1 H2 Hv. unfold findOptimalFrames. rewrite H1, H2. cbn [negb].
  assert (Hr : resetCancel va1 = resetCancel va2).
  { unfold resetCancel. now rewrite H1, H2, Hv. }
  now rewrite Hr.
Qed.

(** * Properties of the rounding *)

(** ** Nearest integer *)

Lemma nearest_cases (a : Q) :
  let n := Qfloor a in
  (a - inject_Z n < 1 # 2 /\ Cpp.nearest a = n) \/
  (a - inject_Z n == 1 # 2 /\ Cpp.nearest a = if Z.even n then n else (n + 1)%Z) \/
  (1 # 2 < a - inject_Z n /\ Cpp.nearest a = (n + 1)%Z).
Proof.
  cbn zeta. unfold Cpp.nearest.
  destruct (a - inject_Z (Qfloor a) ?= 1 # 2) eqn:E.
  - right. left. split; [now apply Qeq_alt | reflexivity].
  - left. split; [now apply Qlt_alt | reflexivity].
  - right. right. split; [now apply Qgt_alt | reflexivity].
Qed.

Lemma nearest_bounds (a : Q) :
  (Qfloor a <= Cpp.nearest a <= Qfloor a + 1)%Z.
Proof.
  destruct (nearest_cases a) as [[_ ->] | [[_ ->] | [_ ->]]]; try lia.
  destruct (Z.even (Qfloor a)); lia.
Qed.

Lemma nearest_error (a : Q) : Qabs (inject_Z (Cpp.nearest a) - a) <= 1 # 2.
Proof.
  pose proof (Qfloor_le a) as Hlo. pose proof (Qlt_floor a) as Hhi.
  rewrite inject_Z_plus in Hhi. change (inject_Z 1) with 1 in Hhi.
  apply Qabs_Qle_condition.
  destruct (nearest_cases a) as [[H ->] | [[H ->] | [H ->]]].
  - split; lra.
  - destruct (Z.even (Qfloor a)).
    + split; lra.
    + rewrite inject_Z_plus. change (inject_Z 1) with 1. split; lra.
  - rewrite inject_Z_plus. change (inject_Z 1) with 1. split; lra.
Qed.

Lemma nearest_Z (z : Z) : Cpp.nearest (inject_Z z) = z.
Proof.
  destruct (nearest_cases (inject_Z z)) as [[H ->] | [[H E] | [H E]]];
    rewrite Qfloor_Z in *; try reflexivity; exfalso; lra.
Qed.

Lemma nearest_mono (a b : Q) : a <= b -> (Cpp.nearest a <= Cpp.nearest b)%Z.
Proof.
  intros Hab.
  pose proof (Qfloor_resp_le a b Hab) as Hf.
  pose proof (nearest_bounds a) as Ha. pose proof (nearest_bounds b) as Hb.
  destruct (Z.eq_dec (Qfloor a) (Qfloor b)) as [E | E]; [|lia].
  destruct (nearest_cases a) as [[H1 E1] | [[H1 E1] | [H1 E1]]];
    destruct (nearest_cases b) as [[H2 E2] | [[H2 E2] | [H2 E2]]];
    rewrite E1, E2; rewrite E in *; try lia; try (exfalso; lra);
    destruct (Z.even (Qfloor b)); lia.
Qed.

Lemma nearest_proper (a b : Q) : a == b -> Cpp.nearest a = Cpp.nearest b.
Proof.
  intros H. apply Z.le_antisymm; apply nearest_mono; rewrite H; apply Qle_refl.
Qed.

(** ** Powers of two *)

Lemma pow2_pos (e : Z) : 0 < 2 ^ e.
Proof. apply Qpower_0_lt. reflexivity. Qed.

Lemma pow2_plus (a b : Z) : 2 ^ (a + b) == 2 ^ a * 2 ^ b.
Proof. apply Qpower_plus. discriminate. Qed.

Lemma pow2_le (a b : Z) : (a <= b)%Z -> 2 ^ a <= 2 ^ b.
Proof. intros H. apply Qpower_le_compat_l; [exact H | discriminate]. Qed.

Lemma pow2_lt (a b : Z) : (a < b)%Z -> 2 ^ a < 2 ^ b.
Proof. intros H. apply Qpower_lt_compat_l; [exact H | reflexivity]. Qed.

Lemma pow2_lt_inv (a b : Z) : 2 ^ a < 2 ^ b -> (a < b)%Z.
Proof.
  intros H. destruct (Z.lt_ge_cases a b) as [Hlt | Hge]; [exact Hlt|].
  pose proof (pow2_le b a Hge). lra.
Qed.

Lemma pow2_Z (n : Z) : (0 <= n)%Z -> 2 ^ n == inject_Z (2 ^ n).
Proof. intros H. symmetry. apply (Zpower_Qpower 2 n H). Qed.

Lemma pow2_succ (e : Z) : 2 ^ (e + 1) == 2 * 2 ^ e.
Proof. rewrite pow2_plus. change (2 ^ 1) with 2. ring. Qed.

(** ** Binades *)

Lemma binade_spec (x : Q) :
  0 < x -> 2 ^ Cpp.binade x <= x /\ x < 2 ^ (Cpp.binade x + 1).
Proof.
  intros Hx. destruct x as [n d].
  assert (Hn : (0 < n)%Z) by (unfold Qlt in Hx; cbn in Hx; lia).
  unfold Cpp.binade. cbn [Qnum Qden].
  set (a := Z.log2 n). set (b := Z.log2 (Z.pos d)).
  destruct (Z.log2_spec n Hn) as [Ha1 Ha2]. fold a in Ha1, Ha2.
  destruct (Z.log2_spec (Z.pos d) ltac:(lia)) as [Hb1 Hb2]. fold b in Hb1, Hb2.
  assert (Ha0 : (0 <= a)%Z) by apply Z.log2_nonneg.
  assert (Hb0 : (0 <= b)%Z) by apply Z.log2_nonneg.
  set (x := n # d) in *.
  assert (Hxd : x * inject_Z (Z.pos d) == inject_Z n).
  { unfold x. rewrite (Qmake_Qdiv n d). field. discriminate. }
  assert (HA : 2 ^ a <= inject_Z n /\ inject_Z n < 2 * 2 ^ a).
  { rewrite <- pow2_succ, !pow2_Z by lia. rewrite <- Zle_Qle, <- Zlt_Qlt.
    replace (Z.succ a) with (a + 1)%Z in Ha2 by lia. split; assumption. }
  assert (HB : 2 ^ b <= inject_Z (Z.pos d) /\ inject_Z (Z.pos d) < 2 * 2 ^ b).
  { rewrite <- pow2_succ, !pow2_Z by lia. rewrite <- Zle_Qle, <- Zlt_Qlt.
    replace (Z.succ b) with (b + 1)%Z in Hb2 by lia. split; assumption. }
  assert (HP : 2 ^ (a - b) * 2 ^ b == 2 ^ a).
  { rewrite <- pow2_plus. replace (a - b + b)%Z with a by lia. reflexivity. }
  pose proof (pow2_pos a) as Pa. pose proof (pow2_pos b) as Pb.
  pose proof (pow2_pos (a - b)) as Pp.
  set (A := 2 ^ a) in *. set (B := 2 ^ b) in *. set (P := 2 ^ (a - b)) in *.
  set (N := inject_Z n) in *. set (D := inject_Z (Z.pos d)) in *.
  assert (Hhi : x < 2 * P).
  { apply Qnot_le_lt. intros Hc.
    assert (H1 : 2 * P * B <= x * D).
    { apply Qle_trans with (x * B).
      - apply Qmult_le_compat_r; [exact Hc | apply Qlt_le_weak, Pb].
      - apply Qmult_le_l; [exact Hx | apply HB]. }
    assert (H2 : 2 * P * B == 2 * A) by (rewrite <- HP; ring).
    lra. }
  assert (Hlo : P < 2 * x).
  { apply Qnot_le_lt. intros Hc.
    assert (H1 : 2 * x * D <= P * D).
    { apply Qmult_le_compat_r; [exact Hc|]. lra. }
    assert (H2 : P * D < P * (2 * B)).
    { apply Qmult_lt_l; [exact Pp | apply HB]. }
    assert (H3 : P * (2 * B) == 2 * A) by (rewrite <- HP; ring).
    lra. }
  destruct (Qle_bool P x) eqn:E.
  - apply Qle_bool_iff in E. split; [exact E|]. rewrite pow2_succ. exact Hhi.
  - assert (E' : x < P).
    { apply Qnot_le_lt. intros Hc. apply Qle_bool_iff in Hc. congruence. }
    replace (a - b - 1 + 1)%Z with (a - b)%Z by lia. split; [|exact E'].
    assert (Hs : 2 * 2 ^ (a - b - 1) == P).
    { rewrite <- pow2_succ. replace (a - b - 1 + 1)%Z with (a - b)%Z by lia. reflexivity. }
    lra.
Qed.

Lemma binade_unique (x : Q) (e : Z) :
  2 ^ e <= x -> x < 2 ^ (e + 1) -> Cpp.binade x = e.
Proof.
  intros Hlo Hhi.
  assert (Hx : 0 < x) by (pose proof (pow2_pos e); lra).
  destruct (binade_spec x Hx) as [Blo Bhi].
  assert (H1 : (e < Cpp.binade x + 1)%Z) by (apply pow2_lt_inv; lra).
  assert (H2 : (Cpp.binade x < e + 1)%Z) by (apply pow2_lt_inv; lra).
  lia.
Qed.

Lemma binade_mono (x y : Q) : 0 < x -> x <= y -> (Cpp.binade x <= Cpp.binade y)%Z.
Proof.
  intros Hx Hxy.
  destruct (binade_spec x Hx) as [Xlo _].
  destruct (binade_spec y ltac:(lra)) as [_ Yhi].
  assert (H : (Cpp.binade x < Cpp.binade y + 1)%Z) by (apply pow2_lt_inv; lra).
  lia.
Qed.

(** ** Rounding *)

Lemma nearest_opp (a : Q) : Cpp.nearest (- a) = (- Cpp.nearest a)%Z.
Proof.
  pose proof (Qfloor_le a) as Hlo. pose proof (Qlt_floor a) as Hhi.
  rewrite inject_Z_plus in Hhi. change (inject_Z 1) with 1 in Hhi.
  destruct (Qeq_dec a (inject_Z (Qfloor a))) as [Hint | Hfrac].
  - rewrite (nearest_proper a _ Hint), nearest_Z.
    assert (H : - a == inject_Z (- Qfloor a)) by (rewrite inject_Z_opp, <- Hint; reflexivity).
    now rewrite (nearest_proper _ _ H), nearest_Z.
  - assert (Hf : Qfloor (- a) = (- Qfloor a - 1)%Z).
    { apply Qfloor_unique.
      - unfold Z.sub. rewrite inject_Z_plus, !inject_Z_opp. change (inject_Z 1) with 1. lra.
      - replace (- Qfloor a - 1 + 1)%Z with (- Qfloor a)%Z by lia.
        rewrite inject_Z_opp.
        assert (inject_Z (Qfloor a) < a).
        { apply Qnot_le_lt. intros Hc. apply Hfrac. apply Qle_antisym; assumption. }
        lra. }
    assert (Hi : inject_Z (- Qfloor a - 1) == - inject_Z (Qfloor a) - 1).
    { unfold Z.sub. rewrite inject_Z_plus, !inject_Z_opp. reflexivity. }
    destruct (nearest_cases a) as [[H1 E1] | [[H1 E1] | [H1 E1]]];
      destruct (nearest_cases (- a)) as [[H2 E2] | [[H2 E2] | [H2 E2]]];
      rewrite Hf in *; rewrite Hi in *; rewrite E1, E2; try lia; try (exfalso; lra).
    rewrite <- Z.even_opp, Z.opp_sub_distr, Z.opp_involutive, Z.add_1_r, Z.even_succ,
      <- Z.negb_even.
    destruct (Z.even (Qfloor a)); cbn; lia.
Qed.

Lemma exponent_proper (emin : Z) (x y : Q) : x == y -> Cpp.exponent emin x = Cpp.exponent emin y.
Proof. intros H. unfold Cpp.exponent. now rewrite (Qred_complete x y H). Qed.

Lemma rounded_proper (prec emin : Z) (x y : Q) :
  x == y -> Cpp.rounded prec emin x = Cpp.rounded prec emin y.
Proof.
  intros H. unfold Cpp.rounded. cbn zeta. rewrite (exponent_proper emin x y H).
  apply Qred_complete.
  rewrite (nearest_proper (x / 2 ^ (Cpp.exponent emin y - prec + 1))
                          (y / 2 ^ (Cpp.exponent emin y - prec + 1))); [reflexivity|].
  now rewrite H.
Qed.

Lemma rounded_val (prec emin : Z) (x : Q) :
  Cpp.rounded prec emin x ==
  inject_Z (Cpp.nearest (x / 2 ^ (Cpp.exponent emin x - prec + 1))) *
  2 ^ (Cpp.exponent emin x - prec + 1).
Proof. unfold Cpp.rounded. cbn zeta. apply Qred_correct. Qed.

Lemma exponent_opp (emin : Z) (x : Q) : Cpp.exponent emin (- x) = Cpp.exponent emin x.
Proof.
  unfold Cpp.exponent. rewrite Qred_opp. destruct (Qred x) as [n d]. cbn.
  now rewrite Z.abs_opp.
Qed.

Lemma rounded_opp (prec emin : Z) (x : Q) :
  Cpp.rounded prec emin (- x) == - Cpp.rounded prec emin x.
Proof.
  rewrite !rounded_val, exponent_opp.
  set (q := 2 ^ (Cpp.exponent emin x - prec + 1)).
  assert (H : - x / q == - (x / q)) by (field; apply Qnot_eq_sym, Qlt_not_eq, pow2_pos).
  rewrite (nearest_proper _ _ H), nearest_opp, inject_Z_opp. ring.
Qed.

Lemma exponent_ge (emin : Z) (x : Q) : (emin <= Cpp.exponent emin x)%Z.
Proof. unfold Cpp.exponent. lia. Qed.

Lemma exponent_upper (emin : Z) (x : Q) : Qabs x < 2 ^ (Cpp.exponent emin x + 1).
Proof.
  unfold Cpp.exponent.
  assert (Hr : Qabs (Qred x) == Qabs x) by (now rewrite Qred_correct).
  rewrite <- Hr.
  destruct (Qlt_le_dec 0 (Qabs (Qred x))) as [Hpos | Hz].
  - destruct (binade_spec _ Hpos) as [_ Hhi].
    eapply Qlt_le_trans; [exact Hhi|]. apply pow2_le. lia.
  - eapply Qle_lt_trans; [exact Hz | apply pow2_pos].
Qed.

Lemma exponent_normal (emin : Z) (x : Q) :
  (emin < Cpp.exponent emin x)%Z -> 0 < Qabs x -> 2 ^ Cpp.exponent emin x <= Qabs x.
Proof.
  unfold Cpp.exponent. intros He Hpos.
  assert (Hr : Qabs (Qred x) == Qabs x) by (now rewrite Qred_correct).
  rewrite <- Hr in *.
  destruct (binade_spec _ Hpos) as [Hlo _].
  replace (Z.max (Cpp.binade (Qabs (Qred x))) emin) with (Cpp.binade (Qabs (Qred x))) by lia.
  exact Hlo.
Qed.

Lemma exponent_mono (emin : Z) (x y : Q) :
  0 < Qabs x -> Qabs x <= Qabs y -> (Cpp.exponent emin x <= Cpp.exponent emin y)%Z.
Proof.
  intros Hx Hxy. unfold Cpp.exponent.
  assert (Hrx : Qabs (Qred x) == Qabs x) by (now rewrite Qred_correct).
  assert (Hry : Qabs (Qred y) == Qabs y) by (now rewrite Qred_correct).
  assert (H : (Cpp.binade (Qabs (Qred x)) <= Cpp.binade (Qabs (Qred y)))%Z).
  { apply binade_mono; [rewrite Hrx; exact Hx | rewrite Hrx, Hry; exact Hxy]. }
  lia.
Qed.

Lemma rounded_zero (prec emin : Z) (x : Q) : x == 0 -> Cpp.rounded prec emin x == 0.
Proof.
  intros H. rewrite rounded_val.
  assert (E : x / 2 ^ (Cpp.exponent emin x - prec + 1) == inject_Z 0).
  { set (q := 2 ^ (Cpp.exponent emin x - prec + 1)). rewrite H. unfold Qdiv. ring. }
  rewrite (nearest_proper _ _ E), nearest_Z. ring.
Qed.

Lemma rounded_nonneg (prec emin : Z) (x : Q) : 0 <= x -> 0 <= Cpp.rounded prec emin x.
Proof.
  intros H. rewrite rounded_val.
  pose proof (pow2_pos (Cpp.exponent emin x - prec + 1)) as Hq.
  apply Qmult_le_0_compat; [|apply Qlt_le_weak, Hq].
  change 0 with (inject_Z 0). rewrite <- Zle_Qle.
  rewrite <- (nearest_Z 0). apply nearest_mono.
  change (inject_Z 0) with 0. apply Qle_shift_div_l; [exact Hq | lra].
Qed.

Lemma rounded_nonpos (prec emin : Z) (x : Q) : x <= 0 -> Cpp.rounded prec emin x <= 0.
Proof.
  intros H.
  assert (H' : 0 <= Cpp.rounded prec emin (- x)) by (apply rounded_nonneg; lra).
  rewrite rounded_opp in H'. lra.
Qed.

Section Rounding.

Variables prec emin : Z.
Hypothesis prec_pos : (1 <= prec)%Z.

Local Abbreviation R := (Cpp.rounded prec emin).
Local Abbreviation quantum x := (2 ^ (Cpp.exponent emin x - prec + 1)).

Lemma quantum_scale (e : Z) : 2 ^ (e - prec + 1) * inject_Z (2 ^ (prec - 1)) == 2 ^ e.
Proof.
  rewrite <- pow2_Z by lia. rewrite <- pow2_plus.
  replace (e - prec + 1 + (prec - 1))%Z with e by lia. reflexivity.
Qed.

(** A positive number is rounded into the closure of its binade. *)
Lemma rounded_in_binade (x : Q) :
  0 < x ->
  R x <= 2 ^ (Cpp.exponent emin x + 1) /\
  ((emin < Cpp.exponent emin x)%Z -> 2 ^ Cpp.exponent emin x <= R x).
Proof.
  intros Hx.
  pose proof (pow2_pos (Cpp.exponent emin x - prec + 1)) as Hq.
  assert (Habs : Qabs x == x) by (apply Qabs_pos; lra).
  rewrite rounded_val. split.
  - pose proof (exponent_upper emin x) as Hup. rewrite Habs in Hup.
    assert (Hs : 2 ^ (Cpp.exponent emin x + 1) ==
                 inject_Z (2 ^ prec) * quantum x).
    { rewrite <- pow2_Z by lia. rewrite <- pow2_plus.
      replace (prec + (Cpp.exponent emin x - prec + 1))%Z with (Cpp.exponent emin x + 1)%Z by lia.
      reflexivity. }
    rewrite Hs. apply Qmult_le_compat_r; [|lra].
    rewrite <- Zle_Qle. rewrite <- (nearest_Z (2 ^ prec)). apply nearest_mono.
    apply Qle_shift_div_r; [exact Hq|]. rewrite <- Hs. lra.
  - intros Hn. pose proof (exponent_normal emin x Hn) as Hlo.
    rewrite Habs in Hlo. specialize (Hlo Hx).
    rewrite <- (quantum_scale (Cpp.exponent emin x)) at 1.
    rewrite (Qmult_comm (quantum x)).
    apply Qmult_le_compat_r; [|lra].
    rewrite <- Zle_Qle. rewrite <- (nearest_Z (2 ^ (prec - 1))) at 1. apply nearest_mono.
    apply Qle_shift_div_l; [exact Hq|].
    rewrite (Qmult_comm _ (quantum x)), quantum_scale. exact Hlo.
Qed.

Lemma rounded_mono_pos (x y : Q) : 0 < x -> x <= y -> R x <= R y.
Proof.
  intros Hx Hxy.
  assert (Hy : 0 < y) by lra.
  assert (Hax : Qabs x == x) by (apply Qabs_pos; lra).
  assert (Hay : Qabs y == y) by (apply Qabs_pos; lra).
  assert (He : (Cpp.exponent emin x <= Cpp.exponent emin y)%Z).
  { apply exponent_mono; rewrite ?Hax, ?Hay; assumption. }
  destruct (Z.eq_dec (Cpp.exponent emin x) (Cpp.exponent emin y)) as [E | E].
  - rewrite !rounded_val, E.
    pose proof (pow2_pos (Cpp.exponent emin y - prec + 1)) as Hq.
    apply Qmult_le_compat_r; [|lra].
    rewrite <- Zle_Qle. apply nearest_mono.
    apply Qmult_le_compat_r; [exact Hxy|]. apply Qlt_le_weak, Qinv_lt_0_compat, Hq.
  - destruct (rounded_in_binade x Hx) as [Hup _].
    destruct (rounded_in_binade y Hy) as [_ Hlo].
    pose proof (exponent_ge emin x).
    specialize (Hlo ltac:(lia)).
    pose proof (pow2_le (Cpp.exponent emin x + 1) (Cpp.exponent emin y) ltac:(lia)).
    lra.
Qed.

Lemma rounded_mono (x y : Q) : x <= y -> R x <= R y.
Proof.
  intros Hxy.
  destruct (Qlt_le_dec 0 x) as [Hx | Hx].
  - now apply rounded_mono_pos.
  - destruct (Qlt_le_dec y 0) as [Hy | Hy].
    + assert (H : R (- y) <= R (- x)) by (apply rounded_mono_pos; lra).
      rewrite !rounded_opp in H. lra.
    + pose proof (rounded_nonpos prec emin x Hx).
      pose proof (rounded_nonneg prec emin y Hy). lra.
Qed.

Lemma rounded_error (x : Q) :
  Qabs (R x - x) <= quantum x * (1 # 2).
Proof.
  pose proof (pow2_pos (Cpp.exponent emin x - prec + 1)) as Hq.
  rewrite rounded_val.
  set (q := 2 ^ (Cpp.exponent emin x - prec + 1)) in *.
  pose proof (nearest_error (x / q)) as He.
  apply Qabs_Qle_condition in He. destruct He as [He1 He2].
  set (m := inject_Z (Cpp.nearest (x / q))) in *.
  assert (H3 : m * q - x == (m - x / q) * q) by (field; lra).
  assert (H1 : (m - x / q) * q <= (1 # 2) * q)
    by (apply Qmult_le_compat_r; lra).
  assert (H2 : - (1 # 2) * q <= (m - x / q) * q)
    by (apply Qmult_le_compat_r; lra).
  apply Qabs_Qle_condition. rewrite H3. split; lra.
Qed.

Lemma pow2_le_inv (a b : Z) : 2 ^ a <= 2 ^ b -> (a <= b)%Z.
Proof.
  intros H. destruct (Z.le_gt_cases a b) as [Hle | Hgt]; [exact Hle|].
  pose proof (pow2_lt b a ltac:(lia)). lra.
Qed.

Lemma rounded_Qred (x : Q) : Qred (R x) = R x.
Proof. unfold Cpp.rounded. cbn zeta. apply Qred_complete, Qred_correct. Qed.

(** A multiple of its own quantum is left alone. *)
Lemma rounded_fix (y : Q) (k : Z) :
  y == inject_Z k * quantum y -> R y == y.
Proof.
  intros Hy. pose proof (pow2_pos (Cpp.exponent emin y - prec + 1)) as Hq.
  rewrite rounded_val.
  set (q := 2 ^ (Cpp.exponent emin y - prec + 1)) in *.
  assert (E : y / q == inject_Z k).
  { rewrite Hy at 1. field. lra. }
  rewrite (nearest_proper _ _ E), nearest_Z. symmetry. exact Hy.
Qed.

Lemma rounded_idem (x : Q) : R (R x) = R x.
Proof.
  assert (Hgoal : R (R x) == R x).
  2:{ transitivity (Qred (R (R x))); [symmetry; apply rounded_Qred|].
      transitivity (Qred (R x)); [|apply rounded_Qred].
      apply Qred_complete. exact Hgoal. }
  pose proof (pow2_pos (Cpp.exponent emin x - prec + 1)) as Hq.
  pose proof (rounded_val prec emin x) as Hy.
  set (ex := Cpp.exponent emin x) in *.
  set (q := 2 ^ (ex - prec + 1)) in *.
  set (m := Cpp.nearest (x / q)) in *.
  assert (Hs : 2 ^ (ex + 1) == inject_Z (2 ^ prec) * q).
  { unfold q. rewrite <- pow2_Z by lia. rewrite <- pow2_plus.
    replace (prec + (ex - prec + 1))%Z with (ex + 1)%Z by lia. reflexivity. }
  assert (Hm : (- 2 ^ prec <= m <= 2 ^ prec)%Z).
  { pose proof (exponent_upper emin x) as Hup. fold ex in Hup. rewrite Hs in Hup.
    apply Qabs_Qlt_condition in Hup. destruct Hup as [Hlo Hhi].
    unfold m. split.
    - rewrite <- (nearest_Z (- 2 ^ prec)). apply nearest_mono.
      apply Qle_shift_div_l; [exact Hq|]. rewrite inject_Z_opp. lra.
    - rewrite <- (nearest_Z (2 ^ prec)). apply nearest_mono.
      apply Qle_shift_div_r; [exact Hq|]. lra. }
  destruct (Z.eq_dec m 0) as [Hm0 | Hm0].
  { assert (Hz : R x == 0) by (rewrite Hy, Hm0; ring).
    rewrite (rounded_proper prec emin _ _ Hz), Hz. apply rounded_zero. reflexivity. }
  assert (Habs : Qabs (R x) == inject_Z (Z.abs m) * q).
  { rewrite Hy, Qabs_Qmult. rewrite (Qabs_pos q) by lra. reflexivity. }
  assert (Hpos : 0 < Qabs (R x)).
  { rewrite Habs. apply Qmult_lt_0_compat; [|exact Hq].
    change 0 with (inject_Z 0). rewrite <- Zlt_Qlt. lia. }
  assert (Hle : Qabs (R x) <= 2 ^ (ex + 1)).
  { rewrite Habs, Hs. apply Qmult_le_compat_r; [|lra]. rewrite <- Zle_Qle. lia. }
  set (e' := Cpp.exponent emin (R x)).
  assert (He' : (e' <= ex + 1)%Z).
  { destruct (Z.le_gt_cases e' emin) as [H | H].
    - pose proof (exponent_ge emin x). fold ex in H0. lia.
    - pose proof (exponent_normal emin (R x) ltac:(fold e'; lia) Hpos) as Hn.
      fold e' in Hn. apply pow2_le_inv. lra. }
  destruct (Z.le_gt_cases e' ex) as [Hc | Hc].
  - apply (rounded_fix _ (m * 2 ^ (ex - e'))). fold e'.
    rewrite Hy, inject_Z_mult, <- pow2_Z by lia.
    rewrite <- Qmult_assoc, <- pow2_plus.
    replace (ex - e' + (e' - prec + 1))%Z with (ex - prec + 1)%Z by lia. reflexivity.
  - assert (E : e' = (ex + 1)%Z) by lia.
    pose proof (exponent_ge emin x) as Hge. fold ex in Hge.
    pose proof (exponent_normal emin (R x) ltac:(fold e'; lia) Hpos) as Hn.
    fold e' in Hn. rewrite E, Hs, Habs in Hn.
    assert (Hbig : (2 ^ prec <= Z.abs m)%Z).
    { rewrite Zle_Qle. apply Qmult_lt_0_le_reg_r with q; [exact Hq | exact Hn]. }
    assert (Hpow : (2 ^ prec = 2 * 2 ^ (prec - 1))%Z).
    { rewrite <- Z.pow_succ_r by lia. f_equal. lia. }
    apply (rounded_fix _ (if (0 <? m)%Z then 2 ^ (prec - 1) else - 2 ^ (prec - 1))%Z).
    fold e'. rewrite E, Hy.
    assert (Hq' : 2 ^ (ex + 1 - prec + 1) == 2 * q).
    { unfold q. rewrite <- pow2_succ. replace (ex + 1 - prec + 1)%Z
        with (ex - prec + 1 + 1)%Z by lia. reflexivity. }
    rewrite Hq'.
    destruct (0 <? m)%Z eqn:Es.
    + apply Z.ltb_lt in Es. assert (Em : m = (2 * 2 ^ (prec - 1))%Z) by lia.
      rewrite Em, inject_Z_mult. change (inject_Z 2) with 2. ring.
    + apply Z.ltb_ge in Es. assert (Em : m = (2 * - 2 ^ (prec - 1))%Z) by lia.
      rewrite Em, inject_Z_mult. change (inject_Z 2) with 2. ring.
Qed.

End Rounding.


(** ** The optimizer with the rounding of [double] *)

Lemma binary64_mono (x y : Q) : x <= y -> Cpp.binary64 x <= Cpp.binary64 y.
Proof. apply rounded_mono. lia. Qed.

Lemma binary64_idem (x : Q) : Cpp.binary64 (Cpp.binary64 x) = Cpp.binary64 x.
Proof. apply rounded_idem. lia. Qed.

Lemma binary64_zero : Cpp.binary64 0 == 0.
Proof. apply rounded_zero. reflexivity. Qed.

Lemma binary64_proper (x y : Q) : x == y -> Cpp.binary64 x = Cpp.binary64 y.
Proof. apply rounded_proper. Qed.

(** Adding a non-negative step to a [double] does not go back. *)
Lemma binary64_advance (ts step : Q) :
  Cpp.binary64 ts == ts -> 0 <= step -> ts <= Cpp.binary64 (ts + step).
Proof.
  intros Hr Hs. rewrite <- Hr at 1. apply binary64_mono. lra.
Qed.

Lemma binary64_fixed (x : Q) : Cpp.binary64 (Cpp.binary64 x) == Cpp.binary64 x.
Proof. now rewrite binary64_idem. Qed.

Lemma gridTimes64_nth (fuel : nat) : forall t D step l k x,
  0 <= step -> 0 <= t -> Cpp.binary64 t == t ->
  gridTimes64 fuel t D step = Some l -> nth_error l k = Some x ->
  0 <= x /\ x <= D /\ Cpp.binary64 x == x.
Proof.
  induction fuel as [|fuel IH]; intros t D step l k x Hs Ht Hr Hl Hk; [discriminate|].
  cbn [gridTimes64] in Hl. destruct (Cpp.le t D) eqn:E.
  - destruct (gridTimes64 fuel (Cpp.binary64 (t + step)) D step) as [l'|] eqn:El;
      [|discriminate].
    cbn in Hl. injection Hl as <-. destruct k as [|k]; cbn in Hk.
    + injection Hk as <-. apply Cpp_le_iff in E. auto.
    + apply (IH _ _ _ _ _ _ Hs) with (3 := El) (4 := Hk).
      * pose proof (binary64_advance t step Hr Hs). lra.
      * apply binary64_fixed.
  - injection Hl as <-. destruct k; discriminate.
Qed.

Lemma startOf64_fixed (params : AnalysisParams) (targetT : Q) :
  Cpp.binary64 (startOf64 params targetT) == startOf64 params targetT /\
  0 <= startOf64 params targetT.
Proof.
  unfold startOf64, Cpp.max.
  destruct (Cpp.gt (Cpp.binary64 (targetT - searchWindowSec params)) 0) eqn:E.
  - apply Cpp_gt_iff in E. split; [apply binary64_fixed | lra].
  - split; [apply binary64_zero | apply Qle_refl].
Qed.

(** What the scan has retained lies between the start of the window and
    the bound of the guard, and is a position whose frame was read. *)
Lemma scanWindow64_window (va : VideoAnalyzer) (env : CancelEnv)
  (params : AnalysisParams) (i : nat) (endT step lo : Q) :
  0 <= step ->
  forall fuel j ts best best',
  Cpp.binary64 ts == ts -> lo <= ts ->
  (forall frame, bestFrame best = Some frame ->
     lo <= bestTime best /\ bestTime best <= Cpp.binary64 (endT + eps64) /\
     seekRead64 va (bestTime best) = Some frame /\
     bestVar best = calculateSharpness frame (algorithm params)) ->
  scanWindow64 fuel va env params i j endT step ts best = Some best' ->
  forall frame, bestFrame best' = Some frame ->
     lo <= bestTime best' /\ bestTime best' <= Cpp.binary64 (endT + eps64) /\
     seekRead64 va (bestTime best') = Some frame /\
     bestVar best' = calculateSharpness frame (algorithm params).
Proof.
  intros Hs. induction fuel as [|fuel IH]; intros j ts best best' Hr Hlo Hb Hrun;
    [discriminate|].
  cbn [scanWindow64] in Hrun.
  destruct (Cpp.le ts (Cpp.binary64 (endT + eps64)) && negb (flagRead va env i j)) eqn:Eg.
  - apply andb_prop in Eg. destruct Eg as [Eg _]. apply Cpp_le_iff in Eg.
    apply (IH (S j) (Cpp.binary64 (ts + step)) (retain64 va params best ts) best').
    + apply binary64_fixed.
    + pose proof (binary64_advance ts step Hr Hs). lra.
    + unfold retain64. destruct (seekRead64 va ts) as [f|] eqn:Er; [|exact Hb].
      cbn zeta.
      destruct (Cpp.gt (calculateSharpness f (algorithm params)) (bestVar best));
        [|exact Hb].
      cbn [bestFrame bestTime bestVar]. intros frame [= <-].
      split; [exact Hlo|]. split; [exact Eg|]. split; [exact Er | reflexivity].
    + exact Hrun.
  - injection Hrun as <-. exact Hb.
Qed.

Lemma searchUnit64_window (fuel : nat) (va : VideoAnalyzer) (env : CancelEnv)
  (params : AnalysisParams) (i : nat) (targetT : Q) (r : FrameData Mat) :
  0 <= searchStepSec params ->
  searchUnit64 fuel va env params i targetT = Some r ->
  hasThumbnail r = true ->
  startOf64 params targetT <= time r /\
  time r <= Cpp.binary64 (endOf64 va params targetT + eps64) /\
  selected r = true /\
  exists frame,
    seekRead64 va (time r) = Some frame /\
    sharpness r = calculateSharpness frame (algorithm params).
Proof.
  intros Hs Hu Ht. unfold searchUnit64 in Hu.
  destruct (flagRead va env i 0).
  { injection Hu as <-. discriminate. }
  destruct (scanWindow64 fuel va env params i 1 (endOf64 va params targetT)
              (searchStepSec params) (startOf64 params targetT)
              (mkBest (-1) targetT None)) as [best|] eqn:Es; [|discriminate].
  cbn in Hu. injection Hu as <-.
  destruct (hasThumbnail_emit best Ht) as [frame Hf].
  destruct (startOf64_fixed params targetT) as [Hfix _].
  destruct (scanWindow64_window va env params i (endOf64 va params targetT)
              (searchStepSec params) (startOf64 params targetT) Hs fuel 1
              (startOf64 params targetT) (mkBest (-1) targetT None) best
              Hfix (Qle_refl _) ltac:(intros f H; discriminate H) Es frame Hf)
    as (H1 & H2 & H3 & H4).
  unfold emit. rewrite Hf. cbn [time sharpness selected].
  split; [exact H1|]. split; [exact H2|]. split; [reflexivity|].
  exists frame. split; [exact H3 | exact H4].
Qed.

Lemma findOptimalFrames64_out (fuel : nat) (va : VideoAnalyzer) (env : CancelEnv)
  (params : AnalysisParams) (allSamples outSelected : list (FrameData Mat))
  (ok : bool) (out : list (FrameData Mat)) (va' : VideoAnalyzer) (r : FrameData Mat) :
  cap_isOpened va = true ->
  findOptimalFrames64 fuel va env params allSamples outSelected = Some (ok, out, va') ->
  In r out ->
  hasThumbnail r = true /\
  exists targetTimes k targetT,
    gridTimes64 fuel 0 (duration (videoInfo_ va)) (intervalSec params)
      = Some targetTimes /\
    nth_error targetTimes k = Some targetT /\
    searchUnit64 fuel (resetCancel va) env params k targetT = Some r.
Proof.
  intros Ho Hrun Hin. unfold findOptimalFrames64 in Hrun. rewrite Ho in Hrun.
  cbn [negb] in Hrun. cbn zeta in Hrun.
  destruct (Cpp.le (duration (videoInfo_ (resetCancel va))) 0).
  { injection Hrun as _ <- _. destruct Hin. }
  destruct (searchSlots64 fuel (resetCancel va) env params) as [rs|] eqn:Ers;
    [|discriminate].
  injection Hrun as _ <- _. apply filter_In in Hin. destruct Hin as [Hin Ht].
  split; [exact Ht|].
  apply In_nth_error in Hin. destruct Hin as [k Hk].
  unfold searchSlots64 in Ers.
  destruct (gridTimes64 fuel 0 (duration (videoInfo_ (resetCancel va)))
              (intervalSec params)) as [ts|] eqn:Eg; [|discriminate].
  destruct (forUnits_nth_inv _ _ _ _ _ _ Ers Hk) as (t & Hnt & Hu).
  exists ts, k, t. split; [exact Eg|]. split; [exact Hnt | exact Hu].
Qed.

(** ** The rounded loops terminate *)

Lemma Cpp_min_le_r (a b : Q) : Cpp.min a b <= b.
Proof.
  unfold Cpp.min. destruct (Cpp.gt a b) eqn:E.
  - apply Qle_refl.
  - apply Cpp_gt_false_iff in E. exact E.
Qed.

Lemma exponent_below (emin e : Z) (x : Q) :
  (emin <= e)%Z -> 0 < x -> x < 2 ^ (e + 1) -> (Cpp.exponent emin x <= e)%Z.
Proof.
  intros He H0 Hx.
  destruct (Z_le_gt_dec (Cpp.exponent emin x) e) as [H|H]; [exact H|].
  exfalso.
  assert (Ha : Qabs x == x) by (apply Qabs_pos; lra).
  assert (Hn : 2 ^ Cpp.exponent emin x <= Qabs x).
  { apply exponent_normal; [lia | rewrite Ha; exact H0]. }
  rewrite Ha in Hn.
  assert (Hl : 2 ^ Cpp.exponent emin x < 2 ^ (e + 1)) by lra.
  apply pow2_lt_inv in Hl. lia.
Qed.

(** Below a million the spacing of [double] is at most [2^-33]. *)
Lemma binary64_error_small (x : Q) :
  0 < x -> x <= 1000001 -> Qabs (Cpp.binary64 x - x) <= 1 # 17179869184.
Proof.
  intros H0 Hx.
  pose proof (rounded_error 53 (-1022) x) as He.
  assert (Hb : (Cpp.exponent (-1022) x <= 19)%Z).
  { apply exponent_below; [lia | exact H0 |].
    apply Qle_lt_trans with (1 := Hx). reflexivity. }
  assert (Hp : 2 ^ (Cpp.exponent (-1022) x - 53 + 1) <= 2 ^ (-33)).
  { apply pow2_le. lia. }
  assert (E : 2 ^ (-33) == 1 # 8589934592) by reflexivity.
  rewrite E in Hp. unfold Cpp.binary64.
  set (q := 2 ^ (Cpp.exponent (-1022) x - 53 + 1)) in *.
  set (d := Qabs (Cpp.rounded 53 (-1022) x - x)) in *.
  lra.
Qed.

Lemma binary64_near (x : Q) :
  0 < x -> x <= 1000001 ->
  x - (1 # 17179869184) <= Cpp.binary64 x /\ Cpp.binary64 x <= x + (1 # 17179869184).
Proof.
  intros H0 Hx. pose proof (binary64_error_small x H0 Hx) as H.
  apply Qabs_Qle_condition in H. destruct H as [H1 H2]. split; lra.
Qed.

(** A step of at least 1e-9 moves a [double] below a million by at least
    half the step. *)
Lemma binary64_advance_half (ts step : Q) :
  0 <= ts -> 1 # 1000000000 <= step -> ts + step <= 1000001 ->
  ts + step * (1 # 2) <= Cpp.binary64 (ts + step).
Proof.
  intros Ht Hs Hb.
  destruct (binary64_near (ts + step)) as [H _]; lra.
Qed.

Lemma eps64_bounds : (1 # 1000000000) - (1 # 10000000000) <= eps64 /\
                     eps64 <= (1 # 1000000000) + (1 # 10000000000).
Proof. split; vm_compute; discriminate. Qed.

Lemma gridTimes64_total (fuel : nat) : forall t D step,
  1 # 1000000000 <= step -> D + step <= 1000001 -> 0 <= t ->
  (itersLeft t D (step * (1 # 2)) < fuel)%nat ->
  exists l, gridTimes64 fuel t D step = Some l.
Proof.
  induction fuel as [|fuel IH]; intros t D step Hs Hb Ht Hf; [lia|].
  cbn [gridTimes64]. destruct (Cpp.le t D) eqn:E; [|now exists []].
  apply Cpp_le_iff in E.
  assert (Hh : 0 < step * (1 # 2)) by lra.
  rewrite (itersLeft_step t D _ Hh E) in Hf.
  pose proof (binary64_advance_half t step Ht Hs ltac:(lra)) as Ha.
  pose proof (itersLeft_mono (t + step * (1 # 2)) (Cpp.binary64 (t + step)) D D
                (step * (1 # 2)) Hh Ha (Qle_refl _)) as Hm.
  destruct (IH (Cpp.binary64 (t + step)) D step Hs Hb) as [l Hl]; [lra | lia |].
  rewrite Hl. now exists (t :: l).
Qed.

Lemma scanWindow64_total (va : VideoAnalyzer) (env : CancelEnv)
  (params : AnalysisParams) (i : nat) (endT step : Q) :
  1 # 1000000000 <= step -> Cpp.binary64 (endT + eps64) + step <= 1000001 ->
  forall fuel j ts best,
  0 <= ts ->
  (itersLeft ts (Cpp.binary64 (endT + eps64)) (step * (1 # 2)) < fuel)%nat ->
  exists best', scanWindow64 fuel va env params i j endT step ts best = Some best'.
Proof.
  intros Hs Hb. induction fuel as [|fuel IH]; intros j ts best Ht Hf; [lia|].
  cbn [scanWindow64].
  destruct (Cpp.le ts (Cpp.binary64 (endT + eps64))) eqn:E; cbn [andb]; [|eauto].
  destruct (flagRead va env i j); cbn [negb]; [eauto|].
  apply Cpp_le_iff in E.
  assert (Hh : 0 < step * (1 # 2)) by lra.
  rewrite (itersLeft_step ts _ _ Hh E) in Hf.
  pose proof (binary64_advance_half ts step Ht Hs ltac:(lra)) as Ha.
  pose proof (itersLeft_mono (ts + step * (1 # 2)) (Cpp.binary64 (ts + step))
                (Cpp.binary64 (endT + eps64)) (Cpp.binary64 (endT + eps64))
                (step * (1 # 2)) Hh Ha (Qle_refl _)) as Hm.
  apply IH; [lra | lia].
Qed.

(** The bound of the scan guard is at most a step of the grid above the
    duration. *)
Lemma guard64_bound (va : VideoAnalyzer) (params : AnalysisParams) (targetT : Q) :
  0 < duration (videoInfo_ va) -> duration (videoInfo_ va) <= 1000000 ->
  Cpp.binary64 (endOf64 va params targetT + eps64) <=
    Cpp.binary64 (duration (videoInfo_ va) + eps64) /\
  Cpp.binary64 (duration (videoInfo_ va) + eps64) <= duration (videoInfo_ va) + 1.
Proof.
  intros H0 Hd. pose proof eps64_bounds as [He1 He2]. split.
  - apply binary64_mono.
    pose proof (Cpp_min_le_l (duration (videoInfo_ va))
                  (Cpp.binary64 (targetT + searchWindowSec params))).
    unfold endOf64. lra.
  - destruct (binary64_near (duration (videoInfo_ va) + eps64)) as [_ H]; lra.
Qed.

Lemma searchUnit64_total (fuel : nat) (va : VideoAnalyzer) (env : CancelEnv)
  (params : AnalysisParams) (i : nat) (targetT : Q) :
  0 < duration (videoInfo_ va) ->
  1 # 1000000000 <= searchStepSec params ->
  duration (videoInfo_ va) + searchStepSec params <= 1000000 ->
  (searchFuel64 va params <= fuel)%nat ->
  exists r, searchUnit64 fuel va env params i targetT = Some r.
Proof.
  intros H0 Hs Hb Hf. unfold searchUnit64.
  destruct (flagRead va env i 0); [eauto|].
  destruct (guard64_bound va params targetT H0 ltac:(lra)) as [Hg1 Hg2].
  destruct (startOf64_fixed params targetT) as [_ Hlo].
  destruct (scanWindow64_total va env params i (endOf64 va params targetT)
              (searchStepSec params) Hs ltac:(lra) fuel 1%nat
              (startOf64 params targetT) (mkBest (-1) targetT None) Hlo) as [b Hb'].
  - unfold searchFuel64 in Hf.
    pose proof (loopFuel_enough 0 (Cpp.binary64 (duration (videoInfo_ va) + eps64))
                  (searchStepSec params * (1 # 2))).
    assert (Hm : (itersLeft (startOf64 params targetT)
                    (Cpp.binary64 (endOf64 va params targetT + eps64))
                    (searchStepSec params * (1 # 2))
                  <= itersLeft 0 (Cpp.binary64 (duration (videoInfo_ va) + eps64))
                       (searchStepSec params * (1 # 2)))%nat).
    { apply itersLeft_mono; [lra | exact Hlo | exact Hg1]. }
    lia.
  - rewrite Hb'. cbn. eauto.
Qed.

Lemma findOptimalFrames64_total (fuel : nat) (va : VideoAnalyzer) (env : CancelEnv)
  (params : AnalysisParams) (allSamples outSelected : list (FrameData Mat)) :
  1 # 1000000000 <= intervalSec params -> 1 # 1000000000 <= searchStepSec params ->
  duration (videoInfo_ va) + intervalSec params <= 1000000 ->
  duration (videoInfo_ va) + searchStepSec params <= 1000000 ->
  (searchFuel64 va params <= fuel)%nat ->
  exists ok out va',
    findOptimalFrames64 fuel va env params allSamples outSelected = Some (ok, out, va').
Proof.
  intros Hi Hs Hbi Hbs Hf. unfold findOptimalFrames64.
  destruct (negb (cap_isOpened va)); [eauto|]. cbn zeta.
  destruct (Cpp.le (duration (videoInfo_ (resetCancel va))) 0) eqn:Ed; [eauto|].
  apply Cpp_le_false_iff in Ed.
  change (videoInfo_ (resetCancel va)) with (videoInfo_ va) in Ed.
  assert (Hsl : exists rs, searchSlots64 fuel (resetCancel va) env params = Some rs).
  { unfold searchSlots64.
    change (videoInfo_ (resetCancel va)) with (videoInfo_ va).
    destruct (gridTimes64_total fuel 0 (duration (videoInfo_ va)) (intervalSec params)
                Hi ltac:(lra) (Qle_refl _)) as [ts Hts].
    { unfold searchFuel64 in Hf.
      pose proof (loopFuel_enough 0 (duration (videoInfo_ va))
                    (intervalSec params * (1 # 2))). lia. }
    rewrite Hts.
    apply forUnits_total. intros k a _.
    apply searchUnit64_total; assumption. }
  destruct Hsl as [rs Hrs]. rewrite Hrs. eauto.
Qed.

(** ** A half-width of 0 on the rounded optimizer *)

Lemma scanWindow64_once (fuel : nat) (va : VideoAnalyzer) (env : CancelEnv)
  (params : AnalysisParams) (i j : nat) (endT step ts : Q) (best best' : Best Mat) :
  Cpp.binary64 (endT + eps64) < Cpp.binary64 (ts + step) ->
  scanWindow64 fuel va env params i j endT step ts best = Some best' ->
  best' = best \/ best' = retain64 va params best ts.
Proof.
  intros Hn Hu. apply Cpp_le_false_iff in Hn.
  destruct fuel as [|fuel]; [discriminate|]. cbn [scanWindow64] in Hu.
  destruct (Cpp.le ts (Cpp.binary64 (endT + eps64)) && negb (flagRead va env i j)).
  - destruct fuel as [|fuel]; [discriminate|]. cbn [scanWindow64] in Hu.
    rewrite Hn in Hu. cbn [andb] in Hu. right. now injection Hu.
  - left. now injection Hu.
Qed.

Lemma retain64_frame (va : VideoAnalyzer) (params : AnalysisParams) (best : Best Mat)
  (ts : Q) (frame : Mat) :
  bestFrame best = None ->
  bestFrame (retain64 va params best ts) = Some frame ->
  bestTime (retain64 va params best ts) = ts /\
  seekRead64 va ts = Some frame /\
  bestVar (retain64 va params best ts) = calculateSharpness frame (algorithm params).
Proof.
  intros Hnone Hf. unfold retain64 in *.
  destruct (seekRead64 va ts) as [f|]; [|congruence].
  cbn zeta in *.
  destruct (Cpp.gt (calculateSharpness f (algorithm params)) (bestVar best));
    [|congruence].
  cbn [bestFrame bestTime bestVar] in *. injection Hf as <-. auto.
Qed.

Lemma searchUnit64_zero_window (fuel : nat) (va : VideoAnalyzer) (env : CancelEnv)
  (params : AnalysisParams) (i : nat) (t : Q) (r : FrameData Mat) :
  searchWindowSec params == 0 ->
  2 # 1000000000 <= searchStepSec params ->
  0 <= t -> Cpp.binary64 t == t ->
  t + searchStepSec params <= 1000000 ->
  searchUnit64 fuel va env params i t = Some r ->
  hasThumbnail r = true ->
  time r == t /\
  exists frame,
    seekRead64 va (time r) = Some frame /\
    sharpness r = calculateSharpness frame (algorithm params).
Proof.
  intros Hw Hs Ht Hr Hb Hu Hth.
  assert (Hlo : startOf64 params t == t).
  { unfold startOf64.
    rewrite (binary64_proper (t - searchWindowSec params) t) by lra.
    unfold Cpp.max.
    destruct (Cpp.gt (Cpp.binary64 t) 0) eqn:E; [exact Hr|].
    apply Cpp_gt_false_iff in E. lra. }
  assert (Hhi : endOf64 va params t <= t).
  { unfold endOf64.
    rewrite (binary64_proper (t + searchWindowSec params) t) by lra.
    pose proof (Cpp_min_le_r (duration (videoInfo_ va)) (Cpp.binary64 t)). lra. }
  pose proof eps64_bounds as [He1 He2].
  assert (Hhi' : Cpp.binary64 (endOf64 va params t + eps64) <= t + (12 # 10000000000)).
  { apply Qle_trans with (Cpp.binary64 (t + eps64)).
    - apply binary64_mono. lra.
    - destruct (binary64_near (t + eps64)) as [_ H]; lra. }
  assert (Hnext : Cpp.binary64 (endOf64 va params t + eps64)
                  < Cpp.binary64 (startOf64 params t + searchStepSec params)).
  { destruct (binary64_near (startOf64 params t + searchStepSec params)) as [H _]; lra. }
  unfold searchUnit64 in Hu.
  destruct (flagRead va env i 0).
  { injection Hu as <-. discriminate Hth. }
  destruct (scanWindow64 fuel va env params i 1 (endOf64 va params t)
              (searchStepSec params) (startOf64 params t) (mkBest (-1) t None))
    as [best|] eqn:Es; [|discriminate Hu].
  cbn [option_map] in Hu. injection Hu as <-.
  destruct (hasThumbnail_emit best Hth) as [frame Hf].
  destruct (scanWindow64_once _ _ _ _ _ _ _ _ _ _ _ Hnext Es) as [-> | ->];
    [discriminate Hf|].
  destruct (retain64_frame va params (mkBest (-1) t None) (startOf64 params t) frame
              eq_refl Hf) as (H1 & H2 & H3).
  unfold emit. rewrite Hf. cbn [time sharpness].
  rewrite H1. split; [exact Hlo|]. exists frame. split; [exact H2 | exact H3].
Qed.

(** ** Single precision: the CPU load *)

Lemma binary32_mono (x y : Q) : x <= y -> Cpp.binary32 x <= Cpp.binary32 y.
Proof. apply rounded_mono. lia. Qed.

Lemma binary32_proper (x y : Q) : x == y -> Cpp.binary32 x = Cpp.binary32 y.
Proof. apply rounded_proper. Qed.

Lemma binary32_ge (c x : Q) : Cpp.binary32 c == c -> c <= x -> c <= Cpp.binary32 x.
Proof. intros E H. apply binary32_mono in H. lra. Qed.

Lemma binary32_le (c x : Q) : Cpp.binary32 c == c -> x <= c -> Cpp.binary32 x <= c.
Proof. intros E H. apply binary32_mono in H. lra. Qed.

Lemma binary32_error (e : Z) (x : Q) :
  (-126 <= e)%Z -> 0 <= x -> x < 2 ^ (e + 1) ->
  Qabs (Cpp.binary32 x - x) <= 2 ^ (e - 24).
Proof.
  intros He H0 Hx. destruct (Qlt_le_dec 0 x) as [Hp | Hz].
  - pose proof (rounded_error 24 (-126) x) as Hr.
    pose proof (exponent_below (-126) e x He Hp Hx) as Hb.
    assert (Hq : 2 ^ (Cpp.exponent (-126) x - 24 + 1) * (1 # 2)
                 == 2 ^ (Cpp.exponent (-126) x - 24)).
    { rewrite pow2_succ. field. }
    assert (Hl : 2 ^ (Cpp.exponent (-126) x - 24) <= 2 ^ (e - 24)) by (apply pow2_le; lia).
    unfold Cpp.binary32. rewrite Hq in Hr. lra.
  - assert (Ez : x == 0) by lra.
    pose proof (rounded_zero 24 (-126) x Ez) as Hr.
    pose proof (pow2_pos (e - 24)) as Hpos.
    apply Qabs_Qle_condition. unfold Cpp.binary32. split; lra.
Qed.

(** The integers below 2^24 are [float] values. *)
Lemma binary32_int (n : Z) :
  (0 <= n < 16777216)%Z -> Cpp.binary32 (inject_Z n) == inject_Z n.
Proof.
  intros Hn. destruct (Z.eq_dec n 0) as [-> | Hne].
  - apply rounded_zero. reflexivity.
  - assert (Hp : 0 < inject_Z n) by (rewrite <- (Zlt_Qlt 0); lia).
    assert (Hb : (Cpp.exponent (-126) (inject_Z n) <= 23)%Z).
    { apply exponent_below; [lia | exact Hp |].
      change (2 ^ (23 + 1)) with (inject_Z 16777216). rewrite <- Zlt_Qlt. lia. }
    pose proof (exponent_ge (-126) (inject_Z n)) as Hg.
    set (e := Cpp.exponent (-126) (inject_Z n)) in *.
    apply (rounded_fix 24 (-126) (inject_Z n) (n * 2 ^ (23 - e))).
    fold e. rewrite inject_Z_mult, <- (pow2_Z (23 - e)) by lia.
    rewrite <- Qmult_assoc, <- pow2_plus.
    replace (23 - e + (e - 24 + 1))%Z with 0%Z by lia.
    change (2 ^ 0) with 1. ring.
Qed.

(** [100.0f * (1.0f - static_cast<float>(idleDelta) / totalDelta)] stays
    between 0 and 100. *)
Lemma cpuLoad_bounds (idleDelta totalDelta : Z) :
  (0 < totalDelta)%Z -> (0 <= idleDelta <= totalDelta)%Z ->
  0 <= Cpp.binary32
         (100 * Cpp.binary32
                  (1 - Cpp.binary32 (Cpp.binary32 (inject_Z idleDelta) /
                                     Cpp.binary32 (inject_Z totalDelta)))) /\
  Cpp.binary32
    (100 * Cpp.binary32
             (1 - Cpp.binary32 (Cpp.binary32 (inject_Z idleDelta) /
                                Cpp.binary32 (inject_Z totalDelta)))) <= 100.
Proof.
  intros Ht Hd.
  assert (E0 : Cpp.binary32 0 == 0) by (apply rounded_zero; reflexivity).
  assert (E1 : Cpp.binary32 1 == 1) by (vm_compute; reflexivity).
  assert (E100 : Cpp.binary32 100 == 100) by (vm_compute; reflexivity).
  assert (Hi0 : 0 <= Cpp.binary32 (inject_Z idleDelta)).
  { apply (binary32_ge 0 _ E0). rewrite <- (Zle_Qle 0). lia. }
  assert (Hit : Cpp.binary32 (inject_Z idleDelta) <= Cpp.binary32 (inject_Z totalDelta)).
  { apply binary32_mono. rewrite <- Zle_Qle. lia. }
  assert (Ht1 : 1 <= Cpp.binary32 (inject_Z totalDelta)).
  { apply (binary32_ge 1 _ E1). change 1 with (inject_Z 1).
    rewrite <- Zle_Qle. lia. }
  set (a := Cpp.binary32 (inject_Z idleDelta)) in *.
  set (b := Cpp.binary32 (inject_Z totalDelta)) in *.
  assert (Hb : 0 < b) by lra.
  assert (Hq0 : 0 <= a / b).
  { apply Qle_shift_div_l; [exact Hb | lra]. }
  assert (Hq1 : a / b <= 1).
  { apply Qle_shift_div_r; [exact Hb | lra]. }
  assert (Hr0 : 0 <= Cpp.binary32 (a / b)).
  { apply (binary32_ge 0 _ E0). exact Hq0. }
  assert (Hr1 : Cpp.binary32 (a / b) <= 1).
  { apply (binary32_le 1 _ E1). exact Hq1. }
  set (q := Cpp.binary32 (a / b)) in *.
  assert (Hu0 : 0 <= Cpp.binary32 (1 - q)).
  { apply (binary32_ge 0 _ E0). lra. }
  assert (Hu1 : Cpp.binary32 (1 - q) <= 1).
  { apply (binary32_le 1 _ E1). lra. }
  set (u := Cpp.binary32 (1 - q)) in *.
  split.
  - apply (binary32_ge 0 _ E0). lra.
  - apply (binary32_le 100 _ E100). lra.
Qed.

(** For fewer than 2^24 ticks the conversions to [float] are exact and the
    three rounded operations stay within 2e-5 of the exact percentage. *)
Lemma cpuLoad_error (idleDelta totalDelta : Z) :
  (0 < totalDelta)%Z -> (0 <= idleDelta <= totalDelta)%Z ->
  (totalDelta < 16777216)%Z ->
  Qabs (Cpp.binary32
          (100 * Cpp.binary32
                   (1 - Cpp.binary32 (Cpp.binary32 (inject_Z idleDelta) /
                                      Cpp.binary32 (inject_Z totalDelta))))
        - 100 * (1 - inject_Z idleDelta / inject_Z totalDelta)) <= 1 # 50000.
Proof.
  intros Ht Hd Hs.
  assert (Ea : Cpp.binary32 (inject_Z idleDelta) / Cpp.binary32 (inject_Z totalDelta)
               == inject_Z idleDelta / inject_Z totalDelta).
  { rewrite (binary32_int idleDelta) by lia.
    rewrite (binary32_int totalDelta) by lia. reflexivity. }
  rewrite (binary32_proper _ _ Ea).
  assert (HtD : 0 < inject_Z totalDelta) by (rewrite <- (Zlt_Qlt 0); lia).
  assert (Hq0 : 0 <= inject_Z idleDelta / inject_Z totalDelta).
  { apply Qle_shift_div_l; [exact HtD|]. rewrite Qmult_0_l, <- (Zle_Qle 0). lia. }
  assert (Hq1 : inject_Z idleDelta / inject_Z totalDelta <= 1).
  { apply Qle_shift_div_r; [exact HtD|]. rewrite Qmult_1_l, <- Zle_Qle. lia. }
  set (x := inject_Z idleDelta / inject_Z totalDelta) in *.
  assert (E0 : Cpp.binary32 0 == 0) by (apply rounded_zero; reflexivity).
  assert (E1 : Cpp.binary32 1 == 1) by (vm_compute; reflexivity).
  assert (P24 : 2 ^ (0 - 24) == 1 # 16777216) by reflexivity.
  assert (P18 : 2 ^ (6 - 24) == 1 # 262144) by reflexivity.
  pose proof (binary32_error 0 x ltac:(lia) Hq0
                ltac:(apply Qle_lt_trans with (1 := Hq1); reflexivity)) as Hx.
  rewrite P24 in Hx. apply Qabs_Qle_condition in Hx. destruct Hx as [Hx1 Hx2].
  assert (Hr0 : 0 <= Cpp.binary32 x).
  { apply (binary32_ge 0 _ E0). exact Hq0. }
  assert (Hr1 : Cpp.binary32 x <= 1).
  { apply (binary32_le 1 _ E1). exact Hq1. }
  set (q := Cpp.binary32 x) in *.
  pose proof (binary32_error 0 (1 - q) ltac:(lia) ltac:(lra)
                ltac:(apply Qle_lt_trans with 1; [lra | reflexivity])) as Hu.
  rewrite P24 in Hu. apply Qabs_Qle_condition in Hu. destruct Hu as [Hu1 Hu2].
  assert (Hv0 : 0 <= Cpp.binary32 (1 - q)).
  { apply (binary32_ge 0 _ E0). lra. }
  assert (Hv1 : Cpp.binary32 (1 - q) <= 1).
  { apply (binary32_le 1 _ E1). lra. }
  set (u := Cpp.binary32 (1 - q)) in *.
  pose proof (binary32_error 6 (100 * u) ltac:(lia) ltac:(lra)
                ltac:(apply Qle_lt_trans with 100; [lra | reflexivity])) as Hw.
  rewrite P18 in Hw. apply Qabs_Qle_condition in Hw. destruct Hw as [Hw1 Hw2].
  set (w := Cpp.binary32 (100 * u)) in *.
  apply Qabs_Qle_condition. split; lra.
Qed.

End Analysis.

Arguments hasThumbnail {Mat}.
Arguments pairOf {Mat}.
Arguments seekRead {Mat}.
Arguments sampleUnit {Mat}.
Arguments sampleSlots {Mat}.
Arguments analyzeFullVideo {Mat}.
Arguments retain {Mat}.
Arguments emit {Mat}.
Arguments scanWindow {Mat}.
Arguments searchUnit {Mat}.
Arguments searchSlots {Mat}.
Arguments findOptimalFrames {Mat}.
Arguments getFrameAt {Mat}.
Arguments collect {Mat}.
Arguments filename {Mat}.
Arguments exportStep {Mat}.
Arguments exportRun {Mat}.
Arguments exportRegion {Mat}.
Arguments exportFrames {Mat}.
Arguments saveConfig {Mat}.
Arguments loadFrame {Mat}.
Arguments loadConfig {Mat}.
Arguments getSelectedCount {Mat}.
Arguments toggleAt {Mat}.
Arguments toggleFrameSelection {Mat}.
Arguments lower_bound_loop {Mat}.
Arguments lower_bound {Mat}.
Arguments addFrameAtTime {Mat}.
Arguments closestLoop {Mat}.
Arguments leftClick {Mat}.
Arguments rightClick {Mat}.
Arguments loadVideo {Mat}.
Arguments startAnalysis {Mat}.
Arguments App_exportFrames {Mat}.
Arguments cliExport {Mat}.
Arguments runCli {Mat}.
Arguments main {Mat}.
Arguments byTime {Mat}.
Arguments seekRead64 {Mat}.
Arguments retain64 {Mat}.
Arguments scanWindow64 {Mat}.
Arguments searchUnit64 {Mat}.
Arguments searchSlots64 {Mat}.
Arguments findOptimalFrames64 {Mat}.
Arguments unitFiles {Mat}.
Arguments beforeTime {Mat}.

(* ------------------------------------------------------------------ *)
(** * The claims *)

(** C1.  In [findOptimalFrames] (positive grid interval and scan step),
    every emitted entry is a position scanned for one of the targets, it
    carries the score of the frame read there, no readable scanned
    position of that target scores higher (the comparison being a strict
    [>]), and every readable scanned position with the same score is at the
    same or a later time: ties go to the earliest, smallest-time
    candidate.  With non-negative scores a target that was started is
    dropped only when none of its scanned positions could be read.  In the
    window [1.5, 2.5] with scores 12 at 1.6, 12 at 2.0 and 9 at 2.4 the
    chosen time is 1.6. *)
Theorem C1_first_maximum_retained :
  (forall (Mat : Type) (rows cols : Mat -> Z) (score : Mat -> SharpnessAlgorithm -> Q)
          (read : string -> Q -> option Mat) (resize : Mat -> Z -> Z -> Mat)
          (fuel : nat) (va : VideoAnalyzer) (env : CancelEnv) (params : AnalysisParams)
          (allSamples outSelected : list (FrameData Mat)),
     cap_isOpened va = true ->
     0 < intervalSec params -> 0 < searchStepSec params ->
     (searchFuel va params <= fuel)%nat ->
     exists ok out va',
       findOptimalFrames rows cols score read resize fuel va env params
         allSamples outSelected = Some (ok, out, va') /\
       (forall r, In r out ->
          exists targetTimes k targetT ps frame,
            gridTimes fuel 0 (duration (videoInfo_ va)) (intervalSec params)
              = Some targetTimes /\
            nth_error targetTimes k = Some targetT /\
            searchUnit rows cols score read resize fuel (resetCancel va) env params
              k targetT = Some r /\
            scannedFor fuel (resetCancel va) env params k targetT = Some ps /\
            In (time r) ps /\
            seekRead read va (time r) = Some frame /\
            sharpness r = score frame (algorithm params) /\
            forall p frame', In p ps -> seekRead read va p = Some frame' ->
              score frame' (algorithm params) <= sharpness r /\
              (score frame' (algorithm params) == sharpness r -> time r <= p)) /\
       ((forall frame, 0 <= score frame (algorithm params)) ->
        forall targetTimes k targetT r ps p,
          gridTimes fuel 0 (duration (videoInfo_ va)) (intervalSec params)
            = Some targetTimes ->
          nth_error targetTimes k = Some targetT ->
          requested env k 0 = false ->
          searchUnit rows cols score read resize fuel (resetCancel va) env params
            k targetT = Some r ->
          hasThumbnail r = false ->
          scannedFor fuel (resetCancel va) env params k targetT = Some ps ->
          In p ps -> seekRead read va p = None)) /\
  (exists r,
     searchUnit Bench.pic_rows Bench.pic_cols Bench.score Bench.sparse Bench.resize
       (searchFuel (Bench.clip 10) Bench.example) (Bench.clip 10) quiet Bench.example
       1 2 = Some r /\
     startOf Bench.example 2 == 15 # 10 /\
     endOf (Bench.clip 10) Bench.example 2 == 25 # 10 /\
     hasThumbnail r = true /\ time r == 16 # 10 /\ sharpness r == 12).
Proof.
  split.
  - intros Mat rows cols score read resize fuel va env params allSamples outSelected
      Ho Hi Hs Hf.
    destruct (findOptimalFrames_total Mat rows cols score read resize fuel va env params
                allSamples outSelected Hi Hs Hf) as (ok & out & va' & Hrun).
    exists ok, out, va'. split; [exact Hrun|]. split.
    + intros r Hin.
      destruct (findOptimalFrames_out Mat rows cols score read resize _ _ _ _ _ _ _ _ _ r
                  Ho Hrun Hin) as [Ht (ts & k & t & Hts & Hk & Hu)].
      destruct (searchUnit_argmax Mat rows cols score read resize _ _ _ _ _ _ _ Hs Hu Ht)
        as (ps & f & Hps & Hin' & Hrd & Hsh & _ & Hmax).
      exists ts, k, t, ps, f. repeat (split; [assumption|]). exact Hmax.
    + intros Hnn ts k t r ps p Hts Hk Hreq Hu Ht Hps Hin.
      eapply (searchUnit_dropped Mat rows cols score read resize fuel (resetCancel va)
                env params k t r ps); eauto.
  - eexists. split; [vm_compute; reflexivity|].
    repeat split; vm_compute; reflexivity.
Qed.

(** The example run as a whole: a 4 s clip with targets 0, 2 and 4, frames
    readable at 1.6 s, 2.0 s and 2.4 s only.  The single emitted entry is
    the first maximum of its window. *)
Lemma C1_witness :
  exists ok out va',
    findOptimalFrames Bench.pic_rows Bench.pic_cols Bench.score Bench.sparse Bench.resize
      (searchFuel (Bench.clip 4) Bench.example) (Bench.clip 4) quiet Bench.example [] []
      = Some (ok, out, va') /\
    forall r, In r out ->
      exists ps frame,
        In (time r) ps /\
        seekRead Bench.sparse (Bench.clip 4) (time r) = Some frame /\
        sharpness r = Bench.pic_score frame /\
        forall p frame', In p ps -> seekRead Bench.sparse (Bench.clip 4) p = Some frame' ->
          Bench.pic_score frame' <= sharpness r /\
          (Bench.pic_score frame' == sharpness r -> time r <= p).
Proof.
  destruct (proj1 C1_first_maximum_retained Bench.Pic
              Bench.pic_rows Bench.pic_cols Bench.score Bench.sparse Bench.resize
              (searchFuel (Bench.clip 4) Bench.example) (Bench.clip 4) quiet
              Bench.example [] [])
    as (ok & out & va' & Hrun & Hmax & _).
  - reflexivity.
  - reflexivity.
  - reflexivity.
  - apply Nat.le_refl.
  - exists ok, out, va'. split; [exact Hrun|].
    intros r Hin.
    destruct (Hmax r Hin) as (ts & k & t & ps & f & _ & _ & _ & _ & H1 & H2 & H3 & H4).
    exists ps, f. split; [exact H1|]. split; [exact H2|]. split; [exact H3 | exact H4].
Defined.

(** C2, as stated: the emitted time lies in
    [[max(0, t - window), min(D, t + window)]].  On a 1 s clip with targets
    0 and 1, half-width [3 * 2^-10 + 2^-32] and step [2^-10 + 2^-33], the
    scan of target 0 visits 0, s, 2s and 3s: the last one exceeds the
    window end by 2^-33 s, within the loop's tolerance of 1e-9, and it is
    the one retained when scores grow with time.  The emitted time lies in
    the clamped window of neither target.  Every number of this run is a
    [double] and every operation on it exact: the run with the rounding of
    [double] and the run on exact rationals return the same. *)
Lemma C2_counterexample :
  exists r0 r1 va',
    findOptimalFrames64 Bench.pic_rows Bench.pic_cols Bench.score Bench.ramp Bench.resize
      (searchFuel64 (Bench.clip 1) Bench.tight) (Bench.clip 1) quiet Bench.tight [] []
      = Some (true, [r0; r1], va') /\
    gridTimes64 (searchFuel64 (Bench.clip 1) Bench.tight) 0 1 1 = Some [0; 1] /\
    searchUnit64 Bench.pic_rows Bench.pic_cols Bench.score Bench.ramp Bench.resize
      (searchFuel64 (Bench.clip 1) Bench.tight) (Bench.clip 1) quiet Bench.tight 0 0
      = Some r0 /\
    time r0 == 3 * Bench.tightStep /\
    Cpp.min 1 (0 + Bench.tightWindow) < time r0 /\
    (forall t, In t [0; 1] ->
      ~ (Cpp.max 0 (t - Bench.tightWindow) <= time r0 /\
         time r0 <= Cpp.min 1 (t + Bench.tightWindow))) /\
    exists q0 q1 va'',
      findOptimalFrames Bench.pic_rows Bench.pic_cols Bench.score Bench.ramp Bench.resize
        (searchFuel (Bench.clip 1) Bench.tight) (Bench.clip 1) quiet Bench.tight [] []
        = Some (true, [q0; q1], va'') /\
      time q0 == time r0 /\ time q1 == time r1.
Proof.
  eexists _, _, _. split; [vm_compute; reflexivity|].
  split; [vm_compute; reflexivity|].
  split; [vm_compute; reflexivity|].
  split; [vm_compute; reflexivity|].
  split; [vm_compute; reflexivity|].
  split.
  - intros t [<- | [<- | []]] [H1 H2].
    + vm_compute in H2. apply H2. reflexivity.
    + vm_compute in H1. apply H1. reflexivity.
  - eexists _, _, _. split; [vm_compute; reflexivity|].
    split; vm_compute; reflexivity.
Qed.

(** C2, amended.  For every target time [t] of a [findOptimalFrames] run
    with duration [D] and half-width [window] (positive grid interval and
    scan step), the time of the selection emitted for [t] lies within
    [[max(0, fl(t - window)), fl(min(D, fl(t + window)) + 1e-9)]], bounds
    included, where [fl] rounds to the nearest [double]: the bounds are the
    ones the run computes, and the upper one carries the tolerance of the
    scan loop's guard.  The run returns when interval and step are at least
    1e-9 s and the duration stays below a million seconds, where a rounded
    addition still advances. *)
Theorem C2_window_with_tolerance :
  forall (Mat : Type) (rows cols : Mat -> Z) (score : Mat -> SharpnessAlgorithm -> Q)
         (read : string -> Q -> option Mat) (resize : Mat -> Z -> Z -> Mat)
         (fuel : nat) (va : VideoAnalyzer) (env : CancelEnv) (params : AnalysisParams)
         (allSamples outSelected : list (FrameData Mat)),
    cap_isOpened va = true ->
    0 < intervalSec params -> 0 < searchStepSec params ->
    (forall ok out va',
       findOptimalFrames64 rows cols score read resize fuel va env params
         allSamples outSelected = Some (ok, out, va') ->
       forall r, In r out ->
         exists targetTimes k t,
           gridTimes64 fuel 0 (duration (videoInfo_ va)) (intervalSec params)
             = Some targetTimes /\
           nth_error targetTimes k = Some t /\
           searchUnit64 rows cols score read resize fuel (resetCancel va) env params k t
             = Some r /\
           Cpp.max 0 (Cpp.binary64 (t - searchWindowSec params)) <= time r /\
           time r <= Cpp.binary64
                       (Cpp.min (duration (videoInfo_ va))
                          (Cpp.binary64 (t + searchWindowSec params))
                        + Cpp.binary64 (1 # 1000000000))) /\
    (1 # 1000000000 <= intervalSec params ->
     1 # 1000000000 <= searchStepSec params ->
     duration (videoInfo_ va) + intervalSec params <= 1000000 ->
     duration (videoInfo_ va) + searchStepSec params <= 1000000 ->
     (searchFuel64 va params <= fuel)%nat ->
     exists ok out va',
       findOptimalFrames64 rows cols score read resize fuel va env params
         allSamples outSelected = Some (ok, out, va')).
Proof.
  intros Mat rows cols score read resize fuel va env params allSamples outSelected
    Ho Hi Hs. split.
  - intros ok out va' Hrun r Hin.
    destruct (findOptimalFrames64_out Mat rows cols score read resize _ _ _ _ _ _ _ _ _ r
                Ho Hrun Hin) as [Ht (ts & k & t & Hts & Hk & Hu)].
    destruct (searchUnit64_window Mat rows cols score read resize _ _ _ _ _ _ _
                (Qlt_le_weak _ _ Hs) Hu Ht) as (Hlo & Hhi & _).
    exists ts, k, t. split; [exact Hts|]. split; [exact Hk|].
    split; [exact Hu|]. split; [exact Hlo | exact Hhi].
  - intros Hi9 Hs9 Hbi Hbs Hf.
    exact (findOptimalFrames64_total Mat rows cols score read resize fuel va env params
             allSamples outSelected Hi9 Hs9 Hbi Hbs Hf).
Qed.

(** On the tight example the run returns and both emitted times are within
    the bounds the run computed. *)
Lemma C2_witness :
  exists ok out va',
    findOptimalFrames64 Bench.pic_rows Bench.pic_cols Bench.score Bench.ramp Bench.resize
      (searchFuel64 (Bench.clip 1) Bench.tight) (Bench.clip 1) quiet Bench.tight [] []
      = Some (ok, out, va') /\
    forall r, In r out ->
      exists t,
        Cpp.max 0 (Cpp.binary64 (t - Bench.tightWindow)) <= time r /\
        time r <= Cpp.binary64 (Cpp.min 1 (Cpp.binary64 (t + Bench.tightWindow))
                                + Cpp.binary64 (1 # 1000000000)).
Proof.
  destruct (C2_window_with_tolerance Bench.Pic
              Bench.pic_rows Bench.pic_cols Bench.score Bench.ramp Bench.resize
              (searchFuel64 (Bench.clip 1) Bench.tight) (Bench.clip 1) quiet
              Bench.tight [] [])
    as [Hwin Hret].
  - reflexivity.
  - reflexivity.
  - reflexivity.
  - destruct Hret as (ok & out & va' & Hrun).
    + vm_compute. discriminate.
    + vm_compute. discriminate.
    + vm_compute. discriminate.
    + vm_compute. discriminate.
    + apply Nat.le_refl.
    + exists ok, out, va'. split; [exact Hrun|].
      intros r Hin.
      destruct (Hwin ok out va' Hrun r Hin) as (ts & k & t & _ & _ & _ & Hlo & Hhi).
      exists t. split; [exact Hlo | exact Hhi].
Defined.

(** C3, as stated: a scan that has started runs to completion and no
    partially scored target is emitted.  With a request arriving after the
    first scan step, the unit of target 2 s (window [1.5, 2.5], step 0.1,
    scores growing with time) stops after the single position 1.5 and the
    run emits (1.5, 1.5) for it, where the complete scan of eleven
    positions retains (2.5, 2.5). *)
Lemma C3_counterexample :
  exists r full ps psfull ok out va',
    searchUnit Bench.pic_rows Bench.pic_cols Bench.score Bench.ramp Bench.resize
      (searchFuel (Bench.clip 10) Bench.example) (Bench.clip 10) Bench.afterFirstStep
      Bench.example 1 2 = Some r /\
    scannedFor (searchFuel (Bench.clip 10) Bench.example) (Bench.clip 10)
      Bench.afterFirstStep Bench.example 1 2 = Some ps /\
    searchUnit Bench.pic_rows Bench.pic_cols Bench.score Bench.ramp Bench.resize
      (searchFuel (Bench.clip 10) Bench.example) (Bench.clip 10) quiet
      Bench.example 1 2 = Some full /\
    scannedFor (searchFuel (Bench.clip 10) Bench.example) (Bench.clip 10)
      quiet Bench.example 1 2 = Some psfull /\
    List.length ps = 1%nat /\ List.length psfull = 11%nat /\
    hasThumbnail r = true /\
    time r == 15 # 10 /\ sharpness r == 15 # 10 /\
    time full == 25 # 10 /\ sharpness full == 25 # 10 /\
    findOptimalFrames Bench.pic_rows Bench.pic_cols Bench.score Bench.ramp Bench.resize
      (searchFuel (Bench.clip 10) Bench.example) (Bench.clip 10) Bench.afterFirstStep
      Bench.example [] [] = Some (ok, out, va') /\
    In r out /\ ~ In full out.
Proof.
  eexists _, _, _, _, _, _, _.
  split; [vm_compute; reflexivity|]. split; [vm_compute; reflexivity|].
  split; [vm_compute; reflexivity|]. split; [vm_compute; reflexivity|].
  split; [reflexivity|]. split; [reflexivity|]. split; [reflexivity|].
  split; [vm_compute; reflexivity|]. split; [vm_compute; reflexivity|].
  split; [vm_compute; reflexivity|]. split; [vm_compute; reflexivity|].
  split; [vm_compute; reflexivity|].
  split.
  - right. left. reflexivity.
  - intros H. repeat (destruct H as [H | H]; [discriminate H|]). destruct H.
Qed.

(** C3, amended.  In [findOptimalFrames] the cancellation flag is read at
    the top of each target's unit and again before every step of its
    window scan.  A unit that passes the first check and observes the
    request at its [(k+1)]-th check inside the scan has visited exactly the
    first [k] positions of its window, and stores the best of those (which
    is emitted as soon as one of them was readable); a unit that observes
    no request scans its whole window. *)
Theorem C3_scan_stops_at_request :
  forall (Mat : Type) (rows cols : Mat -> Z) (score : Mat -> SharpnessAlgorithm -> Q)
         (read : string -> Q -> option Mat) (resize : Mat -> Z -> Z -> Mat)
         (fuel : nat) (va : VideoAnalyzer) (env : CancelEnv) (params : AnalysisParams)
         (i : nat) (targetT : Q) (ps : list Q),
    isCancelled va = false ->
    requested env i 0 = false ->
    scannedFor fuel va quiet params i targetT = Some ps ->
    (forall k,
       (forall m, (m < k)%nat -> requested env i (1 + m) = false) ->
       requested env i (1 + k) = true ->
       scannedFor fuel va env params i targetT = Some (firstn k ps) /\
       searchUnit rows cols score read resize fuel va env params i targetT =
         Some (emit rows cols resize
                 (fold_left (retain score read va params) (firstn k ps)
                    (mkBest (-1) targetT None)))) /\
    ((forall j, requested env i j = false) ->
     scannedFor fuel va env params i targetT = Some ps /\
     searchUnit rows cols score read resize fuel va env params i targetT =
       Some (emit rows cols resize
               (fold_left (retain score read va params) ps
                  (mkBest (-1) targetT None)))).
Proof.
  intros Mat rows cols score read resize fuel va env params i targetT ps Hva H0 Hq.
  split.
  - intros k Hlow Hk. split.
    + unfold scannedFor in *. now apply scanned_cut.
    + now apply searchUnit_cut.
  - intros Hnone.
    assert (Hsc : scannedFor fuel va env params i targetT = Some ps).
    { unfold scannedFor in *. rewrite scanned_uncut; auto. }
    split; [exact Hsc|].
    unfold searchUnit, flagRead. rewrite Hva, H0. cbn [orb].
    rewrite scan_fold. unfold scannedFor in Hsc. rewrite Hsc. reflexivity.
Qed.

(** The request after the first step leaves one scanned position, 1.5. *)
Lemma C3_witness :
  exists r,
    searchUnit Bench.pic_rows Bench.pic_cols Bench.score Bench.ramp Bench.resize
      (searchFuel (Bench.clip 10) Bench.example) (Bench.clip 10) Bench.afterFirstStep
      Bench.example 1 2 = Some r /\
    time r == 15 # 10.
Proof.
  destruct (C3_scan_stops_at_request Bench.Pic
              Bench.pic_rows Bench.pic_cols Bench.score Bench.ramp Bench.resize
              (searchFuel (Bench.clip 10) Bench.example) (Bench.clip 10)
              Bench.afterFirstStep Bench.example 1%nat 2
              [3 # 2; 32 # 20; 340 # 200; 3600 # 2000; 38000 # 20000;
               400000 # 200000; 4200000 # 2000000; 44000000 # 20000000;
               460000000 # 200000000; 4800000000 # 2000000000;
               50000000000 # 20000000000])
    as [Hcut _].
  - reflexivity.
  - reflexivity.
  - vm_compute. reflexivity.
  - destruct (Hcut 1%nat) as [_ Hu].
    + intros m Hm. destruct m as [|m]; [reflexivity | lia].
    + reflexivity.
    + eexists. split; [exact Hu|]. vm_compute. reflexivity.
Defined.

(** C4.  For every [analyzeFullVideo] run with duration [D > 0] and
    [sampleStepSec = s > 0], the grid of attempted sample times is
    [0, s, 2s, ...] up to [D], and it (hence the buffer of result slots)
    has [floor (D / s) + 1] points; for [D = 10] and [s = 2] the attempted
    times are 0, 2, 4, 6, 8, 10. *)
Theorem C4_full_scan_grid_count :
  (forall (Mat : Type) (score : Mat -> SharpnessAlgorithm -> Q)
          (read : string -> Q -> option Mat)
          (fuel : nat) (va : VideoAnalyzer) (env : CancelEnv) (params : AnalysisParams),
     let D := duration (videoInfo_ va) in
     let s := sampleStepSec params in
     0 < D -> 0 < s -> (loopFuel 0 D s <= fuel)%nat ->
     exists sampleTimes results,
       gridTimes fuel 0 D s = Some sampleTimes /\
       sampleSlots score read fuel va env params = Some results /\
       List.length sampleTimes = (Z.to_nat (Qfloor (D / s)) + 1)%nat /\
       List.length results = List.length sampleTimes /\
       forall k t, nth_error sampleTimes k = Some t ->
         t == inject_Z (Z.of_nat k) * s /\ t <= D) /\
  gridTimes (loopFuel 0 10 2) 0 10 2 = Some [0; 2; 4; 6; 8; 10].
Proof.
  split; [|reflexivity].
  intros Mat score read fuel va env params D s HD Hs Hf. subst D s.
  destruct (sampleSlots_total Mat score read fuel va env params Hs Hf)
    as (ts & rs & Hts & Hrs & Hlen & Hcount).
  exists ts, rs. split; [exact Hts|]. split; [exact Hrs|].
  split; [rewrite Hcount; now apply itersLeft_from_zero|].
  split; [exact Hlen|].
  intros k t Hk. destruct (gridTimes_nth _ _ _ _ _ _ _ Hts Hk) as [H1 H2].
  split; [rewrite H1; ring | exact H2].
Qed.

(** A 10 s clip scanned every 2 s has six result slots. *)
Lemma C4_witness :
  exists sampleTimes results,
    gridTimes 7 0 10 2 = Some sampleTimes /\
    sampleSlots Bench.score Bench.ramp 7 (Bench.clip 10) quiet
      (Bench.params 3 (1 # 2) (1 # 50) 2) = Some results /\
    List.length sampleTimes = 6%nat /\
    List.length results = List.length sampleTimes.
Proof.
  destruct (proj1 C4_full_scan_grid_count Bench.Pic Bench.score Bench.ramp 7%nat
              (Bench.clip 10) quiet (Bench.params 3 (1 # 2) (1 # 50) 2))
    as (ts & rs & H1 & H2 & H3 & H4 & _).
  - reflexivity.
  - reflexivity.
  - vm_compute. lia.
  - exists ts, rs. split; [exact H1|]. split; [exact H2|]. split; [exact H3 | exact H4].
Defined.

(** C5, as stated: a cancellation requested before a run starts makes the
    run emit nothing and return the cancelled outcome, and one requested
    during a run leaves a subset of the full-run output.  The run clears
    the flag when it starts: with [cancel()] called on the analyzer
    beforehand and no call during the run, [analyzeFullVideo] on a 10 s
    clip sampled every 2 s returns the completed outcome with all six
    samples, and [findOptimalFrames] returns completed with six
    selections.  And when the request arrives after three units of
    [analyzeFullVideo] have started, on a clip whose frames all score 7,
    the output holds an entry of sharpness 0 that the full run does not
    have. *)
Lemma C5_counterexample :
  exists out va' sel va'' part va3 full va4,
    analyzeFullVideo Bench.score Bench.ramp
      (searchFuel (Bench.clip 10) Bench.example) (cancel (Bench.clip 10)) quiet
      Bench.example [] = Some (true, out, va') /\
    List.length out = 6%nat /\ isCancelled va' = false /\
    findOptimalFrames Bench.pic_rows Bench.pic_cols Bench.score Bench.ramp Bench.resize
      (searchFuel (Bench.clip 10) Bench.example) (cancel (Bench.clip 10)) quiet
      Bench.example [] [] = Some (true, sel, va'') /\
    List.length sel = 6%nat /\ isCancelled va'' = false /\
    analyzeFullVideo Bench.score Bench.flat
      (searchFuel (Bench.clip 10) Bench.example) (Bench.clip 10) Bench.afterThreeUnits
      Bench.example [] = Some (false, part, va3) /\
    analyzeFullVideo Bench.score Bench.flat
      (searchFuel (Bench.clip 10) Bench.example) (Bench.clip 10) quiet
      Bench.example [] = Some (true, full, va4) /\
    (exists r, In r part /\ sharpness r == 0) /\
    Forall (fun r => sharpness r == 7) full /\
    ~ incl part full.
Proof.
  eexists _, _, _, _, _, _, _, _.
  split; [vm_compute; reflexivity|]. split; [reflexivity|]. split; [reflexivity|].
  split; [vm_compute; reflexivity|]. split; [reflexivity|]. split; [reflexivity|].
  split; [vm_compute; reflexivity|]. split; [vm_compute; reflexivity|].
  split.
  { exists FrameData_default. split; [|reflexivity]. do 3 right. left. reflexivity. }
  split.
  { repeat constructor. }
  intros Hincl.
  specialize (Hincl FrameData_default ltac:(do 3 right; left; reflexivity)).
  repeat (destruct Hincl as [Hincl | Hincl]; [discriminate Hincl|]). destruct Hincl.
Qed.

(** C5, amended.  On an opened analyzer with a known duration, a
    cancellation flag set before [analyzeFullVideo] or [findOptimalFrames]
    starts is cleared by the run and changes nothing: the run is the one
    of an analyzer whose flag was not set, so with no request during the
    run it emits the full-run output and returns the completed outcome.
    A run returns the cancelled outcome exactly when the flag is up after
    its parallel region, in particular (the flag only going up) when some
    unit has observed a request.  In [findOptimalFrames], when every
    target's unit observes the request either at its start or not at all,
    the output is a subset of the full-run output, and it is empty when
    every unit observes it at its start.  In [analyzeFullVideo] every unit
    that did not observe the request stores the same entry as in the full
    run. *)
Theorem C5_cancellation_amended :
  forall (Mat : Type) (rows cols : Mat -> Z) (score : Mat -> SharpnessAlgorithm -> Q)
         (read : string -> Q -> option Mat) (resize : Mat -> Z -> Z -> Mat)
         (fuel : nat) (va : VideoAnalyzer) (env : CancelEnv) (params : AnalysisParams)
         (allSamples out0 : list (FrameData Mat)),
    cap_isOpened va = true -> 0 < duration (videoInfo_ va) ->
    (analyzeFullVideo score read fuel (cancel va) env params out0 =
     analyzeFullVideo score read fuel va env params out0) /\
    (findOptimalFrames rows cols score read resize fuel (cancel va) env params
       allSamples out0 =
     findOptimalFrames rows cols score read resize fuel va env params allSamples out0) /\
    (forall ok out va',
       analyzeFullVideo score read fuel (cancel va) env params out0
         = Some (ok, out, va') ->
       ok = negb (requestedAtEnd env) /\
       (monotone env -> forall i j, requested env i j = true -> ok = false)) /\
    (forall ok out va',
       findOptimalFrames rows cols score read resize fuel (cancel va) env params
         allSamples out0 = Some (ok, out, va') ->
       ok = negb (requestedAtEnd env) /\
       (monotone env -> forall i j, requested env i j = true -> ok = false)) /\
    (atUnitBoundaries env ->
     forall ok out va' ok' full va'',
       findOptimalFrames rows cols score read resize fuel va env params
         allSamples out0 = Some (ok, out, va') ->
       findOptimalFrames rows cols score read resize fuel va quiet params
         allSamples out0 = Some (ok', full, va'') ->
       incl out full) /\
    ((forall i, requested env i 0 = true) ->
     forall ok out va',
       findOptimalFrames rows cols score read resize fuel va env params
         allSamples out0 = Some (ok, out, va') ->
       out = []) /\
    (forall results full k,
       sampleSlots score read fuel (resetCancel va) env params = Some results ->
       sampleSlots score read fuel (resetCancel va) quiet params = Some full ->
       requested env k 0 = false ->
       nth_error results k = nth_error full k) /\
    (0 < intervalSec params -> 0 < searchStepSec params -> 0 < sampleStepSec params ->
     (searchFuel va params <= fuel)%nat ->
     (loopFuel 0 (duration (videoInfo_ va)) (sampleStepSec params) <= fuel)%nat ->
     (exists ok out va',
        analyzeFullVideo score read fuel (cancel va) env params out0
          = Some (ok, out, va')) /\
     (exists ok out va',
        findOptimalFrames rows cols score read resize fuel (cancel va) env params
          allSamples out0 = Some (ok, out, va'))).
Proof.
  intros Mat rows cols score read resize fuel va env params allSamples out0 Ho HD.
  pose proof (analyzeFullVideo_clears Mat score read fuel va env params out0 Ho) as Ha.
  pose proof (findOptimalFrames_clears Mat rows cols score read resize fuel va env params
                allSamples out0 Ho) as Hf.
  split; [exact Ha|]. split; [exact Hf|].
  split.
  { intros ok out va' Hrun. rewrite Ha in Hrun.
    destruct (analyzeFullVideo_outcome Mat score read _ _ _ _ _ _ _ _ Ho HD Hrun)
      as [Hok _].
    split; [exact Hok|]. intros [_ Hm] i j Hreq.
    rewrite Hok, (Hm i j Hreq). reflexivity. }
  split.
  { intros ok out va' Hrun. rewrite Hf in Hrun.
    destruct (findOptimalFrames_outcome Mat rows cols score read resize
                _ _ _ _ _ _ _ _ _ Ho HD Hrun) as [Hok _].
    split; [exact Hok|]. intros [_ Hm] i j Hreq.
    rewrite Hok, (Hm i j Hreq). reflexivity. }
  split.
  { intros Hb ok out va' ok' full va'' Hrun Hfull.
    exact (findOptimalFrames_boundary Mat rows cols score read resize fuel va env params
             allSamples out0 ok ok' out full va' va'' Ho Hb Hrun Hfull). }
  split.
  { intros Hall ok out va' Hrun.
    exact (findOptimalFrames_all_skipped Mat rows cols score read resize fuel va env
             params allSamples out0 ok out va' Ho Hall Hrun). }
  split.
  { intros results full k Hr Hq Hreq.
    exact (sampleSlots_unseen Mat score read fuel (resetCancel va) env params
             results full k eq_refl Hr Hq Hreq). }
  intros Hi Hs Hss Hfu1 Hfu2. rewrite Ha, Hf. split.
  - now apply analyzeFullVideo_total.
  - now apply findOptimalFrames_total.
Qed.

(** A flag raised before the run: the scan of the 10 s clip still returns
    completed with its six samples; and when every unit of the optimizer
    observes a request at its start, nothing is emitted and the outcome is
    cancelled. *)
Lemma C5_witness :
  (exists out va',
     analyzeFullVideo Bench.score Bench.ramp
       (searchFuel (Bench.clip 10) Bench.example) (cancel (Bench.clip 10)) quiet
       Bench.example [] = Some (true, out, va') /\ List.length out = 6%nat) /\
  (exists va',
     findOptimalFrames Bench.pic_rows Bench.pic_cols Bench.score Bench.ramp Bench.resize
       (searchFuel (Bench.clip 10) Bench.example) (Bench.clip 10)
       (mkEnv (fun _ _ => true) true) Bench.example [] [] = Some (false, [], va')).
Proof.
  split.
  - destruct (C5_cancellation_amended Bench.Pic
                Bench.pic_rows Bench.pic_cols Bench.score Bench.ramp Bench.resize
                (searchFuel (Bench.clip 10) Bench.example) (Bench.clip 10) quiet
                Bench.example [] []) as [Hclear _].
    + reflexivity.
    + reflexivity.
    + rewrite Hclear. eexists _, _. split; [vm_compute; reflexivity | reflexivity].
  - eexists. vm_compute. reflexivity.
Defined.

(** C6, as stated: saving and reloading keeps the (time, sharpness) pair of
    every entry of the selection.  It fails for an entry whose flag is off:
    [saveConfig] writes only the entries with [selected == true], so of the
    two entries (1, 5, off) and (2, 7, on) only the second comes back. *)
Lemma C6_counterexample :
  exists app1 disk1 app2,
    saveConfig (fun _ => true) Bench.app Bench.emptyDisk = (true, app1, disk1) /\
    loadConfig Bench.pic_rows Bench.pic_cols Bench.ramp Bench.resize Bench.app disk1
      = (true, app2) /\
    map pairOf (selectedFrames_ Bench.app) = [(1, 5); (2, 7)] /\
    map pairOf (selectedFrames_ app2) = [(2, 7)] /\
    map pairOf (selectedFrames_ app2) <> map pairOf (selectedFrames_ Bench.app).
Proof.
  eexists _, _, _. split; [reflexivity|]. split; [reflexivity|].
  split; [reflexivity|]. split; [reflexivity|]. discriminate.
Qed.

(** C6, amended.  Saving a selection and reloading it (for the same video)
    yields, in order, the (time, sharpness) pairs of the entries that had
    [selected == true] when saved; entries with the flag off are not
    persisted; every loaded entry has [selected == true]. *)
Theorem C6_roundtrip_of_selected_entries :
  forall (Mat : Type) (rows cols : Mat -> Z) (read : string -> Q -> option Mat)
         (resize : Mat -> Z -> Z -> Mat) (writable : string -> bool)
         (app app1 app' : App Mat) (disk disk1 : Disk),
    saveConfig writable app disk = (true, app1, disk1) ->
    path (app_videoInfo_ app') = path (app_videoInfo_ app) ->
    exists app2,
      loadConfig rows cols read resize app' disk1 = (true, app2) /\
      map pairOf (selectedFrames_ app2) =
        map pairOf (filter selected (selectedFrames_ app)) /\
      Forall (fun fd => selected fd = true) (selectedFrames_ app2).
Proof.
  intros Mat rows cols read resize writable app app1 app' disk disk1 Hs Hp.
  destruct (save_then_load Mat rows cols read resize writable app app1 app' disk disk1
              Hs Hp) as (app2 & Hl & Hsel & _).
  exists app2. split; [exact Hl|]. rewrite Hsel. split.
  - apply map_pairOf_loadFrame.
  - apply Forall_forall. intros fd Hin. apply in_map_iff in Hin.
    destruct Hin as [fn [<- _]]. reflexivity.
Qed.

(** The selection (1, 5, off), (2, 7, on) comes back as (2, 7, on). *)
Lemma C6_witness :
  exists app2,
    loadConfig Bench.pic_rows Bench.pic_cols Bench.ramp Bench.resize Bench.app
      (snd (saveConfig (fun _ => true) Bench.app Bench.emptyDisk)) = (true, app2) /\
    map pairOf (selectedFrames_ app2) = [(2, 7)] /\
    Forall (fun fd => selected fd = true) (selectedFrames_ app2).
Proof.
  apply (C6_roundtrip_of_selected_entries Bench.Pic Bench.pic_rows Bench.pic_cols
           Bench.ramp Bench.resize (fun _ => true) Bench.app
           (snd (fst (saveConfig (fun _ => true) Bench.app Bench.emptyDisk)))
           Bench.app Bench.emptyDisk
           (snd (saveConfig (fun _ => true) Bench.app Bench.emptyDisk))).
  - reflexivity.
  - reflexivity.
Defined.

(** C7.  Every sample in the collection returned by an [analyzeFullVideo]
    run has [sharpness >= 0]: the sentinel -1 of a failed read never
    leaves the sampling stage.  (A call refused because no video is open
    returns the caller's collection untouched, so there the property is
    that of the collection passed in.)  A run with a positive step
    returns. *)
Theorem C7_emitted_samples_nonnegative :
  forall (Mat : Type) (score : Mat -> SharpnessAlgorithm -> Q)
         (read : string -> Q -> option Mat)
         (fuel : nat) (va : VideoAnalyzer) (env : CancelEnv) (params : AnalysisParams)
         (outSamples : list (FrameData Mat)),
    (forall ok out va',
       analyzeFullVideo score read fuel va env params outSamples = Some (ok, out, va') ->
       cap_isOpened va = true \/ Forall (fun r => 0 <= sharpness r) outSamples ->
       Forall (fun r => 0 <= sharpness r) out) /\
    (0 < sampleStepSec params ->
     (loopFuel 0 (duration (videoInfo_ va)) (sampleStepSec params) <= fuel)%nat ->
     exists ok out va',
       analyzeFullVideo score read fuel va env params outSamples = Some (ok, out, va')).
Proof.
  intros Mat score read fuel va env params outSamples. split.
  - intros ok out va' Hrun [Ho | H0].
    + eapply (analyzeFullVideo_nonneg_open Mat score read); eauto.
    + eapply (analyzeFullVideo_nonneg Mat score read); eauto.
  - intros Hs Hf. now apply analyzeFullVideo_total.
Qed.

(** Reads fail everywhere but at 2 s, and the caller's collection holds a
    stale negative entry: the failed samples are dropped, the stale entry
    is cleared, and the remaining sample is not negative. *)
Lemma C7_witness :
  exists ok out va',
    analyzeFullVideo Bench.score Bench.sparse 7 (Bench.clip 10) quiet
      (Bench.params 3 (1 # 2) (1 # 50) 2) [mkFrame 0 (-1) false None]
      = Some (ok, out, va') /\
    Forall (fun r => 0 <= sharpness r) out.
Proof.
  destruct (C7_emitted_samples_nonnegative Bench.Pic Bench.score Bench.sparse 7%nat
              (Bench.clip 10) quiet (Bench.params 3 (1 # 2) (1 # 50) 2)
              [mkFrame 0 (-1) false None]) as [Hall Hret].
  destruct Hret as (ok & out & va' & Hrun).
  - reflexivity.
  - vm_compute. lia.
  - exists ok, out, va'. split; [exact Hrun|].
    apply (Hall _ _ _ Hrun). left. reflexivity.
Defined.

(** C8.  For every call of [openVideo], the duration stored in the video
    information is the quotient [frameCount / fps] as the source computes
    it, in [double], when [fps > 0] and [frameCount > 0]: the binary64
    number nearest to the exact quotient, within half a unit in its last
    place of it (for a quotient within the range of [double]).  It is 0
    for every other combination (a file that cannot be opened included). *)
Theorem C8_duration_from_metadata :
  forall (capOpen : string -> option CapProps) (va : VideoAnalyzer) (p : string),
    let vi := videoInfo_ (snd (openVideo capOpen va p)) in
    (0 < fps vi /\ (0 < frameCount vi)%Z ->
     inject_Z (frameCount vi) / fps vi <= Cpp.DBL_MAX ->
       duration vi = Cpp.binary64 (inject_Z (frameCount vi) / fps vi) /\
       Qabs (duration vi - inject_Z (frameCount vi) / fps vi) <=
         2 ^ (Cpp.exponent (-1022) (inject_Z (frameCount vi) / fps vi) - 53)) /\
    (~ (0 < fps vi /\ (0 < frameCount vi)%Z) -> duration vi = 0).
Proof.
  intros capOpen va p. unfold openVideo.
  destruct (capOpen p) as [props|];
    cbn [snd videoInfo_ duration fps frameCount VideoInfo_default].
  - destruct (Cpp.gt (CAP_PROP_FPS props) 0) eqn:Ef; cbn [andb].
    + apply Cpp_gt_iff in Ef.
      destruct (0 <? Cpp.to_int (CAP_PROP_FRAME_COUNT props))%Z eqn:Ec.
      * split.
        -- intros _ _. split; [reflexivity|].
           pose proof (rounded_error 53 (-1022)
                         (inject_Z (Cpp.to_int (CAP_PROP_FRAME_COUNT props)) /
                          CAP_PROP_FPS props)) as He.
           set (q := inject_Z (Cpp.to_int (CAP_PROP_FRAME_COUNT props)) /
                     CAP_PROP_FPS props) in *.
           assert (Hh : 2 ^ (Cpp.exponent (-1022) q - 53 + 1) * (1 # 2) ==
                        2 ^ (Cpp.exponent (-1022) q - 53)).
           { rewrite pow2_succ. field. }
           unfold Cpp.binary64. rewrite <- Hh. exact He.
        -- intros Hn. exfalso. apply Hn.
           split; [exact Ef | now apply Z.ltb_lt].
      * split; [|reflexivity]. intros [_ Hc]. apply Z.ltb_lt in Hc. congruence.
    + apply Cpp_gt_false_iff in Ef.
      split; [|reflexivity]. intros [Hf _]. exfalso. apply (Qlt_not_le _ _ Hf Ef).
  - split; [|reflexivity]. intros [H _]. discriminate H.
Qed.

(** 9000 frames at the frame rate 24000/1001, which the capture reports as
    the nearest [double]: the stored duration is exactly 375.375 s, while
    the exact quotient of the two metadata values is not. *)
Lemma C8_witness :
  duration (videoInfo_ (snd (openVideo
      (fun _ => Some (mkCapProps (Cpp.binary64 (24000 / 1001)) 9000 1920 1080))
      (mkAnalyzer false VideoInfo_default false) "clip.mp4")))
  = 3003 # 8 /\
  ~ inject_Z 9000 / Cpp.binary64 (24000 / 1001) == 3003 # 8.
Proof.
  split.
  - rewrite (proj1 (proj1 (C8_duration_from_metadata
               (fun _ => Some (mkCapProps (Cpp.binary64 (24000 / 1001)) 9000 1920 1080))
               (mkAnalyzer false VideoInfo_default false) "clip.mp4")
               (conj eq_refl eq_refl)
               ltac:(vm_compute; discriminate))).
    vm_compute. reflexivity.
  - vm_compute. discriminate.
Defined.

(** C9.  In [exportFrames], when the write of a unit in flight fails the
    call returns false, whatever happens afterwards; and a sibling unit
    that was in flight at that moment still decodes and writes its own
    file when it gets to it. *)
Theorem C9_write_failure_is_fatal :
  forall (Mat : Type) (read : string -> Q -> option Mat)
         (imwrite : string -> string -> Mat -> bool)
         (va : VideoAnalyzer) (frames : list (FrameData Mat)) (outputDir : string)
         (pre post : list Event) (i index : nat) (fd : FrameData Mat) (frame : Mat),
    cap_isOpened va = true ->
    In i (x_inflight (exportRegion read imwrite (resetCancel va) pre frames outputDir)) ->
    nth_error (collect frames []) i = Some (index, fd) ->
    seekRead read va (time fd) = Some frame ->
    imwrite outputDir (filename index fd) frame = false ->
    fst (fst (exportFrames read imwrite va (pre ++ Write i :: post) frames outputDir))
      = false /\
    forall (j jindex : nat) (jfd : FrameData Mat) (jframe : Mat)
           (before after : list Event),
      In j (x_inflight (exportRegion read imwrite (resetCancel va) pre frames outputDir)) ->
      j <> i ->
      post = before ++ Write j :: after -> ~ In (Write j) before ->
      nth_error (collect frames []) j = Some (jindex, jfd) ->
      seekRead read va (time jfd) = Some jframe ->
      imwrite outputDir (filename jindex jfd) jframe = true ->
      In (filename jindex jfd, jframe)
         (snd (fst (exportFrames read imwrite va (pre ++ Write i :: post) frames
                      outputDir))).
Proof.
  intros Mat read imwrite va frames outputDir pre post i index fd frame
    Ho Hin Hn Hr Hw.
  unfold exportFrames. rewrite Ho. cbn [negb].
  unfold exportRegion in *.
  rewrite exportRun_app.
  set (st := exportRun read imwrite (resetCancel va) outputDir (collect frames [])
               (mkExport (isCancelled (resetCancel va)) false [] []) pre) in *.
  assert (Hfail : x_failed (exportRun read imwrite (resetCancel va) outputDir
                              (collect frames []) st (Write i :: post)) = true).
  { eapply write_fails; eauto. }
  rewrite Hfail. split; [reflexivity|].
  intros j jindex jfd jframe before after Hj Hji Hpost Hb Hjn Hjr Hjw. cbn [fst snd].
  subst post.
  change (Write i :: before ++ Write j :: after)
    with ((Write i :: before) ++ Write j :: after).
  eapply write_lands; eauto.
  intros [Heq | Hin']; [|now apply Hb].
  injection Heq as ->. now apply Hji.
Qed.

(** Two units in flight, the first write refused: the export fails and the
    second file is written all the same. *)
Lemma C9_witness :
  fst (fst (exportFrames Bench.ramp Bench.imwrite_refusing_first (Bench.clip 10)
              Bench.twoWorkers Bench.picks "out")) = false /\
  In ("frame_0001_t2.400_var9.00.jpg"%string,
      Bench.mkPic 1080 1920 ((24 # 10) * 1000 / 1000))
     (snd (fst (exportFrames Bench.ramp Bench.imwrite_refusing_first (Bench.clip 10)
                  Bench.twoWorkers Bench.picks "out"))).
Proof.
  destruct (C9_write_failure_is_fatal Bench.Pic Bench.ramp Bench.imwrite_refusing_first
              (Bench.clip 10) Bench.picks "out"%string
              [Start 0; Start 1] [Write 1] 0%nat 0%nat
              (mkFrame (16 # 10) 12 true None)
              (Bench.mkPic 1080 1920 ((16 # 10) * 1000 / 1000)))
    as [Hfail Hsibling].
  - reflexivity.
  - vm_compute. right. left. reflexivity.
  - reflexivity.
  - reflexivity.
  - reflexivity.
  - split; [exact Hfail|].
    apply (Hsibling 1%nat 1%nat (mkFrame (24 # 10) 9 true None)
             (Bench.mkPic 1080 1920 ((24 # 10) * 1000 / 1000)) [] []).
    + vm_compute. left. reflexivity.
    + discriminate.
    + reflexivity.
    + intros [].
    + reflexivity.
    + reflexivity.
    + reflexivity.
Defined.

(** C10.  In [exportFrames] the ordinal paired with each entry to export,
    and embedded in its file name, is the rank of the entry among the
    entries with [selected == true], counted from 0 in input order; entries
    with [selected == false] take no number. *)
Theorem C10_export_ordinals :
  forall (Mat : Type) (frames : list (FrameData Mat)),
    map fst (collect frames []) = seq 0 (List.length (filter selected frames)) /\
    map snd (collect frames []) = filter selected frames /\
    forall (read : string -> Q -> option Mat) (imwrite : string -> string -> Mat -> bool)
           (va : VideoAnalyzer) (schedule : list Event) (outputDir name : string)
           (frame : Mat),
      In (name, frame)
         (snd (fst (exportFrames read imwrite va schedule frames outputDir))) ->
      exists i fd,
        nth_error (filter selected frames) i = Some fd /\
        name = ("frame_" ++ Printf.zu04 i ++ "_t" ++ Printf.f 3 (time fd) ++
                "_var" ++ Printf.f 2 (sharpness fd) ++ ".jpg")%string.
Proof.
  intros Mat frames. rewrite collect_spec. cbn [app List.length].
  assert (Hlen : List.length (seq 0 (List.length (filter selected frames))) =
                 List.length (filter selected frames)) by apply length_seq.
  split; [|split].
  - clear Hlen. generalize 0%nat. induction (filter selected frames) as [|x l IH];
      intros b; cbn; [reflexivity | now rewrite IH].
  - clear Hlen. generalize 0%nat. induction (filter selected frames) as [|x l IH];
      intros b; cbn; [reflexivity | now rewrite IH].
  - intros read imwrite va schedule outputDir name frame Hin.
    unfold exportFrames in Hin. destruct (negb (cap_isOpened va)); [destruct Hin|].
    assert (Hf : In (name, frame)
                   (x_files (exportRegion read imwrite (resetCancel va) schedule
                               frames outputDir))).
    { destruct (x_failed (exportRegion read imwrite (resetCancel va) schedule
                            frames outputDir)); exact Hin. }
    unfold exportRegion in Hf.
    apply exportRun_names in Hf. destruct Hf as [[] | (i & index & fd & Hn & _ & ->)].
    apply collect_nth in Hn. destruct Hn as [-> Hn].
    exists i, fd. split; [exact Hn | reflexivity].
Qed.

(** Three entries, the middle one not selected: the two files are numbered
    0000 and 0001. *)
Lemma C10_witness :
  snd (fst (exportFrames Bench.ramp Bench.imwrite (Bench.clip 10) (sequential 2)
              [mkFrame (16 # 10) 12 true None; mkFrame 2 12 false None;
               mkFrame (24 # 10) 9 true None] "out")) =
  [("frame_0000_t1.600_var12.00.jpg"%string, Bench.mkPic 1080 1920 ((16 # 10) * 1000 / 1000));
   ("frame_0001_t2.400_var9.00.jpg"%string, Bench.mkPic 1080 1920 ((24 # 10) * 1000 / 1000))] /\
  exists i fd,
    nth_error (filter selected
                 [mkFrame (16 # 10) 12 true None; mkFrame 2 12 false None;
                  mkFrame (24 # 10) 9 true (@None Bench.Pic)]) i = Some fd /\
    "frame_0001_t2.400_var9.00.jpg"%string =
      ("frame_" ++ Printf.zu04 i ++ "_t" ++ Printf.f 3 (time fd) ++
       "_var" ++ Printf.f 2 (sharpness fd) ++ ".jpg")%string.
Proof.
  split; [reflexivity|].
  apply (proj2 (proj2 (C10_export_ordinals Bench.Pic
                  [mkFrame (16 # 10) 12 true None; mkFrame 2 12 false None;
                   mkFrame (24 # 10) 9 true None]))
           Bench.ramp Bench.imwrite (Bench.clip 10) (sequential 2) "out"%string
           "frame_0001_t2.400_var9.00.jpg"%string
           (Bench.mkPic 1080 1920 ((24 # 10) * 1000 / 1000))).
  vm_compute. right. left. reflexivity.
Defined.

(* ------------------------------------------------------------------ *)
(** * The examples replayed on binary64 numbers *)

(** The bench's tight half-width and step are the rationals the two
    [float] values stand for. *)
Example binary64_tight_values :
  option_map Qred (Binary64.exact Binary64.tightWindow) = Some (Qred Bench.tightWindow) /\
  option_map Qred (Binary64.exact Binary64.tightStep) = Some (Qred Bench.tightStep).
Proof. split; vm_compute; reflexivity. Qed.

(** Duration 10 and step 2: the grid 0, 2, 4, 6, 8, 10. *)
Example binary64_grid :
  Binary64.gridTimes 7 0 10 2 = Some [0; 2; 4; 6; 8; 10]%float.
Proof. vm_compute. reflexivity. Qed.

(** Duration 1 and the [float] step [0.1f], which is slightly above one
    tenth: ten grid points, [floor (D / s) + 1] for that step. *)
Example binary64_grid_tenth :
  option_map (@List.length float) (Binary64.gridTimes 20 0 1 0x1.99999ap-4%float)
    = Some 10%nat /\
  option_map (fun s => (Z.to_nat (Qfloor (1 / s)) + 1)%nat)
    (Binary64.exact 0x1.99999ap-4%float) = Some 10%nat.
Proof. split; vm_compute; reflexivity. Qed.

(** Target 0 of the tight example: the binary64 loop visits four positions,
    the same rationals as in the exact model, and the last one is beyond
    the clamped window end [min(D, t + window)]. *)
Example binary64_tight_scan :
  let startT := Binary64.max 0 (PrimFloat.sub 0 Binary64.tightWindow) in
  let endT := Binary64.min 1 (PrimFloat.add 0 Binary64.tightWindow) in
  exists p1 p2 p3,
    Binary64.scanned 10 endT Binary64.tightStep startT = Some [0%float; p1; p2; p3] /\
    PrimFloat.ltb endT p3 = true /\
    option_map (map Qred)
      (scannedFor (searchFuel (Bench.clip 1) Bench.tight) (Bench.clip 1) quiet
         Bench.tight 0 0)
    = Some (map Qred [0; Bench.tightStep; 2 * Bench.tightStep; 3 * Bench.tightStep]) /\
    map (option_map Qred) (map Binary64.exact [p1; p2; p3])
    = map (fun q => Some (Qred q))
        [Bench.tightStep; 2 * Bench.tightStep; 3 * Bench.tightStep].
Proof.
  cbv zeta. eexists _, _, _.
  split; [vm_compute; reflexivity|].
  split; [vm_compute; reflexivity|].
  split; vm_compute; reflexivity.
Qed.

(** The rounding of [Cpp.binary64] is the one of the machine's operations,
    on the numbers of the examples: the duration of 9000 frames at
    24000/1001 frames per second, 100/30, 1% of 30 s, the literal 1e-9 and
    the sum of 2 and the [float] next above 1e-9. *)
Example binary64_rounding_agrees :
  option_map Qred (Binary64.exact (PrimFloat.div 9000 (PrimFloat.div 24000 1001)))
    = Some (Cpp.binary64 (9000 / Cpp.binary64 (24000 / 1001))) /\
  option_map Qred (Binary64.exact (PrimFloat.div 100 30))
    = Some (Cpp.binary64 (100 / 30)) /\
  option_map Qred (Binary64.exact (PrimFloat.mul 30 (PrimFloat.div 1 100)))
    = Some (Cpp.binary64 (30 * Cpp.binary64 (1 # 100))) /\
  option_map Qred (Binary64.exact Binary64.eps) = Some eps64 /\
  option_map Qred (Binary64.exact (PrimFloat.add 2 0x1.12e0cp-30%float))
    = Some (Cpp.binary64 (2 + (281475 # 281474976710656))).
Proof. repeat split; vm_compute; reflexivity. Qed.

(* ------------------------------------------------------------------ *)
(** * Further properties of the engine *)

(** X1.  A full scan that nobody cancels, on an opened video of positive
    duration with a positive sample step, returns [true] and leaves the
    flag clear.  Its samples come in strictly increasing time order; each
    sits at a grid position [k * sampleStepSec] not beyond the duration
    whose frame could be read, carries the score of that frame (at least 0),
    is not selected and has no thumbnail. *)
Theorem X1_full_scan_samples :
  forall (Mat : Type) (score : Mat -> SharpnessAlgorithm -> Q)
         (read : string -> Q -> option Mat) (fuel : nat) (va : VideoAnalyzer)
         (params : AnalysisParams) (outSamples : list (FrameData Mat)),
    cap_isOpened va = true -> 0 < duration (videoInfo_ va) ->
    0 < sampleStepSec params ->
    (loopFuel 0 (duration (videoInfo_ va)) (sampleStepSec params) <= fuel)%nat ->
    exists out va',
      analyzeFullVideo score read fuel va quiet params outSamples = Some (true, out, va') /\
      isCancelled va' = false /\
      StronglySorted beforeTime out /\
      forall r, In r out ->
        selected r = false /\ thumbnail r = None /\ 0 <= sharpness r /\
        time r <= duration (videoInfo_ va) /\
        exists (k : nat) (frame : Mat),
          time r == inject_Z (Z.of_nat k) * sampleStepSec params /\
          read (path (videoInfo_ va)) (time r * 1000) = Some frame /\
          sharpness r = score frame (algorithm params).
Proof.
  intros Mat score read fuel va params outSamples Hopen HD Hstep Hfuel.
  destruct (analyzeFullVideo_total Mat score read fuel va quiet params outSamples
              Hstep Hfuel) as (ok & out & va' & Hrun).
  destruct (analyzeFullVideo_quiet Mat score read fuel va params outSamples ok out va'
              Hopen HD Hstep Hrun) as (-> & Hc & Hs & Hall).
  exists out, va'. split; [exact Hrun|]. split; [exact Hc|]. split; [exact Hs|].
  exact Hall.
Qed.

(** A 1 s clip sampled every half second: three samples, in time order. *)
Lemma X1_witness :
  exists out va',
    analyzeFullVideo Bench.score Bench.ramp 10 (Bench.clip 1) quiet
      (Bench.params 2 (1 # 2) (1 # 10) (1 # 2)) [] = Some (true, out, va') /\
    isCancelled va' = false /\
    StronglySorted beforeTime out /\
    forall r, In r out ->
      selected r = false /\ thumbnail r = None /\ 0 <= sharpness r /\
      time r <= 1 /\
      exists (k : nat) (frame : Bench.Pic),
        time r == inject_Z (Z.of_nat k) * (1 # 2) /\
        Bench.ramp "clip.mp4" (time r * 1000) = Some frame /\
        sharpness r = Bench.pic_score frame.
Proof.
  apply (X1_full_scan_samples Bench.Pic Bench.score Bench.ramp 10%nat (Bench.clip 1)
           (Bench.params 2 (1 # 2) (1 # 10) (1 # 2)) []).
  - reflexivity.
  - reflexivity.
  - reflexivity.
  - vm_compute. lia.
Defined.

(** X2.  When a unit of the full scan sees the cancellation request at its
    check, its result slot keeps the default entry, whose score 0 passes the
    filter [sharpness >= 0]: the samples returned by the cancelled run
    contain an entry with time 0 and score 0 that no frame produced. *)
Theorem X2_cancelled_scan_emits_default_entry :
  forall (Mat : Type) (score : Mat -> SharpnessAlgorithm -> Q)
         (read : string -> Q -> option Mat) (fuel : nat) (va : VideoAnalyzer)
         (env : CancelEnv) (params : AnalysisParams)
         (outSamples : list (FrameData Mat)) (k : nat),
    cap_isOpened va = true -> 0 < duration (videoInfo_ va) ->
    0 < sampleStepSec params ->
    (loopFuel 0 (duration (videoInfo_ va)) (sampleStepSec params) <= fuel)%nat ->
    (k <= Z.to_nat (Qfloor (duration (videoInfo_ va) / sampleStepSec params)))%nat ->
    requested env k 0 = true ->
    exists ok out va',
      analyzeFullVideo score read fuel va env params outSamples = Some (ok, out, va') /\
      In (mkFrame 0 0 false None) out.
Proof.
  intros Mat score read fuel va env params outSamples k Hopen HD Hstep Hfuel Hk Hreq.
  destruct (analyzeFullVideo_total Mat score read fuel va env params outSamples
              Hstep Hfuel) as (ok & out & va' & Hrun).
  exists ok, out, va'. split; [exact Hrun|].
  destruct (sampleSlots_total Mat score read fuel va env params Hstep Hfuel)
    as (sampleTimes & results & Hg & _ & _ & Hlen).
  rewrite itersLeft_from_zero in Hlen by assumption.
  destruct (nth_error sampleTimes k) as [t|] eqn:Et.
  2:{ apply nth_error_None in Et. lia. }
  exact (analyzeFullVideo_skipped_slot Mat score read fuel va env params outSamples
           ok out va' sampleTimes k t Hopen HD Hrun Hg Et Hreq).
Qed.

(** A 10 s clip sampled every 2 s, cancelled when three units have passed
    their check. *)
Lemma X2_witness :
  exists ok out va',
    analyzeFullVideo Bench.score Bench.ramp 10 (Bench.clip 10) Bench.afterThreeUnits
      (Bench.params 3 (1 # 2) (1 # 50) 2) [] = Some (ok, out, va') /\
    In (mkFrame 0 0 false None) out.
Proof.
  apply (X2_cancelled_scan_emits_default_entry Bench.Pic Bench.score Bench.ramp 10%nat
           (Bench.clip 10) Bench.afterThreeUnits (Bench.params 3 (1 # 2) (1 # 50) 2)
           [] 3%nat).
  - reflexivity.
  - reflexivity.
  - reflexivity.
  - vm_compute. lia.
  - vm_compute. lia.
  - reflexivity.
Defined.





(** X5.  With a half-width of 0, a scan step of at least 2e-9 s and a
    video shorter than a million seconds the optimizer inspects one
    position per target, the target itself: every returned entry sits at a
    target time of the grid and carries the score of the frame read there.
    The grid and the scan are the ones computed with the rounding of
    [double]; a step just above the tolerance 1e-9 would not do, since the
    rounded second position can still pass the guard. *)
Theorem X5_zero_window_picks_targets :
  forall (Mat : Type) (rows cols : Mat -> Z) (score : Mat -> SharpnessAlgorithm -> Q)
         (read : string -> Q -> option Mat) (resize : Mat -> Z -> Z -> Mat)
         (fuel : nat) (va : VideoAnalyzer) (env : CancelEnv) (params : AnalysisParams)
         (allSamples outSelected : list (FrameData Mat)),
    cap_isOpened va = true -> searchWindowSec params == 0 ->
    2 # 1000000000 <= searchStepSec params -> 1 # 1000000000 <= intervalSec params ->
    duration (videoInfo_ va) + intervalSec params <= 1000000 ->
    duration (videoInfo_ va) + searchStepSec params <= 1000000 ->
    (searchFuel64 va params <= fuel)%nat ->
    exists ok out va',
      findOptimalFrames64 rows cols score read resize fuel va env params allSamples
        outSelected = Some (ok, out, va') /\
      forall r, In r out ->
        exists (targetTimes : list Q) (k : nat) (t : Q) (frame : Mat),
          gridTimes64 fuel 0 (duration (videoInfo_ va)) (intervalSec params)
            = Some targetTimes /\
          nth_error targetTimes k = Some t /\
          time r == t /\
          read (path (videoInfo_ va)) (Cpp.binary64 (time r * 1000)) = Some frame /\
          sharpness r = score frame (algorithm params).
Proof.
  intros Mat rows cols score read resize fuel va env params allSamples outSelected
    Hopen Hw Hstep Hint Hbi Hbs Hfuel.
  destruct (findOptimalFrames64_total Mat rows cols score read resize fuel va env params
              allSamples outSelected Hint ltac:(lra) Hbi Hbs Hfuel)
    as (ok & out & va' & Hrun).
  exists ok, out, va'. split; [exact Hrun|].
  intros r Hin.
  destruct (findOptimalFrames64_out Mat rows cols score read resize _ _ _ _ _ _ _ _ _ r
              Hopen Hrun Hin) as [Ht (ts & k & t & Hts & Hk & Hu)].
  destruct (gridTimes64_nth fuel 0 (duration (videoInfo_ va)) (intervalSec params) ts k t
              ltac:(lra) (Qle_refl _) binary64_zero Hts Hk) as (H0 & HD & Hfix).
  destruct (searchUnit64_zero_window Mat rows cols score read resize fuel (resetCancel va)
              env params k t r Hw Hstep H0 Hfix ltac:(lra) Hu Ht)
    as (Htime & frame & Hread & Hsharp).
  exists ts, k, t, frame. split; [exact Hts|]. split; [exact Hk|].
  split; [exact Htime|]. split; [exact Hread | exact Hsharp].
Qed.

(** Targets every 2 s on a 4 s clip, half-width 0, the step the [float]
    nearest to 0.1. *)
Lemma X5_witness :
  exists ok out va',
    findOptimalFrames64 Bench.pic_rows Bench.pic_cols Bench.score Bench.ramp Bench.resize
      (searchFuel64 (Bench.clip 4) (Bench.params 2 0 (Cpp.binary32 (1 # 10)) 2))
      (Bench.clip 4) quiet (Bench.params 2 0 (Cpp.binary32 (1 # 10)) 2) [] []
      = Some (ok, out, va') /\
    forall r, In r out ->
      exists (targetTimes : list Q) (k : nat) (t : Q) (frame : Bench.Pic),
        gridTimes64 (searchFuel64 (Bench.clip 4) (Bench.params 2 0 (Cpp.binary32 (1 # 10)) 2))
          0 4 2 = Some targetTimes /\
        nth_error targetTimes k = Some t /\
        time r == t /\
        Bench.ramp "clip.mp4" (Cpp.binary64 (time r * 1000)) = Some frame /\
        sharpness r = Bench.pic_score frame.
Proof.
  apply (X5_zero_window_picks_targets Bench.Pic Bench.pic_rows Bench.pic_cols Bench.score
           Bench.ramp Bench.resize
           (searchFuel64 (Bench.clip 4) (Bench.params 2 0 (Cpp.binary32 (1 # 10)) 2))
           (Bench.clip 4) quiet (Bench.params 2 0 (Cpp.binary32 (1 # 10)) 2) [] []).
  - reflexivity.
  - reflexivity.
  - vm_compute. discriminate.
  - vm_compute. discriminate.
  - vm_compute. discriminate.
  - vm_compute. discriminate.
  - apply Nat.le_refl.
Defined.

(** The step the [float] next above 1e-9 ([0x1.12e0cp-30]) is too small for
    that: on the 4 s clip with targets every 2 s and half-width 0, the
    second position of target 2, [fl(2 + step)], equals the bound
    [fl(2 + 1e-9)] of the guard, is scanned and, with scores growing with
    time, retained. *)
Example zero_window_small_step :
  let step := 281475 # 281474976710656 in
  Cpp.binary32 step = step /\
  1 # 1000000000 < step /\
  exists r0 r1 r2 va',
    findOptimalFrames64 Bench.pic_rows Bench.pic_cols Bench.score Bench.ramp Bench.resize
      100 (Bench.clip 4) quiet (Bench.params 2 0 step 2) [] []
      = Some (true, [r0; r1; r2], va') /\
    time r1 = Cpp.binary64 (2 + step) /\
    time r1 = Cpp.binary64 (2 + Cpp.binary64 (1 # 1000000000)) /\
    2 + (1 # 1000000000) < time r1.
Proof.
  cbv zeta. split; [vm_compute; reflexivity|]. split; [reflexivity|].
  eexists _, _, _, _. split; [vm_compute; reflexivity|].
  split; [vm_compute; reflexivity|]. split; vm_compute; reflexivity.
Qed.

(** X6.  Neither pass returns when its grid step is not positive: on an
    opened video of positive duration the full scan with
    [sampleStepSec <= 0] and the optimizer with [intervalSec <= 0] never
    get past the loop that lays out their time grid. *)
Theorem X6_nonpositive_step_never_returns :
  forall (Mat : Type) (rows cols : Mat -> Z) (score : Mat -> SharpnessAlgorithm -> Q)
         (read : string -> Q -> option Mat) (resize : Mat -> Z -> Z -> Mat)
         (va : VideoAnalyzer) (env : CancelEnv) (params : AnalysisParams)
         (allSamples out0 : list (FrameData Mat)),
    cap_isOpened va = true -> 0 < duration (videoInfo_ va) ->
    (sampleStepSec params <= 0 ->
     forall fuel, analyzeFullVideo score read fuel va env params out0 = None) /\
    (intervalSec params <= 0 ->
     forall fuel,
       findOptimalFrames rows cols score read resize fuel va env params allSamples out0
       = None).
Proof.
  intros Mat rows cols score read resize va env params allSamples out0 Hopen HD.
  split; intros Hstep fuel.
  - exact (analyzeFullVideo_diverges Mat score read fuel va env params out0
             Hopen HD Hstep).
  - exact (findOptimalFrames_diverges Mat rows cols score read resize fuel va env params
             allSamples out0 Hopen HD Hstep).
Qed.

(** A sample step of 0 on a 10 s clip. *)
Lemma X6_witness :
  analyzeFullVideo Bench.score Bench.ramp 1000 (Bench.clip 10) quiet
    (Bench.params 2 (1 # 2) (1 # 10) 0) [] = None.
Proof.
  apply (proj1 (X6_nonpositive_step_never_returns Bench.Pic Bench.pic_rows Bench.pic_cols
                  Bench.score Bench.ramp Bench.resize (Bench.clip 10) quiet
                  (Bench.params 2 (1 # 2) (1 # 10) 0) [] [] eq_refl eq_refl)).
  discriminate.
Defined.


(** X7.  With a single worker and no cancellation, when the disk accepts
    every image the exporter returns [true] with the flag clear, and the
    files are those of the selected entries in input order: entry number
    [i] gives the file named after [i], and an entry whose frame cannot be
    read gives no file while keeping its number, so the numbering then has a
    gap. *)
Theorem X7_sequential_export :
  forall (Mat : Type) (read : string -> Q -> option Mat)
         (imwrite : string -> string -> Mat -> bool)
         (va : VideoAnalyzer) (frames : list (FrameData Mat)) (outputDir : string),
    cap_isOpened va = true ->
    (forall i index fd frame,
       nth_error (collect frames []) i = Some (index, fd) ->
       seekRead read va (time fd) = Some frame ->
       imwrite outputDir (filename index fd) frame = true) ->
    exportFrames read imwrite va (sequential (List.length (filter selected frames)))
      frames outputDir =
    (true,
     flat_map (unitFiles read va)
       (combine (seq 0 (List.length (filter selected frames))) (filter selected frames)),
     resetCancel va).
Proof.
  intros Mat read imwrite va frames outputDir Hopen Hw.
  pose proof (exportFrames_sequential Mat read imwrite va frames outputDir Hopen Hw) as H.
  rewrite collect_spec in H. cbn [app List.length] in H.
  rewrite length_combine, length_seq, Nat.min_id in H. exact H.
Qed.

(** Three entries, the middle one not selected, on a disk that accepts
    everything. *)
Lemma X7_witness :
  exportFrames Bench.ramp Bench.imwrite (Bench.clip 10) (sequential 2) Bench.picks "out"
  = (true,
     flat_map (unitFiles Bench.ramp (Bench.clip 10))
       (combine (seq 0 2) (filter selected Bench.picks)),
     resetCancel (Bench.clip 10)).
Proof.
  apply (X7_sequential_export Bench.Pic Bench.ramp Bench.imwrite (Bench.clip 10)
           Bench.picks "out"%string).
  - reflexivity.
  - intros i index fd frame _ _. reflexivity.
Defined.

(** X8.  A cancellation request that arrives after the exporter has cleared
    the flag and before any unit has started stops the whole export: no file
    is written, the call returns [false] and the analyzer is left
    cancelled; the application then reports "Export cancelled". *)
Theorem X8_export_cancelled_before_start :
  forall (Mat : Type) (read : string -> Q -> option Mat)
         (imwrite : string -> string -> Mat -> bool)
         (app : App Mat) (schedule : list Event) (outputDir : string),
    cap_isOpened (analyzer_ app) = true ->
    selectedFrames_ app <> [] ->
    exportFrames read imwrite (analyzer_ app) (CancelRequest :: schedule)
      (selectedFrames_ app) outputDir =
    (false, [], cancel (resetCancel (analyzer_ app))) /\
    snd (App_exportFrames read imwrite false (CancelRequest :: schedule) outputDir app)
    = [] /\
    statusText_
      (fst (App_exportFrames read imwrite false (CancelRequest :: schedule) outputDir app))
    = "Export cancelled"%string.
Proof.
  intros Mat read imwrite app schedule outputDir Hopen Hsel.
  split; [apply exportFrames_cancel_first, Hopen|].
  unfold App_exportFrames. cbn [orb].
  destruct (selectedFrames_ app) as [|fd rest] eqn:Es; [congruence|].
  rewrite exportFrames_cancel_first by exact Hopen.
  split; reflexivity.
Qed.

(** The request comes first, then both units of the bench's selection try
    to start. *)
Lemma X8_witness :
  snd (App_exportFrames Bench.ramp Bench.imwrite false
         (CancelRequest :: Bench.twoWorkers) "out" Bench.app) = [] /\
  statusText_ (fst (App_exportFrames Bench.ramp Bench.imwrite false
                      (CancelRequest :: Bench.twoWorkers) "out" Bench.app))
  = "Export cancelled"%string.
Proof.
  apply (X8_export_cancelled_before_start Bench.Pic Bench.ramp Bench.imwrite Bench.app
           Bench.twoWorkers "out"%string).
  - reflexivity.
  - discriminate.
Defined.

(** X9.  The application ignores the value returned by the exporter: when
    a write fails and nobody cancels, the export returns [false] while the
    status shown afterwards is "Export complete". *)
Theorem X9_failed_export_reported_complete :
  forall (Mat : Type) (read : string -> Q -> option Mat)
         (imwrite : string -> string -> Mat -> bool)
         (app : App Mat) (outputDir : string)
         (pre post : list Event) (i index : nat) (fd : FrameData Mat) (frame : Mat),
    cap_isOpened (analyzer_ app) = true ->
    ~ In CancelRequest (pre ++ Write i :: post) ->
    In i (x_inflight (exportRegion read imwrite (resetCancel (analyzer_ app)) pre
                        (selectedFrames_ app) outputDir)) ->
    nth_error (collect (selectedFrames_ app) []) i = Some (index, fd) ->
    seekRead read (analyzer_ app) (time fd) = Some frame ->
    imwrite outputDir (filename index fd) frame = false ->
    fst (fst (exportFrames read imwrite (analyzer_ app) (pre ++ Write i :: post)
                (selectedFrames_ app) outputDir)) = false /\
    statusText_
      (fst (App_exportFrames read imwrite false (pre ++ Write i :: post) outputDir app))
    = "Export complete"%string.
Proof.
  intros Mat read imwrite app outputDir pre post i index fd frame
    Hopen Hquiet Hin Hn Hr Hw.
  assert (Hfail : x_failed (exportRegion read imwrite (resetCancel (analyzer_ app))
                              (pre ++ Write i :: post) (selectedFrames_ app) outputDir)
                  = true).
  { unfold exportRegion in *. rewrite exportRun_app.
    exact (write_fails Mat read imwrite (resetCancel (analyzer_ app)) outputDir
             (collect (selectedFrames_ app) []) _ i index fd frame post Hin Hn Hr Hw). }
  assert (Hflag : x_cancelled (exportRegion read imwrite (resetCancel (analyzer_ app))
                                 (pre ++ Write i :: post) (selectedFrames_ app) outputDir)
                  = false).
  { unfold exportRegion. rewrite exportRun_flag by exact Hquiet. reflexivity. }
  assert (Hrun : exportFrames read imwrite (analyzer_ app) (pre ++ Write i :: post)
                   (selectedFrames_ app) outputDir =
                 (false,
                  x_files (exportRegion read imwrite (resetCancel (analyzer_ app))
                             (pre ++ Write i :: post) (selectedFrames_ app) outputDir),
                  resetCancel (analyzer_ app))).
  { unfold exportFrames. rewrite Hopen. cbn [negb]. cbn zeta.
    rewrite Hflag, Hfail. reflexivity. }
  split; [now rewrite Hrun|].
  assert (Hne : match selectedFrames_ app with [] => true | _ :: _ => false end = false).
  { destruct (selectedFrames_ app); [destruct i; discriminate | reflexivity]. }
  assert (Hrun' : exportFrames read imwrite (resetCancel (analyzer_ app))
                    (pre ++ Write i :: post) (selectedFrames_ app) outputDir =
                  exportFrames read imwrite (analyzer_ app)
                    (pre ++ Write i :: post) (selectedFrames_ app) outputDir).
  { unfold exportFrames. cbn [resetCancel cap_isOpened]. rewrite Hopen. reflexivity. }
  unfold App_exportFrames. cbn [orb]. rewrite Hne, Hrun', Hrun. reflexivity.
Qed.

(** Two workers on a disk that refuses the first file. *)
Lemma X9_witness :
  fst (fst (exportFrames Bench.ramp Bench.imwrite_refusing_first (Bench.clip 10)
              ([Start 0; Start 1] ++ Write 0 :: [Write 1]) Bench.picks "out")) = false /\
  statusText_
    (fst (App_exportFrames Bench.ramp Bench.imwrite_refusing_first false
            ([Start 0; Start 1] ++ Write 0 :: [Write 1]) "out"
            (mkApp (Bench.clip 10) (videoInfo_ (Bench.clip 10)) Bench.example []
               Bench.picks false "")))
  = "Export complete"%string.
Proof.
  apply (X9_failed_export_reported_complete Bench.Pic Bench.ramp
           Bench.imwrite_refusing_first
           (mkApp (Bench.clip 10) (videoInfo_ (Bench.clip 10)) Bench.example []
              Bench.picks false "")
           "out"%string [Start 0; Start 1] [Write 1] 0%nat 0%nat
           (mkFrame (16 # 10) 12 true None)
           (Bench.mkPic 1080 1920 ((16 # 10) * 1000 / 1000))).
  - reflexivity.
  - vm_compute. intros [H | [H | [H | [H | []]]]]; discriminate.
  - vm_compute. right. left. reflexivity.
  - reflexivity.
  - reflexivity.
  - reflexivity.
Defined.

(** X10.  After a failed [openVideo] the analyzer is closed and holds the
    default video information, and every operation refuses without touching
    its output: both analysis passes return [false] with the caller's list
    unchanged, for any fuel, the exporter returns [false] with no file, and
    [getFrameAt] reads nothing. *)
Theorem X10_failed_open_refuses_everything :
  forall (Mat : Type) (rows cols : Mat -> Z) (score : Mat -> SharpnessAlgorithm -> Q)
         (read : string -> Q -> option Mat) (resize : Mat -> Z -> Z -> Mat)
         (imwrite : string -> string -> Mat -> bool)
         (capOpen : string -> option CapProps) (va0 : VideoAnalyzer) (p : string),
    capOpen p = None ->
    let va := snd (openVideo capOpen va0 p) in
    fst (openVideo capOpen va0 p) = false /\
    videoInfo_ va = VideoInfo_default /\
    (forall fuel env params out,
       analyzeFullVideo score read fuel va env params out = Some (false, out, va)) /\
    (forall fuel env params samples out,
       findOptimalFrames rows cols score read resize fuel va env params samples out
       = Some (false, out, va)) /\
    (forall schedule frames dir,
       exportFrames read imwrite va schedule frames dir = (false, [], va)) /\
    (forall t, getFrameAt read va t = None).
Proof.
  intros Mat rows cols score read resize imwrite capOpen va0 p Hp.
  unfold openVideo. rewrite Hp. cbn [fst snd].
  repeat split; reflexivity.
Qed.

(** The bench cannot open [missing.mp4]. *)
Lemma X10_witness :
  fst (openVideo Bench.capOpen (Bench.clip 10) "missing.mp4") = false /\
  analyzeFullVideo Bench.score Bench.ramp 0
    (snd (openVideo Bench.capOpen (Bench.clip 10) "missing.mp4")) quiet Bench.example
    Bench.picks
  = Some (false, Bench.picks, snd (openVideo Bench.capOpen (Bench.clip 10) "missing.mp4")).
Proof.
  destruct (X10_failed_open_refuses_everything Bench.Pic Bench.pic_rows Bench.pic_cols
              Bench.score Bench.ramp Bench.resize Bench.imwrite Bench.capOpen
              (Bench.clip 10) "missing.mp4"%string eq_refl)
    as (H1 & _ & H2 & _).
  split; [exact H1 | apply H2].
Defined.

(** X11.  A video that opens without usable metadata ([fps <= 0] or
    [frameCount <= 0]) has duration 0: both analysis passes then return
    [false] at once and empty the caller's list, whatever it held, while
    frames can still be read and exported by time. *)
Theorem X11_unknown_duration :
  forall (Mat : Type) (rows cols : Mat -> Z) (score : Mat -> SharpnessAlgorithm -> Q)
         (read : string -> Q -> option Mat) (resize : Mat -> Z -> Z -> Mat)
         (capOpen : string -> option CapProps) (va0 : VideoAnalyzer) (p : string)
         (props : CapProps),
    capOpen p = Some props ->
    CAP_PROP_FPS props <= 0 \/ (Cpp.to_int (CAP_PROP_FRAME_COUNT props) <= 0)%Z ->
    let va := snd (openVideo capOpen va0 p) in
    fst (openVideo capOpen va0 p) = true /\
    duration (videoInfo_ va) = 0 /\
    (forall fuel env params out,
       analyzeFullVideo score read fuel va env params out
       = Some (false, [], resetCancel va)) /\
    (forall fuel env params samples out,
       findOptimalFrames rows cols score read resize fuel va env params samples out
       = Some (false, [], resetCancel va)) /\
    (forall t, getFrameAt read va t = read p (t * 1000)).
Proof.
  intros Mat rows cols score read resize capOpen va0 p props Hp Hmeta.
  unfold openVideo. rewrite Hp. cbn [fst snd].
  assert (Hd : (if Cpp.gt (CAP_PROP_FPS props) 0 &&
                   (0 <? Cpp.to_int (CAP_PROP_FRAME_COUNT props))%Z
                then Cpp.binary64
                       (inject_Z (Cpp.to_int (CAP_PROP_FRAME_COUNT props)) /
                        CAP_PROP_FPS props)
                else 0) = 0).
  { destruct Hmeta as [Hf | Hc].
    - apply Cpp_gt_false_iff in Hf. now rewrite Hf.
    - assert (Hz : (0 <? Cpp.to_int (CAP_PROP_FRAME_COUNT props))%Z = false)
        by (apply Z.ltb_ge; exact Hc).
      rewrite Hz. now rewrite andb_false_r. }
  rewrite Hd. repeat split; reflexivity.
Qed.

(** A stream that reports no frame count. *)
Lemma X11_witness :
  fst (openVideo Bench.liveOpen (Bench.clip 10) "live.ts") = true /\
  duration (videoInfo_ (snd (openVideo Bench.liveOpen (Bench.clip 10) "live.ts"))) = 0.
Proof.
  destruct (X11_unknown_duration Bench.Pic Bench.pic_rows Bench.pic_cols Bench.score
              Bench.ramp Bench.resize Bench.liveOpen (Bench.clip 10) "live.ts"%string
              (mkCapProps 25 0 1920 1080) eq_refl)
    as (H1 & H2 & _).
  - right. vm_compute. discriminate.
  - split; [exact H1 | exact H2].
Defined.


(* ------------------------------------------------------------------ *)
(** * Further properties of the application *)

(** X12.  [toggleFrameSelection] with an index outside the selection
    changes nothing.  With an index inside it flips the flag of that entry
    and of no other, keeps every time, score and thumbnail, and marks the
    configuration dirty; toggling the same index again restores the
    selection. *)
Theorem X12_toggle_selection :
  forall (Mat : Type) (index : Z) (app : App Mat),
    let n := Z.of_nat (List.length (selectedFrames_ app)) in
    let app' := toggleFrameSelection index app in
    ((index < 0 \/ n <= index)%Z -> app' = app) /\
    ((0 <= index < n)%Z ->
       configDirty_ app' = true /\
       map pairOf (selectedFrames_ app') = map pairOf (selectedFrames_ app) /\
       map thumbnail (selectedFrames_ app') = map thumbnail (selectedFrames_ app) /\
       (forall k,
          nth_error (map selected (selectedFrames_ app')) k =
          if Nat.eqb k (Z.to_nat index)
          then option_map negb (nth_error (map selected (selectedFrames_ app)) k)
          else nth_error (map selected (selectedFrames_ app)) k) /\
       selectedFrames_ (toggleFrameSelection index app') = selectedFrames_ app).
Proof.
  intros Mat index app n app'. subst n app'. unfold toggleFrameSelection. split.
  - intros Hout.
    assert (E : ((0 <=? index) &&
                 (index <? Z.of_nat (List.length (selectedFrames_ app))))%Z = false).
    { destruct Hout as [H | H].
      - assert (E0 : (0 <=? index)%Z = false) by (apply Z.leb_gt; exact H).
        now rewrite E0.
      - assert (E1 : (index <? Z.of_nat (List.length (selectedFrames_ app)))%Z = false)
          by (apply Z.ltb_ge; exact H).
        rewrite E1. apply andb_false_r. }
    now rewrite E.
  - intros [H0 H1].
    assert (E : ((0 <=? index) &&
                 (index <? Z.of_nat (List.length (selectedFrames_ app))))%Z = true).
    { apply andb_true_intro. split; [apply Z.leb_le | apply Z.ltb_lt]; assumption. }
    rewrite E. cbn [configDirty_ selectedFrames_].
    destruct (toggleAt_pairs Mat (selectedFrames_ app) (Z.to_nat index)) as [Hp Ht].
    split; [reflexivity|]. split; [exact Hp|]. split; [exact Ht|]. split.
    + intros k. rewrite !nth_error_map, toggleAt_nth.
      destruct (Nat.eqb k (Z.to_nat index)); [|reflexivity].
      now destruct (nth_error (selectedFrames_ app) k).
    + rewrite toggleAt_length, E. cbn [selectedFrames_]. apply toggleAt_twice.
Qed.

(** The first entry of the bench's selection is toggled twice. *)
Lemma X12_witness :
  selectedFrames_ (toggleFrameSelection 0 (toggleFrameSelection 0 Bench.app)) =
  selectedFrames_ Bench.app.
Proof.
  apply (proj2 (X12_toggle_selection Bench.Pic 0%Z Bench.app)).
  vm_compute. split; [discriminate | reflexivity].
Defined.

(** X13.  [getSelectedCount] is the number of entries whose flag is set:
    it is the number of units the exporter plans and the number of entries
    [saveConfig] stores, and a toggle of an entry of the selection changes
    it by exactly one. *)
Theorem X13_selected_count :
  forall (Mat : Type) (app : App Mat),
    getSelectedCount app = Z.of_nat (List.length (collect (selectedFrames_ app) [])) /\
    (forall writable disk app1 disk1,
       saveConfig writable app disk = (true, app1, disk1) ->
       exists doc stored,
         disk1 (getConfigPath (path (app_videoInfo_ app))) = Some doc /\
         doc_selected_frames doc = Some stored /\
         Z.of_nat (List.length stored) = getSelectedCount app) /\
    (forall index fd,
       (0 <= index)%Z ->
       nth_error (selectedFrames_ app) (Z.to_nat index) = Some fd ->
       getSelectedCount (toggleFrameSelection index app) =
       (getSelectedCount app + (if selected fd then -1 else 1))%Z).
Proof.
  intros Mat app. rewrite !getSelectedCount_filter. split; [|split].
  - rewrite collect_spec. cbn [List.app List.length].
    rewrite length_combine, length_seq, Nat.min_id. reflexivity.
  - intros writable disk app1 disk1 Hsave. unfold saveConfig in Hsave.
    destruct (isEmptyString (path (app_videoInfo_ app))); [discriminate|].
    destruct (writable (getConfigPath (path (app_videoInfo_ app)))); [|discriminate].
    cbn [negb] in Hsave. injection Hsave as _ <-.
    rewrite store_same. eexists. eexists. split; [reflexivity|].
    cbn [doc_selected_frames]. split; [reflexivity|]. now rewrite length_map.
  - intros index fd H0 Hn.
    assert (Hlt : (Z.to_nat index < List.length (selectedFrames_ app))%nat)
      by (apply nth_error_Some; congruence).
    unfold toggleFrameSelection.
    assert (E : ((0 <=? index) &&
                 (index <? Z.of_nat (List.length (selectedFrames_ app))))%Z = true).
    { apply andb_true_intro. split; [apply Z.leb_le | apply Z.ltb_lt]; lia. }
    rewrite E, getSelectedCount_filter. cbn [selectedFrames_].
    exact (toggleAt_count Mat (selectedFrames_ app) (Z.to_nat index) fd Hn).
Qed.

(** Selecting the first entry of the bench's selection raises the count
    from 1 to 2. *)
Lemma X13_witness :
  getSelectedCount (toggleFrameSelection 0 Bench.app) = (getSelectedCount Bench.app + 1)%Z.
Proof.
  apply (proj2 (proj2 (X13_selected_count Bench.Pic Bench.app)) 0%Z
           (mkFrame 1 5 false None)).
  - discriminate.
  - reflexivity.
Defined.

(** X14.  [addFrameAtTime] on a closed analyzer, or at a time whose frame
    cannot be read, changes nothing.  Otherwise it inserts one selected
    entry with the score and thumbnail of the frame read, before the first
    entry that is not earlier, and marks the configuration dirty; a
    selection sorted by time stays sorted. *)
Theorem X14_add_frame_keeps_order :
  forall (Mat : Type) (rows cols : Mat -> Z) (score : Mat -> SharpnessAlgorithm -> Q)
         (read : string -> Q -> option Mat) (resize : Mat -> Z -> Z -> Mat)
         (t : Q) (app : App Mat),
    StronglySorted byTime (selectedFrames_ app) ->
    let app' := addFrameAtTime rows cols score read resize t app in
    StronglySorted byTime (selectedFrames_ app') /\
    (getFrameAt read (analyzer_ app) t = None -> app' = app) /\
    (forall frame, getFrameAt read (analyzer_ app) t = Some frame ->
       exists before after,
         selectedFrames_ app = before ++ after /\
         selectedFrames_ app' =
           before ++
           mkFrame t (score frame (algorithm (params_ app))) true
             (Some (resize frame (Z.quot (120 * cols frame) (rows frame)) 120%Z))
           :: after /\
         (forall a, In a before -> time a < t) /\
         (forall b, In b after -> t <= time b) /\
         configDirty_ app' = true /\ allSamples_ app' = allSamples_ app).
Proof.
  intros Mat rows cols score read resize t app Hs app'. subst app'.
  unfold addFrameAtTime, getFrameAt.
  destruct (cap_isOpened (analyzer_ app)) eqn:Eo; cbn [negb].
  2:{ split; [exact Hs|]. split; [reflexivity | discriminate]. }
  destruct (lower_bound_spec Mat (selectedFrames_ app) t Hs) as (Hk & Hlo & Hhi).
  destruct (read (path (videoInfo_ (analyzer_ app))) (t * 1000)) as [frame|] eqn:Er.
  2:{ split; [exact Hs|]. split; [reflexivity | discriminate]. }
  cbn zeta. cbn [selectedFrames_ configDirty_ allSamples_]. split; [|split].
  - apply sorted_insert.
    + now rewrite firstn_skipn.
    + intros a Ha. cbn [time]. apply Qlt_le_weak, Hlo, Ha.
    + intros b Hb. cbn [time]. apply Hhi, Hb.
  - discriminate.
  - intros frame' [= <-].
    exists (firstn (lower_bound (selectedFrames_ app) t) (selectedFrames_ app)),
           (skipn (lower_bound (selectedFrames_ app) t) (selectedFrames_ app)).
    split; [now rewrite firstn_skipn|]. split; [reflexivity|].
    split; [exact Hlo|]. split; [exact Hhi|]. split; reflexivity.
Qed.

(** A frame added at 1.5 s between the bench's entries at 1 s and 2 s. *)
Lemma X14_witness :
  StronglySorted byTime
    (selectedFrames_
       (addFrameAtTime Bench.pic_rows Bench.pic_cols Bench.score Bench.ramp Bench.resize
          (3 # 2) Bench.app)).
Proof.
  apply (X14_add_frame_keeps_order Bench.Pic Bench.pic_rows Bench.pic_cols Bench.score
           Bench.ramp Bench.resize (3 # 2) Bench.app).
  vm_compute. repeat constructor; discriminate.
Defined.

(** X15.  A left click toggles at most one marker.  Distances are the
    rounded differences [|fl(time - hoveredTime)|] and the threshold is
    [fl(duration * fl(0.01))], 1% of the duration as the panel computes it
    in [double].  Nothing changes when every marker is at least the
    threshold away from the clicked time (in particular when the duration
    is not positive); otherwise the marker toggled is the nearest one, the
    first of them in list order when several are equally near.  Clicking
    twice at the same place restores the selection. *)
Theorem X15_left_click_nearest_marker :
  forall (Mat : Type) (hoveredTime : Q) (app : App Mat),
    let frames := selectedFrames_ app in
    let dist := fun fd : FrameData Mat => Qabs (Cpp.binary64 (time fd - hoveredTime)) in
    let threshold :=
      Cpp.binary64 (duration (app_videoInfo_ app) * Cpp.binary64 (1 # 100)) in
    (((forall fd, In fd frames -> threshold <= dist fd) /\
      leftClick hoveredTime app = app) \/
     (exists k fd,
        nth_error frames k = Some fd /\ dist fd < threshold /\
        (forall fd', In fd' frames -> dist fd <= dist fd') /\
        (forall j fd', (j < k)%nat -> nth_error frames j = Some fd' -> dist fd < dist fd') /\
        leftClick hoveredTime app = toggleFrameSelection (Z.of_nat k) app)) /\
    selectedFrames_ (leftClick hoveredTime (leftClick hoveredTime app)) =
    selectedFrames_ app.
Proof.
  intros Mat hoveredTime app frames dist threshold. subst frames dist threshold.
  split.
  - unfold leftClick.
    destruct (closestLoop_spec Mat (selectedFrames_ app) hoveredTime 0 (-1)
                (Cpp.binary64 (duration (app_videoInfo_ app) * Cpp.binary64 (1 # 100))))
      as [[Hr Hall] | (k & fd & Hr & Hn & Hlt & Hmin & Hfirst)].
    + left. split; [exact Hall|]. rewrite Hr. reflexivity.
    + right. exists k, fd. split; [exact Hn|]. split; [exact Hlt|].
      split; [exact Hmin|]. split; [exact Hfirst|].
      rewrite Hr. cbn [Z.add].
      assert (E : (0 <=? Z.of_nat k)%Z = true) by (apply Z.leb_le; lia).
      now rewrite E.
  - unfold leftClick.
    set (c := closestLoop (selectedFrames_ app) 0 hoveredTime (-1)
                (Cpp.binary64 (duration (app_videoInfo_ app) * Cpp.binary64 (1 # 100)))).
    destruct (0 <=? c)%Z eqn:Ec.
    + assert (Hsame : closestLoop (selectedFrames_ (toggleFrameSelection c app)) 0
                        hoveredTime (-1)
                        (Cpp.binary64
                           (duration (app_videoInfo_ (toggleFrameSelection c app)) *
                            Cpp.binary64 (1 # 100)))
                      = c).
      { unfold toggleFrameSelection.
        destruct ((0 <=? c) && (c <? Z.of_nat (List.length (selectedFrames_ app))))%Z;
          [|reflexivity].
        cbn [selectedFrames_ app_videoInfo_].
        apply closestLoop_times, toggleAt_times. }
      rewrite Hsame, Ec.
      unfold toggleFrameSelection at 2.
      destruct ((0 <=? c) && (c <? Z.of_nat (List.length (selectedFrames_ app))))%Z eqn:Er.
      * unfold toggleFrameSelection. cbn [selectedFrames_].
        rewrite toggleAt_length, Er. cbn [selectedFrames_]. apply toggleAt_twice.
      * unfold toggleFrameSelection. now rewrite Er.
    + fold c. now rewrite Ec.
Qed.

(** Two clicks at 2.05 s, next to the bench's marker at 2 s. *)
Lemma X15_witness :
  selectedFrames_ (leftClick (41 # 20) (leftClick (41 # 20) Bench.app)) =
  selectedFrames_ Bench.app.
Proof.
  exact (proj2 (X15_left_click_nearest_marker Bench.Pic (41 # 20) Bench.app)).
Defined.

(** A 30 s video with a marker at the [double] nearest to 0.3 s and a click
    at 0: the distance and the threshold are the same [double], so the
    click toggles nothing, although the marker is less than 1% of the
    duration away. *)
Example left_click_at_the_threshold :
  let marker := mkFrame (Cpp.binary64 (3 # 10)) 5 true (@None Bench.Pic) in
  let app := mkApp (Bench.clip 30) (videoInfo_ (Bench.clip 30))
               (Bench.params 3 (1 # 2) (1 # 50) (1 # 10)) [] [marker] true "" in
  Qabs (time marker - 0) < 30 * (1 # 100) /\
  Qabs (Cpp.binary64 (time marker - 0)) = Cpp.binary64 (30 * Cpp.binary64 (1 # 100)) /\
  leftClick 0 app = app.
Proof.
  cbv zeta. split; [vm_compute; reflexivity|]. split; vm_compute; reflexivity.
Qed.




(** X17.  What [saveConfig] stores besides the selected entries also comes
    back: [loadConfig] on the saved document restores the analysis
    parameters (the algorithm through its tag), the time and score of every
    sample, now unselected and without thumbnail, and the number of selected
    entries, and leaves the configuration clean. *)
Theorem X17_saved_parameters_and_samples_return :
  forall (Mat : Type) (rows cols : Mat -> Z) (read : string -> Q -> option Mat)
         (resize : Mat -> Z -> Z -> Mat) (writable : string -> bool)
         (app app1 app' : App Mat) (disk disk1 : Disk),
    saveConfig writable app disk = (true, app1, disk1) ->
    path (app_videoInfo_ app') = path (app_videoInfo_ app) ->
    exists app2,
      loadConfig rows cols read resize app' disk1 = (true, app2) /\
      params_ app2 = params_ app /\
      map pairOf (allSamples_ app2) = map pairOf (allSamples_ app) /\
      Forall (fun r => selected r = false /\ thumbnail r = None) (allSamples_ app2) /\
      getSelectedCount app2 = getSelectedCount app /\
      configDirty_ app2 = false /\
      analyzer_ app2 = analyzer_ app' /\ app_videoInfo_ app2 = app_videoInfo_ app'.
Proof.
  intros Mat rows cols read resize writable app app1 app' disk disk1 Hsave Hpath.
  eexists. split.
  { exact (save_then_load_full Mat rows cols read resize writable app app1 app'
             disk disk1 Hsave Hpath). }
  cbn [params_ allSamples_ configDirty_ analyzer_ app_videoInfo_].
  split; [reflexivity|]. split.
  { rewrite !map_map. apply map_ext. intros fd. reflexivity. }
  split.
  { apply Forall_forall. intros r Hr. apply in_map_iff in Hr.
    destruct Hr as (sn & <- & _). split; reflexivity. }
  split.
  { rewrite !getSelectedCount_filter. cbn [selectedFrames_].
    now rewrite loadFrame_count, length_map. }
  repeat split.
Qed.

(** The bench's application, saved and loaded again. *)
Lemma X17_witness :
  exists app2,
    loadConfig Bench.pic_rows Bench.pic_cols Bench.ramp Bench.resize Bench.app
      (snd (saveConfig (fun _ => true) Bench.app Bench.emptyDisk)) = (true, app2) /\
    params_ app2 = params_ Bench.app /\
    getSelectedCount app2 = 1%Z.
Proof.
  destruct (X17_saved_parameters_and_samples_return Bench.Pic Bench.pic_rows
              Bench.pic_cols Bench.ramp Bench.resize (fun _ => true) Bench.app
              (snd (fst (saveConfig (fun _ => true) Bench.app Bench.emptyDisk)))
              Bench.app Bench.emptyDisk
              (snd (saveConfig (fun _ => true) Bench.app Bench.emptyDisk))
              eq_refl eq_refl)
    as (app2 & Hload & Hp & _ & _ & Hc & _).
  exists app2. split; [exact Hload|]. split; [exact Hp | exact Hc].
Defined.

(** X18.  A refused save or load changes nothing: when [saveConfig]
    returns [false] the application and the disk are as before, and when
    [loadConfig] returns [false] so is the application.  A successful save
    writes the one file next to the video and changes only the dirty flag
    and the status text; a successful load leaves the analyzer, the video
    information and the status text alone. *)
Theorem X18_refused_persistence_changes_nothing :
  forall (Mat : Type) (rows cols : Mat -> Z) (read : string -> Q -> option Mat)
         (resize : Mat -> Z -> Z -> Mat) (writable : string -> bool)
         (app : App Mat) (disk : Disk),
    let saved := saveConfig writable app disk in
    let loaded := loadConfig rows cols read resize app disk in
    (fst (fst saved) = false -> snd (fst saved) = app /\ snd saved = disk) /\
    (fst (fst saved) = true ->
       analyzer_ (snd (fst saved)) = analyzer_ app /\
       app_videoInfo_ (snd (fst saved)) = app_videoInfo_ app /\
       params_ (snd (fst saved)) = params_ app /\
       allSamples_ (snd (fst saved)) = allSamples_ app /\
       selectedFrames_ (snd (fst saved)) = selectedFrames_ app /\
       configDirty_ (snd (fst saved)) = false /\
       forall q, q <> getConfigPath (path (app_videoInfo_ app)) -> snd saved q = disk q) /\
    (fst loaded = false -> snd loaded = app) /\
    (fst loaded = true ->
       analyzer_ (snd loaded) = analyzer_ app /\
       app_videoInfo_ (snd loaded) = app_videoInfo_ app /\
       statusText_ (snd loaded) = statusText_ app /\
       configDirty_ (snd loaded) = false /\
       Forall (fun r => selected r = true) (selectedFrames_ (snd loaded))).
Proof.
  intros Mat rows cols read resize writable app disk saved loaded.
  subst saved loaded. unfold saveConfig, loadConfig.
  destruct (isEmptyString (path (app_videoInfo_ app))); cbn [fst snd].
  { repeat split; discriminate. }
  split; [|split; [|split]].
  - destruct (writable (getConfigPath (path (app_videoInfo_ app)))); cbn [negb fst snd].
    + discriminate.
    + intros _. split; reflexivity.
  - destruct (writable (getConfigPath (path (app_videoInfo_ app)))); cbn [negb fst snd].
    + intros _. cbn. repeat split. intros q Hq. unfold store.
      destruct (String.eqb q (getConfigPath (path (app_videoInfo_ app)))) eqn:E;
        [|reflexivity].
      apply String.eqb_eq in E. contradiction.
    + discriminate.
  - destruct (disk (getConfigPath (path (app_videoInfo_ app)))) as [doc|];
      [|intros _; reflexivity].
    cbn zeta.
    destruct (match doc_version doc with Some v => v | None => 0%Z end <? 1)%Z;
      [intros _; reflexivity | discriminate].
  - destruct (disk (getConfigPath (path (app_videoInfo_ app)))) as [doc|];
      [|discriminate].
    cbn zeta.
    destruct (match doc_version doc with Some v => v | None => 0%Z end <? 1)%Z;
      [discriminate|].
    intros _. cbn [fst snd analyzer_ app_videoInfo_ statusText_ configDirty_ selectedFrames_].
    repeat split.
    destruct (doc_selected_frames doc) as [l|]; [|constructor].
    apply Forall_forall. intros r Hr. apply in_map_iff in Hr.
    destruct Hr as (fn & <- & _). reflexivity.
Qed.

(** Nothing is stored on the bench's empty disk: the load is refused. *)
Lemma X18_witness :
  snd (loadConfig Bench.pic_rows Bench.pic_cols Bench.ramp Bench.resize Bench.app
         Bench.emptyDisk) = Bench.app.
Proof.
  apply (proj1 (proj2 (proj2 (X18_refused_persistence_changes_nothing Bench.Pic
                  Bench.pic_rows Bench.pic_cols Bench.ramp Bench.resize (fun _ => true)
                  Bench.app Bench.emptyDisk)))).
  reflexivity.
Defined.

(** X19.  Closing and reopening a video restores the saved session: after
    a successful [saveConfig], [loadVideo] of the same path, from whatever
    the application showed before, gives the saved parameters, the time and
    score of every saved sample and of every entry that was selected, in
    order and all selected, a clean configuration and the status
    "Video loaded with config: <path>". *)
Theorem X19_reopening_restores_the_session :
  forall (Mat : Type) (rows cols : Mat -> Z) (read : string -> Q -> option Mat)
         (resize : Mat -> Z -> Z -> Mat) (capOpen : string -> option CapProps)
         (writable : string -> bool) (app app1 shown : App Mat) (disk disk1 : Disk)
         (props : CapProps),
    saveConfig writable app disk = (true, app1, disk1) ->
    capOpen (path (app_videoInfo_ app)) = Some props ->
    let app2 :=
      loadVideo rows cols read resize capOpen (path (app_videoInfo_ app)) shown disk1 in
    params_ app2 = params_ app /\
    map pairOf (allSamples_ app2) = map pairOf (allSamples_ app) /\
    map pairOf (selectedFrames_ app2) =
      map pairOf (filter selected (selectedFrames_ app)) /\
    Forall (fun r => selected r = true) (selectedFrames_ app2) /\
    getSelectedCount app2 = getSelectedCount app /\
    configDirty_ app2 = false /\
    cap_isOpened (analyzer_ app2) = true /\
    statusText_ app2 =
      ("Video loaded with config: " ++ path (app_videoInfo_ app))%string.
Proof.
  intros Mat rows cols read resize capOpen writable app app1 shown disk disk1 props
    Hsave Hopen app2. subst app2.
  unfold loadVideo, openVideo. rewrite Hopen. cbn zeta.
  match goal with
  | |- context [loadConfig rows cols read resize ?a disk1] => set (app' := a)
  end.
  assert (Hpath : path (app_videoInfo_ app') = path (app_videoInfo_ app)) by reflexivity.
  rewrite (save_then_load_full Mat rows cols read resize writable app app1 app'
             disk disk1 Hsave Hpath).
  cbn [params_ allSamples_ selectedFrames_ configDirty_ analyzer_ statusText_
       app_videoInfo_].
  split; [reflexivity|]. split.
  { rewrite !map_map. apply map_ext. intros fd. reflexivity. }
  split; [apply map_pairOf_loadFrame|]. split.
  { apply Forall_forall. intros r Hr. apply in_map_iff in Hr.
    destruct Hr as (fn & <- & _). reflexivity. }
  split.
  { rewrite !getSelectedCount_filter. cbn [selectedFrames_].
    now rewrite loadFrame_count, length_map. }
  repeat split.
Qed.

(** The bench's application is saved, then its clip is loaded again into an
    application that shows nothing. *)
Lemma X19_witness :
  map pairOf
    (selectedFrames_
       (loadVideo Bench.pic_rows Bench.pic_cols Bench.ramp Bench.resize Bench.capOpen
          "clip.mp4"
          (mkApp (mkAnalyzer false VideoInfo_default false) VideoInfo_default
             Bench.example [] [] false "")
          (snd (saveConfig (fun _ => true) Bench.app Bench.emptyDisk))))
  = [(2, 7)].
Proof.
  apply (X19_reopening_restores_the_session Bench.Pic Bench.pic_rows Bench.pic_cols
           Bench.ramp Bench.resize Bench.capOpen (fun _ => true) Bench.app
           (snd (fst (saveConfig (fun _ => true) Bench.app Bench.emptyDisk)))
           (mkApp (mkAnalyzer false VideoInfo_default false) VideoInfo_default
              Bench.example [] [] false "")
           Bench.emptyDisk
           (snd (saveConfig (fun _ => true) Bench.app Bench.emptyDisk))
           (mkCapProps 25 250 1920 1080) eq_refl eq_refl).
Defined.

(** X20.  When a video cannot be opened, [loadVideo] leaves an application
    with no samples, no selection and the default video information, and
    this application is inert: starting an analysis or an export changes
    nothing and writes nothing, and [saveConfig] refuses. *)
Theorem X20_failed_load_leaves_inert_application :
  forall (Mat : Type) (rows cols : Mat -> Z) (score : Mat -> SharpnessAlgorithm -> Q)
         (read : string -> Q -> option Mat) (resize : Mat -> Z -> Z -> Mat)
         (imwrite : string -> string -> Mat -> bool)
         (capOpen : string -> option CapProps) (p : string) (shown : App Mat)
         (disk : Disk),
    capOpen p = None ->
    let app := loadVideo rows cols read resize capOpen p shown disk in
    allSamples_ app = [] /\ selectedFrames_ app = [] /\
    app_videoInfo_ app = VideoInfo_default /\
    statusText_ app = "Failed to load video"%string /\
    (forall fuel analyzing env,
       startAnalysis rows cols score read resize fuel analyzing env app = Some app) /\
    (forall analyzing schedule dir,
       App_exportFrames read imwrite analyzing schedule dir app = (app, [])) /\
    (forall writable, saveConfig writable app disk = (false, app, disk)).
Proof.
  intros Mat rows cols score read resize imwrite capOpen p shown disk Hp app.
  subst app. unfold loadVideo, openVideo. rewrite Hp.
  repeat split.
  - intros fuel analyzing env. unfold startAnalysis. cbn. now rewrite orb_true_r.
  - intros analyzing schedule dir. unfold App_exportFrames. cbn. now rewrite orb_true_r.
Qed.

(** The bench cannot open [missing.mp4]. *)
Lemma X20_witness :
  selectedFrames_
    (loadVideo Bench.pic_rows Bench.pic_cols Bench.ramp Bench.resize Bench.capOpen
       "missing.mp4" Bench.app Bench.emptyDisk) = [].
Proof.
  apply (X20_failed_load_leaves_inert_application Bench.Pic Bench.pic_rows Bench.pic_cols
           Bench.score Bench.ramp Bench.resize Bench.imwrite Bench.capOpen
           "missing.mp4"%string Bench.app Bench.emptyDisk eq_refl).
Defined.

(** X21.  [startAnalysis] never stores the selection of a disturbed run.
    While another analysis runs, or on a closed analyzer, it changes
    nothing.  Otherwise the status text follows the flag as it is read last,
    when the thread is done, and the selection it leaves is empty with the
    dirty flag untouched, or it is exactly what the optimizer returns when
    nobody cancels, and then the configuration is dirty.  In that case the
    status is "Analysis complete" unless a request arrived after the second
    check: then the selection is stored all the same and the status reads
    "Analysis cancelled". *)
Theorem X21_analysis_stores_only_undisturbed_selection :
  forall (Mat : Type) (rows cols : Mat -> Z) (score : Mat -> SharpnessAlgorithm -> Q)
         (read : string -> Q -> option Mat) (resize : Mat -> Z -> Z -> Mat)
         (fuel : nat) (analyzing : bool) (env : AnalysisEnv) (app app' : App Mat),
    monotone (pass2 env) ->
    startAnalysis rows cols score read resize fuel analyzing env app = Some app' ->
    (analyzing = true \/ cap_isOpened (analyzer_ app) = false -> app' = app) /\
    (analyzing = false -> cap_isOpened (analyzer_ app) = true ->
       statusText_ app' =
         (if isCancelled (analyzer_ app') then "Analysis cancelled"
          else "Analysis complete")%string /\
       (atStatus env = true -> isCancelled (analyzer_ app') = true) /\
       ((selectedFrames_ app' = [] /\ configDirty_ app' = configDirty_ app) \/
        (exists va',
           findOptimalFrames rows cols score read resize fuel (analyzer_ app) quiet
             (params_ app) (allSamples_ app') []
           = Some (true, selectedFrames_ app', va') /\
           configDirty_ app' = true /\
           isCancelled (analyzer_ app') = atStatus env))).
Proof.
  intros Mat rows cols score read resize fuel analyzing env app app' Hmono Hrun.
  unfold startAnalysis in Hrun. split.
  - intros Hguard.
    assert (E : analyzing || negb (cap_isOpened (analyzer_ app)) = true).
    { destruct Hguard as [-> | ->]; [reflexivity | apply orb_true_r]. }
    rewrite E in Hrun. now injection Hrun as <-.
  - intros -> Hopen. rewrite Hopen in Hrun. cbn [orb negb] in Hrun. cbn zeta in Hrun.
    destruct (analyzeFullVideo score read fuel (resetCancel (analyzer_ app)) (pass1 env)
                (params_ app) []) as [[[success samples] va1]|] eqn:E1; [|discriminate].
    destruct (analyzeFullVideo_analyzer Mat score read fuel _ _ _ _ _ _ _ E1)
      as (Ho1 & Hv1 & HD1).
    set (va1' := if afterPass1 env then cancel va1 else va1) in Hrun.
    assert (Ho1' : cap_isOpened va1' = true).
    { subst va1'. destruct (afterPass1 env); cbn; rewrite Ho1; exact Hopen. }
    assert (Hv1' : videoInfo_ va1' = videoInfo_ (analyzer_ app)).
    { subst va1'. destruct (afterPass1 env); cbn; rewrite Hv1; reflexivity. }
    destruct (success && negb (isCancelled va1')) eqn:Eg.
    2:{ injection Hrun as <-. cbn [statusText_ analyzer_ selectedFrames_ configDirty_].
        split; [reflexivity|]. split.
        - intros ->. reflexivity.
        - left. split; reflexivity. }
    apply andb_prop in Eg. destruct Eg as [-> _].
    specialize (HD1 eq_refl). cbn in HD1.
    destruct (findOptimalFrames rows cols score read resize fuel va1' (pass2 env)
                (params_ app) samples []) as [[[success2 chosen] va2]|] eqn:E2;
      [|discriminate].
    injection Hrun as <-.
    cbn [statusText_ analyzer_ selectedFrames_ configDirty_ allSamples_].
    split; [reflexivity|]. split; [intros ->; reflexivity|].
    destruct (success2 && negb (isCancelled (if afterPass2 env then cancel va2 else va2)))
      eqn:Eg2.
    2:{ left. split; reflexivity. }
    right.
    apply andb_prop in Eg2. destruct Eg2 as [-> Hc2]. apply negb_true_iff in Hc2.
    assert (HD1' : 0 < duration (videoInfo_ va1')) by (rewrite Hv1'; exact HD1).
    destruct (findOptimalFrames_outcome Mat rows cols score read resize fuel va1'
                (pass2 env) (params_ app) samples [] true chosen va2 Ho1' HD1' E2)
      as [Hend _].
    assert (Hend' : requestedAtEnd (pass2 env) = false)
      by (destruct (requestedAtEnd (pass2 env)); [discriminate | reflexivity]).
    assert (Hreq : forall i j, requested (pass2 env) i j = false).
    { intros i j. destruct (requested (pass2 env) i j) eqn:Er; [|reflexivity].
      destruct Hmono as [_ Hm]. rewrite (Hm i j Er) in Hend'. discriminate. }
    rewrite (findOptimalFrames_unobserved Mat rows cols score read resize fuel va1'
               (pass2 env) (params_ app) samples [] Hreq Hend') in E2.
    rewrite (findOptimalFrames_same_video Mat rows cols score read resize fuel va1'
               (analyzer_ app) quiet (params_ app) samples [] Ho1' Hopen Hv1') in E2.
    exists va2. split; [exact E2|]. split; [reflexivity|].
    destruct (atStatus env); [reflexivity | exact Hc2].
Qed.

(** The bench's application is analysed with nobody cancelling. *)
Lemma X21_witness :
  exists app',
    startAnalysis Bench.pic_rows Bench.pic_cols Bench.score Bench.ramp Bench.resize
      200 false (mkAnalysisEnv quiet false quiet false false) Bench.app = Some app' /\
    statusText_ app' =
      (if isCancelled (analyzer_ app') then "Analysis cancelled"
       else "Analysis complete")%string /\
    (selectedFrames_ app' = [] /\ configDirty_ app' = configDirty_ Bench.app \/
     exists va',
       findOptimalFrames Bench.pic_rows Bench.pic_cols Bench.score Bench.ramp Bench.resize
         200 (analyzer_ Bench.app) quiet (params_ Bench.app) (allSamples_ app') []
       = Some (true, selectedFrames_ app', va') /\
       configDirty_ app' = true /\
       isCancelled (analyzer_ app') = false).
Proof.
  destruct (startAnalysis Bench.pic_rows Bench.pic_cols Bench.score Bench.ramp Bench.resize
              200 false (mkAnalysisEnv quiet false quiet false false) Bench.app)
    as [app'|] eqn:E; [|vm_compute in E; discriminate E].
  exists app'. split; [reflexivity|].
  destruct (X21_analysis_stores_only_undisturbed_selection Bench.Pic Bench.pic_rows
              Bench.pic_cols Bench.score Bench.ramp Bench.resize 200%nat false
              (mkAnalysisEnv quiet false quiet false false) Bench.app app'
              ltac:(split; intros i j H; discriminate H) E) as [_ H].
  destruct (H eq_refl eq_refl) as (Hst & _ & Hsel).
  split; [exact Hst | exact Hsel].
Defined.

(** A request that arrives after the second check: the selection of the
    four targets is stored, the configuration is dirty, and the status
    reads "Analysis cancelled". *)
Example analysis_cancelled_after_storing :
  exists app',
    startAnalysis Bench.pic_rows Bench.pic_cols Bench.score Bench.ramp Bench.resize
      200 false (mkAnalysisEnv quiet false quiet false true) Bench.app = Some app' /\
    List.length (selectedFrames_ app') = 4%nat /\
    configDirty_ app' = true /\
    statusText_ app' = "Analysis cancelled"%string.
Proof.
  eexists. split; [vm_compute; reflexivity|].
  split; [reflexivity|]. split; reflexivity.
Qed.

(* ------------------------------------------------------------------ *)
(** * Further properties of the command line *)

Lemma parseArgs_spec (argv : list string) : forall acc,
  cli_args (parseArgs argv acc) =
    (cli_args acc ++
     filter (fun a => negb (String.eqb a "--plot") &&
                      negb (String.prefix "--algorithm=" a) &&
                      negb (String.eqb a "--cli")) argv)%list /\
  cli_showPlot (parseArgs argv acc) =
    cli_showPlot acc || existsb (fun a => String.eqb a "--plot") argv /\
  ((forall a, In a argv -> String.eqb a "--plot" = false ->
              String.prefix "--algorithm=" a = false) ->
   cli_algorithm (parseArgs argv acc) = cli_algorithm acc).
Proof.
  induction argv as [|a rest IH]; intros acc; cbn [parseArgs filter existsb].
  - rewrite app_nil_r, orb_false_r. repeat split.
  - destruct (String.eqb a "--plot") eqn:Ep;
      [|destruct (String.prefix "--algorithm=" a) eqn:Ea;
        [|destruct (String.eqb a "--cli") eqn:Ec]];
      cbn [negb andb orb];
      match goal with
      | |- context [parseArgs rest ?x] => destruct (IH x) as (Hargs & Hplot & Halg)
      end;
      rewrite Hargs, Hplot; cbn [cli_args cli_showPlot cli_algorithm] in *.
    + split; [reflexivity|]. split; [now rewrite orb_true_r|].
      intros H. rewrite Halg; [reflexivity|]. intros b Hb. apply H. now right.
    + split; [reflexivity|]. split; [reflexivity|].
      intros H. specialize (H a (or_introl eq_refl) Ep). congruence.
    + split; [reflexivity|]. split; [reflexivity|].
      intros H. rewrite Halg; [reflexivity|]. intros b Hb. apply H. now right.
    + split; [now rewrite <- app_assoc|]. split; [reflexivity|].
      intros H. rewrite Halg; [reflexivity|]. intros b Hb. apply H. now right.
Qed.

(** X22.  The command line takes its flags anywhere: the positional
    arguments are the arguments other than [--plot], [--cli] and those that
    start with [--algorithm=], in their order; the plot is requested as soon
    as [--plot] occurs; without an [--algorithm=] flag the algorithm is FFT,
    and a name other than [laplacian] also selects FFT. *)
Theorem X22_command_line_flags :
  forall (argv : list string),
    let parsed := parseArgs argv (mkCliArgs false FFT []) in
    cli_args parsed =
      filter (fun a => negb (String.eqb a "--plot") &&
                       negb (String.prefix "--algorithm=" a) &&
                       negb (String.eqb a "--cli")) argv /\
    cli_showPlot parsed = existsb (fun a => String.eqb a "--plot") argv /\
    ((forall a, In a argv -> String.eqb a "--plot" = false ->
                String.prefix "--algorithm=" a = false) ->
     cli_algorithm parsed = FFT) /\
    (forall name, name <> "laplacian"%string -> parseAlgorithm name = FFT).
Proof.
  intros argv parsed. subst parsed.
  destruct (parseArgs_spec argv (mkCliArgs false FFT [])) as (Ha & Hp & Hg).
  split; [exact Ha|]. split; [exact Hp|]. split; [exact Hg|].
  intros name Hn. unfold parseAlgorithm.
  destruct (String.eqb name "laplacian") eqn:E; [|reflexivity].
  apply String.eqb_eq in E. contradiction.
Qed.

(** Flags before, between and after the positional arguments. *)
Lemma X22_witness :
  cli_args (parseArgs ["sharpctl"; "--plot"; "clip.mp4"; "--algorithm=fft"; "out"; "2";
                       "--cli"]%string (mkCliArgs false FFT []))
  = ["sharpctl"; "clip.mp4"; "out"; "2"]%string.
Proof.
  exact (proj1 (X22_command_line_flags
                  ["sharpctl"; "--plot"; "clip.mp4"; "--algorithm=fft"; "out"; "2";
                   "--cli"]%string)).
Defined.

(** X23.  The command line validates before it touches anything: with
    fewer than three positional arguments after the program name, with an
    interval that is not positive, a negative half-width or a step that is
    not positive, it exits with code 1 without creating the output
    directory, opening the video or writing a file. *)
Theorem X23_command_line_validation :
  forall (Mat : Type) (rows cols : Mat -> Z) (score : Mat -> SharpnessAlgorithm -> Q)
         (read : string -> Q -> option Mat) (resize : Mat -> Z -> Z -> Mat)
         (imwrite : string -> string -> Mat -> bool)
         (capOpen : string -> option CapProps) (stod : string -> option Q)
         (toFloat : Q -> Q) (createDirectories : string -> bool)
         (fuel : nat) (argv : list string),
    let args := cli_args (parseArgs argv (mkCliArgs false FFT [])) in
    let run :=
      runCli rows cols score read resize imwrite capOpen stod toFloat createDirectories
        fuel argv in
    ((List.length args < 4)%nat -> run = Some (ExitCode 1, [])) /\
    (forall interval window step,
       (4 <= List.length args)%nat ->
       stod (nth 3 args EmptyString) = Some interval ->
       optionalArg stod args 4 (1 # 2) = Some window ->
       optionalArg stod args 5 (2 # 100) = Some step ->
       interval <= 0 \/ window < 0 \/ step <= 0 ->
       run = Some (ExitCode 1, [])).
Proof.
  intros Mat rows cols score read resize imwrite capOpen stod toFloat createDirectories
    fuel argv args run. subst args run. unfold runCli. cbn zeta. split.
  - intros Hlt. apply Nat.ltb_lt in Hlt. now rewrite Hlt.
  - intros interval window step Hlen Hi Hw Hs Hbad.
    assert (E : (List.length (cli_args (parseArgs argv (mkCliArgs false FFT []))) <? 4)%nat
                = false) by (apply Nat.ltb_ge; exact Hlen).
    rewrite E, Hi, Hw, Hs.
    destruct (Cpp.le interval 0) eqn:E1; [reflexivity|].
    apply Cpp_le_false_iff in E1.
    destruct (Cpp.gt 0 window) eqn:E2; [reflexivity|].
    apply Cpp_gt_false_iff in E2.
    destruct (Cpp.le step 0) eqn:E3; [reflexivity|].
    apply Cpp_le_false_iff in E3.
    exfalso. destruct Hbad as [H | [H | H]]; lra.
Qed.

(** An interval of 0. *)
Lemma X23_witness :
  runCli Bench.pic_rows Bench.pic_cols Bench.score Bench.ramp Bench.resize
    Bench.imwrite Bench.capOpen Bench.stod Bench.toFloat Bench.createDirectories 100
    ["sharpctl"; "clip.mp4"; "out"; "0"]%string
  = Some (ExitCode 1, []).
Proof.
  apply (proj2 (X23_command_line_validation Bench.Pic Bench.pic_rows Bench.pic_cols
                  Bench.score Bench.ramp Bench.resize Bench.imwrite Bench.capOpen
                  Bench.stod Bench.toFloat Bench.createDirectories 100%nat
                  ["sharpctl"; "clip.mp4"; "out"; "0"]%string)
           0 (1 # 2) (2 # 100)).
  - vm_compute. lia.
  - reflexivity.
  - reflexivity.
  - reflexivity.
  - left. discriminate.
Defined.



(** X25.  On a video whose duration is unknown the command line warns
    that it will sample until seeks fail, but the optimizer refuses at once:
    with valid arguments the run exits with code 0 and writes no file,
    whatever the video contains. *)
Theorem X25_command_line_unknown_duration :
  forall (Mat : Type) (rows cols : Mat -> Z) (score : Mat -> SharpnessAlgorithm -> Q)
         (read : string -> Q -> option Mat) (resize : Mat -> Z -> Z -> Mat)
         (imwrite : string -> string -> Mat -> bool)
         (capOpen : string -> option CapProps) (stod : string -> option Q)
         (toFloat : Q -> Q) (createDirectories : string -> bool)
         (fuel : nat) (argv : list string) (interval window step : Q) (props : CapProps),
    let args := cli_args (parseArgs argv (mkCliArgs false FFT [])) in
    (4 <= List.length args)%nat ->
    stod (nth 3 args EmptyString) = Some interval ->
    optionalArg stod args 4 (1 # 2) = Some window ->
    optionalArg stod args 5 (2 # 100) = Some step ->
    0 < interval -> 0 <= window -> 0 < step ->
    createDirectories (nth 2 args EmptyString) = true ->
    capOpen (nth 1 args EmptyString) = Some props ->
    CAP_PROP_FPS props <= 0 \/ (Cpp.to_int (CAP_PROP_FRAME_COUNT props) <= 0)%Z ->
    runCli rows cols score read resize imwrite capOpen stod toFloat createDirectories
      fuel argv = Some (ExitCode 0, []).
Proof.
  intros Mat rows cols score read resize imwrite capOpen stod toFloat createDirectories
    fuel argv interval window step props args Hlen Hi Hw Hs Hi0 Hw0 Hs0 Hdir Hopen Hmeta.
  subst args. unfold runCli. cbn zeta.
  assert (E : (List.length (cli_args (parseArgs argv (mkCliArgs false FFT []))) <? 4)%nat
              = false) by (apply Nat.ltb_ge; exact Hlen).
  rewrite E, Hi, Hw, Hs.
  assert (E1 : Cpp.le interval 0 = false) by (apply Cpp_le_false_iff; exact Hi0).
  assert (E2 : Cpp.gt 0 window = false) by (apply Cpp_gt_false_iff; exact Hw0).
  assert (E3 : Cpp.le step 0 = false) by (apply Cpp_le_false_iff; exact Hs0).
  rewrite E1, E2, E3, Hdir. cbn [orb negb].
  unfold openVideo. rewrite Hopen.
  assert (Hd : (if Cpp.gt (CAP_PROP_FPS props) 0 &&
                   (0 <? Cpp.to_int (CAP_PROP_FRAME_COUNT props))%Z
                then Cpp.binary64
                       (inject_Z (Cpp.to_int (CAP_PROP_FRAME_COUNT props)) /
                        CAP_PROP_FPS props)
                else 0) = 0).
  { destruct Hmeta as [Hf | Hc].
    - apply Cpp_gt_false_iff in Hf. now rewrite Hf.
    - assert (Hz : (0 <? Cpp.to_int (CAP_PROP_FRAME_COUNT props))%Z = false)
        by (apply Z.ltb_ge; exact Hc).
      rewrite Hz. now rewrite andb_false_r. }
  cbn zeta. rewrite Hd. reflexivity.
Qed.

(** A stream without frame count, asked for a frame every 2 s. *)
Lemma X25_witness :
  runCli Bench.pic_rows Bench.pic_cols Bench.score Bench.ramp Bench.resize
    Bench.imwrite Bench.liveOpen Bench.stod Bench.toFloat Bench.createDirectories 0
    ["sharpctl"; "--cli"; "live.ts"; "out"; "2"]%string
  = Some (ExitCode 0, []).
Proof.
  apply (X25_command_line_unknown_duration Bench.Pic Bench.pic_rows Bench.pic_cols
           Bench.score Bench.ramp Bench.resize Bench.imwrite Bench.liveOpen Bench.stod
           Bench.toFloat Bench.createDirectories 0%nat
           ["sharpctl"; "--cli"; "live.ts"; "out"; "2"]%string
           2 (1 # 2) (2 # 100) (mkCapProps 25 0 1920 1080)).
  - vm_compute. lia.
  - reflexivity.
  - reflexivity.
  - reflexivity.
  - reflexivity.
  - discriminate.
  - reflexivity.
  - reflexivity.
  - reflexivity.
  - right. vm_compute. discriminate.
Defined.


(* ------------------------------------------------------------------ *)
(** * Further properties of the panels *)

Lemma assign_length (a : list Q) : forall i v, List.length (assign i v a) = List.length a.
Proof.
  induction a as [|x a IH]; intros [|i] v; cbn; auto.
Qed.

Lemma assign_nth (a : list Q) : forall i v k,
  (i < List.length a)%nat ->
  nth k (assign i v a) 0 = if Nat.eqb k i then v else nth k a 0.
Proof.
  induction a as [|x a IH]; intros [|i] v [|k] Hi; cbn in Hi; try lia;
    cbn [assign nth Nat.eqb]; try reflexivity.
  apply IH. lia.
Qed.

Lemma mod_wrap (a b : nat) :
  (a < HISTORY_SIZE)%nat -> (b <= HISTORY_SIZE)%nat ->
  (a + b) mod HISTORY_SIZE =
  if (a + b <? HISTORY_SIZE)%nat then (a + b)%nat else (a + b - HISTORY_SIZE)%nat.
Proof.
  unfold HISTORY_SIZE. intros Ha Hb.
  destruct (Nat.ltb_spec (a + b) 120) as [H | H].
  - apply Nat.mod_small, H.
  - replace (a + b)%nat with ((a + b - 120) + 1 * 120)%nat at 1 by lia.
    rewrite Nat.Div0.mod_add. apply Nat.mod_small. lia.
Qed.

Lemma copyHistory_length (history : list Q) : forall n idx,
  List.length (copyHistory n idx history) = n.
Proof.
  induction n as [|n IH]; intros idx; cbn; [reflexivity | now rewrite IH].
Qed.

Lemma copyHistory_nth (history : list Q) : forall n idx j,
  (idx < HISTORY_SIZE)%nat -> (j < n)%nat ->
  nth j (copyHistory n idx history) 0 = nth ((idx + j) mod HISTORY_SIZE) history 0.
Proof.
  induction n as [|n IH]; intros idx j Hidx Hj; [lia|].
  cbn [copyHistory]. destruct j as [|j]; cbn [nth].
  - rewrite Nat.add_0_r, Nat.mod_small by exact Hidx. reflexivity.
  - rewrite IH.
    + rewrite Nat.Div0.add_mod_idemp_l. f_equal. f_equal. lia.
    + apply Nat.mod_upper_bound. discriminate.
    + lia.
Qed.

Lemma plot_shift (history : list Q) (idx : nat) (v : Q) :
  List.length history = HISTORY_SIZE -> (idx < HISTORY_SIZE)%nat ->
  copyHistory HISTORY_SIZE ((idx + 1) mod HISTORY_SIZE) (assign idx v history) =
  tl (copyHistory HISTORY_SIZE idx history) ++ [v].
Proof.
  intros Hlen Hidx.
  assert (Hnext : ((idx + 1) mod HISTORY_SIZE < HISTORY_SIZE)%nat)
    by (apply Nat.mod_upper_bound; discriminate).
  apply (nth_ext _ _ 0 0).
  - rewrite length_app, copyHistory_length. cbn [List.length].
    change (copyHistory HISTORY_SIZE idx history)
      with (nth idx history 0 ::
            copyHistory 119 ((idx + 1) mod HISTORY_SIZE) history).
    cbn [tl]. rewrite copyHistory_length. reflexivity.
  - intros j Hj. rewrite copyHistory_length in Hj.
    rewrite copyHistory_nth by assumption.
    rewrite Nat.Div0.add_mod_idemp_l.
    rewrite assign_nth by (rewrite Hlen; exact Hidx).
    change (copyHistory HISTORY_SIZE idx history)
      with (nth idx history 0 ::
            copyHistory 119 ((idx + 1) mod HISTORY_SIZE) history).
    cbn [tl].
    replace (idx + 1 + j)%nat with (idx + (1 + j))%nat by lia.
    rewrite mod_wrap by (unfold HISTORY_SIZE in *; lia).
    unfold HISTORY_SIZE in *.
    destruct (Nat.eq_dec j 119) as [-> | Hne].
    + destruct (Nat.ltb_spec (idx + (1 + 119)) 120) as [H | H]; [lia|].
      replace (idx + (1 + 119) - 120)%nat with idx by lia.
      rewrite Nat.eqb_refl.
      rewrite app_nth2 by (rewrite copyHistory_length; lia).
      rewrite copyHistory_length. reflexivity.
    + rewrite app_nth1 by (rewrite copyHistory_length; lia).
      rewrite copyHistory_nth by (unfold HISTORY_SIZE; lia).
      rewrite Nat.Div0.add_mod_idemp_l.
      replace (idx + 1 + j)%nat with (idx + (1 + j))%nat by lia.
      fold HISTORY_SIZE.
      rewrite mod_wrap by (unfold HISTORY_SIZE in *; lia).
      unfold HISTORY_SIZE.
      destruct (Nat.ltb_spec (idx + (1 + j)) 120) as [H | H].
      * destruct (Nat.eqb_spec (idx + (1 + j)) idx) as [E | E]; [lia | reflexivity].
      * destruct (Nat.eqb_spec (idx + (1 + j) - 120) idx) as [E | E]; [lia | reflexivity].
Qed.

(** X26.  The performance history is a ring of 120 readings: an update
    keeps both arrays at 120 entries and the write index below 120, and the
    series the control panel plots, oldest first, moves on by one reading,
    the first one drops out and the new current value comes last. *)
Theorem X26_performance_history_is_a_ring :
  forall (stat : option CpuLine) (card0 card1 : option Z) (ps : PerfStats),
    List.length (cpuHistory ps) = HISTORY_SIZE ->
    List.length (gpuHistory ps) = HISTORY_SIZE ->
    (historyIndex ps < HISTORY_SIZE)%nat ->
    let ps' := updatePerfStats stat card0 card1 ps in
    List.length (cpuHistory ps') = HISTORY_SIZE /\
    List.length (gpuHistory ps') = HISTORY_SIZE /\
    (historyIndex ps' < HISTORY_SIZE)%nat /\
    cpuPlot ps' = tl (cpuPlot ps) ++ [currentCpu ps'] /\
    gpuPlot ps' = tl (gpuPlot ps) ++ [currentGpu ps'].
Proof.
  intros stat card0 card1 ps Hc Hg Hi ps'. subst ps'.
  unfold updatePerfStats, cpuPlot, gpuPlot.
  destruct stat as [s|]; cbv beta iota zeta;
    cbn [cpuHistory gpuHistory historyIndex currentCpu currentGpu];
    rewrite !assign_length;
    (split; [exact Hc|]); (split; [exact Hg|]);
    (split; [apply Nat.mod_upper_bound; discriminate|]);
    split; apply plot_shift; assumption.
Qed.

(** The first reading after start-up. *)
Lemma X26_witness :
  cpuPlot (updatePerfStats (Some (mkCpuLine 10 0 5 80 5 0 0 0)) (Some 40%Z) None
             PerfStats_default)
  = tl (cpuPlot PerfStats_default) ++
    [currentCpu (updatePerfStats (Some (mkCpuLine 10 0 5 80 5 0 0 0)) (Some 40%Z) None
                   PerfStats_default)].
Proof.
  apply (X26_performance_history_is_a_ring (Some (mkCpuLine 10 0 5 80 5 0 0 0))
           (Some 40%Z) None PerfStats_default).
  - reflexivity.
  - reflexivity.
  - vm_compute. lia.
Defined.

(** X27.  The CPU load shown needs two readings of [/proc/stat]: the first
    one, and any one whose total does not advance, carries the previous
    value over.  After that the value is [100 * (1 - idleDelta / totalDelta)]
    computed in [float], every operation rounded to single precision.  When
    the idle counter advanced by no more than the total it lies between 0
    and 100, and for less than 2^24 ticks between the readings within 2e-5
    of the exact percentage.  The two counters are remembered in every
    case, and an unreadable [/proc/stat] changes none of the three. *)
Theorem X27_cpu_load_between_readings :
  forall (s : CpuLine) (card0 card1 : option Z) (ps : PerfStats),
    let idle := (cpu_idle s + cpu_iowait s)%Z in
    let total := (cpu_user s + cpu_nice s + cpu_system s + cpu_idle s + cpu_iowait s +
                  cpu_irq s + cpu_softirq s + cpu_steal s)%Z in
    let idleDelta := (idle - prevIdleTime ps)%Z in
    let totalDelta := (total - prevTotalTime ps)%Z in
    let ps' := updatePerfStats (Some s) card0 card1 ps in
    let idle' := updatePerfStats None card0 card1 ps in
    prevIdleTime ps' = idle /\ prevTotalTime ps' = total /\
    ((prevTotalTime ps <= 0)%Z \/ (total <= prevTotalTime ps)%Z ->
     currentCpu ps' = currentCpu ps) /\
    ((0 < prevTotalTime ps)%Z -> (prevTotalTime ps < total)%Z ->
     currentCpu ps' =
       Cpp.binary32
         (100 * Cpp.binary32
                  (1 - Cpp.binary32 (Cpp.binary32 (inject_Z idleDelta) /
                                     Cpp.binary32 (inject_Z totalDelta)))) /\
     ((0 <= idleDelta <= totalDelta)%Z ->
      0 <= currentCpu ps' /\ currentCpu ps' <= 100 /\
      ((totalDelta < 16777216)%Z ->
       Qabs (currentCpu ps' - 100 * (1 - inject_Z idleDelta / inject_Z totalDelta))
       <= 1 # 50000))) /\
    currentCpu idle' = currentCpu ps /\ prevIdleTime idle' = prevIdleTime ps /\
    prevTotalTime idle' = prevTotalTime ps.
Proof.
  intros s card0 card1 ps idle total idleDelta totalDelta ps' idle'.
  subst ps' idle'.
  unfold updatePerfStats. cbn [currentCpu prevIdleTime prevTotalTime].
  fold idle. fold total. fold idleDelta. fold totalDelta.
  split; [reflexivity|]. split; [reflexivity|]. split; [|split].
  - intros [H | H].
    + assert (E : (0 <? prevTotalTime ps)%Z = false) by (apply Z.ltb_ge; exact H).
      now rewrite E.
    + destruct (0 <? prevTotalTime ps)%Z; [|reflexivity].
      assert (E : (0 <? totalDelta)%Z = false) by (apply Z.ltb_ge; unfold totalDelta; lia).
      now rewrite E.
  - intros Hp Ht.
    assert (E1 : (0 <? prevTotalTime ps)%Z = true) by (apply Z.ltb_lt; exact Hp).
    assert (E2 : (0 <? totalDelta)%Z = true) by (apply Z.ltb_lt; unfold totalDelta; lia).
    rewrite E1, E2. split; [reflexivity|].
    intros Hd.
    assert (HtD : (0 < totalDelta)%Z) by (unfold totalDelta; lia).
    destruct (cpuLoad_bounds idleDelta totalDelta HtD Hd) as [H0 H100].
    split; [exact H0|]. split; [exact H100|].
    intros Hs. exact (cpuLoad_error idleDelta totalDelta HtD Hd Hs).
  - repeat split.
Qed.

(** A second reading: 100 ticks later, 70 of them idle.  The exact
    percentage is 30, the value computed in [float] is the next [float]
    above it. *)
Lemma X27_witness :
  currentCpu (updatePerfStats (Some (mkCpuLine 40 0 10 140 10 0 0 0)) None None
                (mkPerf (repeat 0 HISTORY_SIZE) (repeat 0 HISTORY_SIZE) 1 0 0 80 100))
  = 15728641 # 524288.
Proof.
  rewrite (proj1 (proj1 (proj2 (proj2 (proj2 (X27_cpu_load_between_readings
                  (mkCpuLine 40 0 10 140 10 0 0 0) None None
                  (mkPerf (repeat 0 HISTORY_SIZE) (repeat 0 HISTORY_SIZE) 1 0 0 80 100)))))
             ltac:(reflexivity) ltac:(reflexivity))).
  vm_compute. reflexivity.
Defined.


Lemma to_int_floor (x : Q) :
  0 <= x -> x < 2147483648 -> Cpp.to_int x = Qfloor x /\ (0 <= Qfloor x < 2147483648)%Z.
Proof.
  intros H0 H1.
  assert (Hf0 : (0 <= Qfloor x)%Z).
  { change 0%Z with (Qfloor 0). apply Qfloor_resp_le, H0. }
  assert (Hf1 : (Qfloor x < 2147483648)%Z).
  { rewrite Zlt_Qlt. eapply Qle_lt_trans; [apply Qfloor_le | exact H1]. }
  split; [|lia].
  unfold Cpp.to_int. destruct x as [n d]. cbn [Qnum Qden Qfloor] in *.
  assert (Hn : (0 <= n)%Z).
  { unfold Qle in H0. cbn in H0. lia. }
  rewrite Z.quot_div_nonneg by lia.
  assert (E : ((-2147483648 <=? n / Z.pos d) && (n / Z.pos d <=? 2147483647))%Z = true).
  { apply andb_true_intro. split; [apply Z.leb_le | apply Z.leb_le]; lia. }
  now rewrite E.
Qed.

(** X28.  The time shown under the preview is a clock reading: for a
    hovered time from 0 up to the range of [int], the seconds field lies in
    [[0, 59]], the milliseconds field in [[0, 999]], the minutes are not
    negative, and minutes and seconds together are the whole seconds of the
    hovered time. *)
Theorem X28_time_display_fields :
  forall (hoveredTime : Q),
    0 <= hoveredTime -> hoveredTime < 2147483648 ->
    let mins := fst (fst (timeDisplay hoveredTime)) in
    let secs := snd (fst (timeDisplay hoveredTime)) in
    let msecs := snd (timeDisplay hoveredTime) in
    (0 <= mins /\ 0 <= secs < 60 /\ 0 <= msecs < 1000 /\
     60 * mins + secs = Qfloor hoveredTime)%Z.
Proof.
  intros t H0 H1 mins secs msecs. subst mins secs msecs.
  unfold timeDisplay. cbn [fst snd].
  destruct (to_int_floor t H0 H1) as [-> [Hf0 Hf1]].
  pose proof (Qfloor_le t) as Hlo. pose proof (Qlt_floor t) as Hhi.
  rewrite inject_Z_plus in Hhi. change (inject_Z 1) with 1 in Hhi.
  assert (Hm0 : 0 <= (t - inject_Z (Qfloor t)) * 1000) by lra.
  assert (Hm1 : (t - inject_Z (Qfloor t)) * 1000 < 2147483648) by lra.
  destruct (to_int_floor _ Hm0 Hm1) as [-> [Hg0 _]].
  assert (Hg1 : (Qfloor ((t - inject_Z (Qfloor t)) * 1000) < 1000)%Z).
  { rewrite Zlt_Qlt. eapply Qle_lt_trans; [apply Qfloor_le|].
    change (inject_Z 1000) with 1000. lra. }
  pose proof (Z.quot_rem (Qfloor t) 60 ltac:(discriminate)) as Hqr.
  pose proof (Z.rem_bound_pos (Qfloor t) 60 Hf0 ltac:(reflexivity)) as Hr.
  pose proof (Z.quot_pos (Qfloor t) 60 Hf0 ltac:(reflexivity)) as Hq.
  lia.
Qed.

(** 75.25 s is shown as 1:15.250. *)
Lemma X28_witness :
  (0 <= fst (fst (timeDisplay (301 # 4))) /\
   0 <= snd (fst (timeDisplay (301 # 4))) < 60 /\
   0 <= snd (timeDisplay (301 # 4)) < 1000 /\
   60 * fst (fst (timeDisplay (301 # 4))) + snd (fst (timeDisplay (301 # 4)))
   = Qfloor (301 # 4))%Z.
Proof.
  apply (X28_time_display_fields (301 # 4)).
  - discriminate.
  - reflexivity.
Defined.

(* ------------------------------------------------------------------ *)
(** * Further properties of the export file names *)

Lemma compare_lt_trans (a b c : string) :
  String.compare a b = Lt -> String.compare b c = Lt -> String.compare a c = Lt.
Proof.
  intros H1 H2.
  apply (proj1 (String_as_OT.cmp_lt a b)) in H1.
  apply (proj1 (String_as_OT.cmp_lt b c)) in H2.
  apply (proj2 (String_as_OT.cmp_lt a c)).
  exact (String_as_OT.lt_trans a b c H1 H2).
Qed.

Lemma ascii_compare_refl (c : ascii) : Ascii.compare c c = Eq.
Proof. unfold Ascii.compare. apply N.compare_refl. Qed.

Lemma compare_app_same (p a b : string) :
  String.compare (p ++ a) (p ++ b) = String.compare a b.
Proof.
  induction p as [|c p IH]; cbn [String.append String.compare]; [reflexivity|].
  now rewrite ascii_compare_refl.
Qed.

Lemma compare_app_decided (s1 : string) : forall s2 r1 r2,
  String.length s1 = String.length s2 -> String.compare s1 s2 = Lt ->
  String.compare (s1 ++ r1) (s2 ++ r2) = Lt.
Proof.
  induction s1 as [|c s1 IH]; intros [|d s2] r1 r2 Hlen Hlt; cbn in Hlen, Hlt;
    try discriminate.
  cbn [String.append String.compare].
  destruct (Ascii.compare c d); [|reflexivity | discriminate].
  apply IH; [lia | exact Hlt].
Qed.

(** A check run over [0, 1, ..., n - 1], counting in binary. *)
Lemma iter_check (check : Z -> bool) : forall n,
  let r := Nat.iter n (fun p => ((fst p + 1)%Z, snd p && check (fst p))) (0%Z, true) in
  fst r = Z.of_nat n /\
  (snd r = true -> forall k, (0 <= k < Z.of_nat n)%Z -> check k = true).
Proof.
  induction n as [|n IH]; cbn zeta.
  - split; [reflexivity | intros _ k Hk; lia].
  - cbn zeta in IH. destruct IH as [Hfst Hsnd]. cbn [Nat.iter nat_rect fst snd].
    change (nat_rect _ ?x ?f n) with (Nat.iter n (fun p => f O p) x) in *.
    split; [rewrite Hfst; lia|].
    intros Hall k Hk. apply andb_prop in Hall. destruct Hall as [Hprev Hn].
    destruct (Z.eq_dec k (Z.of_nat n)) as [-> | Hne].
    + rewrite <- Hfst. exact Hn.
    + apply Hsnd; [exact Hprev | lia].
Qed.

Lemma zu04_checked :
  snd (Nat.iter (Z.to_nat 9999)
         (fun p =>
            ((fst p + 1)%Z,
             snd p &&
             (Nat.eqb (String.length (Printf.pad0 4 (Printf.digits (fst p)))) 4 &&
              Nat.eqb (String.length (Printf.pad0 4 (Printf.digits (fst p + 1)))) 4 &&
              match String.compare (Printf.pad0 4 (Printf.digits (fst p)))
                      (Printf.pad0 4 (Printf.digits (fst p + 1))) with
              | Lt => true
              | _ => false
              end)))
         (0%Z, true)) = true.
Proof. vm_compute. reflexivity. Qed.

Lemma zu04_adjacent (k : nat) :
  (Z.of_nat k < 9999)%Z ->
  String.length (Printf.zu04 k) = 4%nat /\
  String.length (Printf.zu04 (S k)) = 4%nat /\
  String.compare (Printf.zu04 k) (Printf.zu04 (S k)) = Lt.
Proof.
  intros Hk.
  pose proof (proj2 (iter_check
    (fun z =>
       Nat.eqb (String.length (Printf.pad0 4 (Printf.digits z))) 4 &&
       Nat.eqb (String.length (Printf.pad0 4 (Printf.digits (z + 1)))) 4 &&
       match String.compare (Printf.pad0 4 (Printf.digits z))
               (Printf.pad0 4 (Printf.digits (z + 1))) with
       | Lt => true
       | _ => false
       end) (Z.to_nat 9999)) zu04_checked (Z.of_nat k) ltac:(lia)) as H.
  cbn beta in H. apply andb_prop in H. destruct H as [H Hlt].
  apply andb_prop in H. destruct H as [H1 H2].
  apply Nat.eqb_eq in H1, H2.
  unfold Printf.zu04. rewrite Nat2Z.inj_succ, <- Z.add_1_r.
  split; [exact H1|]. split; [exact H2|].
  destruct (String.compare (Printf.pad0 4 (Printf.digits (Z.of_nat k)))
              (Printf.pad0 4 (Printf.digits (Z.of_nat k + 1)))); congruence.
Qed.

Lemma zu04_width (k : nat) :
  (Z.of_nat k < 10000)%Z -> String.length (Printf.zu04 k) = 4%nat.
Proof.
  intros Hk. destruct k as [|k].
  - apply (zu04_adjacent 0). lia.
  - apply (zu04_adjacent k). lia.
Qed.

Lemma zu04_increasing (i j : nat) :
  (i < j)%nat -> (Z.of_nat j < 10000)%Z ->
  String.compare (Printf.zu04 i) (Printf.zu04 j) = Lt.
Proof.
  intros Hij Hj.
  induction j as [|j IH]; [lia|].
  destruct (Nat.eq_dec i j) as [-> | Hne].
  - apply zu04_adjacent. lia.
  - apply (compare_lt_trans _ (Printf.zu04 j)); [apply IH; lia | apply zu04_adjacent; lia].
Qed.

(** X29.  Up to 10000 exported files sort by name in the order of their
    numbers, whatever their times and scores: the name of entry [i] comes
    before the name of entry [j] in the lexicographic order whenever
    [i < j < 10000].  The four-digit field is too narrow beyond that: the
    name with number 10000 comes before the name with number 9999. *)
Theorem X29_file_names_sort_by_number :
  forall (Mat : Type) (a b : FrameData Mat),
    (forall i j, (i < j)%nat -> (Z.of_nat j < 10000)%Z ->
       String.compare (filename i a) (filename j b) = Lt) /\
    String.compare (filename (Z.to_nat 10000) a) (filename (Z.to_nat 9999) b) = Lt.
Proof.
  intros Mat a b. split.
  - intros i j Hij Hj. unfold filename. rewrite compare_app_same.
    apply compare_app_decided.
    + rewrite (zu04_width i), (zu04_width j) by lia. reflexivity.
    + apply zu04_increasing; assumption.
  - unfold filename. rewrite compare_app_same.
    replace (Printf.zu04 (Z.to_nat 10000)) with "10000"%string by (vm_compute; reflexivity).
    replace (Printf.zu04 (Z.to_nat 9999)) with "9999"%string by (vm_compute; reflexivity).
    reflexivity.
Qed.

(** File 3 comes before file 12, whatever their times and scores. *)
Lemma X29_witness :
  String.compare (filename 3 (mkFrame 9 1 true (@None Bench.Pic)))
                 (filename 12 (mkFrame 1 9 true (@None Bench.Pic))) = Lt.
Proof.
  apply (proj1 (X29_file_names_sort_by_number Bench.Pic (mkFrame 9 1 true None)
                  (mkFrame 1 9 true None))).
  - lia.
  - reflexivity.
Defined.

(* ------------------------------------------------------------------ *)
(** * Further properties of the start-up *)

(** What [runCli] reads of the parsed command line does not depend on the
    plot flag. *)
Lemma parseArgs_showPlot (argv : list string) : forall b b' alg args,
  cli_args (parseArgs argv (mkCliArgs b alg args)) =
  cli_args (parseArgs argv (mkCliArgs b' alg args)) /\
  cli_algorithm (parseArgs argv (mkCliArgs b alg args)) =
  cli_algorithm (parseArgs argv (mkCliArgs b' alg args)).
Proof.
  induction argv as [|a rest IH]; intros b b' alg args; cbn [parseArgs].
  - split; reflexivity.
  - cbn [cli_showPlot cli_algorithm cli_args].
    destruct (String.eqb a "--plot"); [apply IH|].
    destruct (String.prefix "--algorithm=" a); [apply IH|].
    destruct (negb (String.eqb a "--cli")); apply IH.
Qed.

Lemma cliMode_spec (prog first : string) (rest : list string) :
  cliMode (prog :: first :: rest) =
  existsb (fun a => String.eqb a "--cli") (first :: rest) ||
  ((2 <=? List.length rest)%nat && negb (String.prefix "-" first)).
Proof.
  unfold cliMode. cbn [tl nth_error List.length]. f_equal. f_equal.
  destruct first as [|c first']; [reflexivity|].
  cbn [String.prefix]. destruct (Ascii.eqb_spec c "-") as [-> | Hc].
  - destruct (ascii_dec "-" "-") as [_ | Hn]; [|contradiction].
    now destruct first'.
  - destruct (ascii_dec "-" c) as [He | _]; [congruence | reflexivity].
Qed.

Lemma existsb_cli (l : list string) :
  existsb (fun a => String.eqb a "--cli") l = true <-> In "--cli"%string l.
Proof.
  rewrite existsb_exists. split.
  - intros (a & Hin & Ha). apply String.eqb_eq in Ha. now subst.
  - intros Hin. exists "--cli"%string. split; [exact Hin | reflexivity].
Qed.

(** X30.  What [main] starts.  A build without the GUI always runs
    [runCli] on the whole command line.  A build with the GUI runs [runCli]
    when [--cli] occurs after the program name, and otherwise only when
    there are at least three further arguments and the first of them does
    not start with a dash; in every other case it opens the GUI.  So an
    invocation that puts [--plot] first, without [--cli], opens the GUI
    although [runCli] takes its flags anywhere: it would have returned the
    same with and without the flag. *)
Theorem X30_flag_first_leaves_command_line :
  forall (Mat : Type) (rows cols : Mat -> Z) (score : Mat -> SharpnessAlgorithm -> Q)
         (read : string -> Q -> option Mat) (resize : Mat -> Z -> Z -> Mat)
         (imwrite : string -> string -> Mat -> bool)
         (capOpen : string -> option CapProps) (stod : string -> option Q)
         (toFloat : Q -> Q) (createDirectories : string -> bool) (fuel : nat)
         (guiEnabled : bool) (prog first : string) (rest : list string),
    let run := runCli rows cols score read resize imwrite capOpen stod toFloat
                 createDirectories fuel in
    let start := main rows cols score read resize imwrite guiEnabled capOpen stod toFloat
                   createDirectories fuel in
    (guiEnabled = false -> forall argv, start argv = RunCli (run argv)) /\
    (In "--cli"%string (first :: rest) ->
     start (prog :: first :: rest) = RunCli (run (prog :: first :: rest))) /\
    (guiEnabled = true -> ~ In "--cli"%string (first :: rest) ->
     start (prog :: first :: rest) =
     if (2 <=? List.length rest)%nat && negb (String.prefix "-" first)
     then RunCli (run (prog :: first :: rest)) else RunGui) /\
    (guiEnabled = true -> start [prog] = RunGui) /\
    (guiEnabled = true -> ~ In "--cli"%string rest ->
     start (prog :: "--plot"%string :: rest) = RunGui /\
     run (prog :: "--plot"%string :: rest) = run (prog :: rest)).
Proof.
  intros Mat rows cols score read resize imwrite capOpen stod toFloat createDirectories
    fuel guiEnabled prog first rest run start. subst run start.
  split; [|split; [|split; [|split]]].
  - intros -> argv. reflexivity.
  - intros Hin. unfold main. rewrite cliMode_spec.
    apply existsb_cli in Hin. rewrite Hin. cbn [orb negb]. now rewrite andb_false_r.
  - intros -> Hno. unfold main. rewrite cliMode_spec.
    destruct (existsb (fun a => String.eqb a "--cli") (first :: rest)) eqn:E.
    { apply existsb_cli in E. contradiction. }
    cbn [orb andb].
    now destruct ((2 <=? List.length rest)%nat && negb (String.prefix "-" first)).
  - intros ->. reflexivity.
  - intros -> Hno. split.
    + unfold main. rewrite cliMode_spec.
      destruct (existsb (fun a => String.eqb a "--cli") ("--plot"%string :: rest)) eqn:E.
      { apply existsb_cli in E. destruct E as [E | E]; [discriminate E | contradiction]. }
      cbn [orb]. change (String.prefix "-" "--plot") with true.
      cbn [negb]. now rewrite andb_false_r.
    + unfold runCli. cbn [parseArgs].
      set (acc := if String.eqb prog "--plot" then _ else _).
      change (String.eqb "--plot" "--plot") with true. cbv iota.
      destruct (parseArgs_showPlot rest true (cli_showPlot acc) (cli_algorithm acc)
                  (cli_args acc)) as [Ha Hg].
      assert (Eacc : mkCliArgs (cli_showPlot acc) (cli_algorithm acc) (cli_args acc) = acc)
        by (destruct acc; reflexivity).
      rewrite Eacc in Ha, Hg. rewrite Ha, Hg. reflexivity.
Qed.

(** [--plot] first, three positional arguments after it: the GUI build
    opens the GUI. *)
Lemma X30_witness :
  main Bench.pic_rows Bench.pic_cols Bench.score Bench.ramp Bench.resize Bench.imwrite
    true Bench.capOpen Bench.stod Bench.toFloat Bench.createDirectories 1000
    ["sharpctl"; "--plot"; "clip.mp4"; "out"; "2"]%string = RunGui.
Proof.
  apply (proj1 (proj2 (proj2 (proj2 (proj2
           (X30_flag_first_leaves_command_line Bench.Pic Bench.pic_rows Bench.pic_cols
              Bench.score Bench.ramp Bench.resize Bench.imwrite Bench.capOpen Bench.stod
              Bench.toFloat Bench.createDirectories 1000%nat true
              "sharpctl" "--plot" ["clip.mp4"; "out"; "2"]%string))))
           eq_refl
           ltac:(intros [H | [H | [H | []]]]; discriminate H))).
Defined.

